(** * The contract layer of the RAG service

    A shallow embedding of [backend/app/models/schemas.py].  The file
    declares twelve pydantic [BaseModel] classes and nothing else: every
    class is a list of annotated fields, some with a [Field(...)] that adds
    a default, a default factory, a minimum length or a pattern.  No class
    has a validator, a [model_config] or a bound on a number.

    The classes are embedded as data ([model], a list of [field]s), one
    definition per class, with the names and in the order of the source.

    What a class does with an input is decided by pydantic, not by this
    file.  Its validation of such declarations is embedded as the
    interpreter [validate], under these readings:
    - pydantic version 2 (the source writes [pattern=], the keyword of
      version 2), with its default configuration: lax mode, keys that name
      no field ignored, defaults not validated, [inf] and [nan] allowed;
    - inputs are decoded JSON held by Python: [None], [bool], [int],
      [float], [str], [list], and [dict] with string keys ([raw]);
    - a [float] is a binary64 number ([PrimFloat.float]), an [int] an
      integer of any size ([Z]), a [str] a sequence of characters
      ([string]; its length is the number of characters);
    - the clock read by [datetime.utcnow().isoformat()] is a parameter,
      [now];
    - a [ValidationError] is the list of its lines, each with its location,
      its rule (pydantic's error [type]) and the input it is about. *)

From Stdlib Require Import String Ascii List ZArith Bool Lia.
From Stdlib Require Import PrimFloat FloatOps SpecFloat.
Import ListNotations.
Local Open Scope string_scope.
Local Open Scope list_scope.
#[local] Set Warnings "-register-all".

(** ** Raw inputs, validated values, errors *)

(** A decoded JSON document, as Python holds it.  A [dict] keeps its
    entries in insertion order; [dict_get] reads the first entry of a key. *)
Inductive raw : Type :=
| RNone
| RBool (b : bool)
| RInt (i : Z)
| RFloat (f : float)
| RStr (s : string)
| RList (items : list raw)
| RDict (entries : list (string * raw)).

Definition dict : Type := list (string * raw).

Fixpoint dict_get (d : dict) (key : string) : option raw :=
  match d with
  | [] => None
  | (k, v) :: d' => if String.eqb k key then Some v else dict_get d' key
  end.

(** A validated value.  A model instance is its fields in declaration
    order. *)
Inductive value : Type :=
| VNone
| VBool (b : bool)
| VInt (i : Z)
| VFloat (f : float)
| VStr (s : string)
| VList (items : list value)
| VModel (fields : list (string * value)).

Fixpoint get_field (fields : list (string * value)) (name : string) : option value :=
  match fields with
  | [] => None
  | (k, v) :: fields' => if String.eqb k name then Some v else get_field fields' name
  end.

(** One step of an error location: a field name or a list index. *)
Inductive loc_item : Type :=
| LField (name : string)
| LIndex (index : nat).

Definition loc : Type := list loc_item.

(** The rules a value can violate (pydantic's error [type]). *)
Inductive error_type : Type :=
| missing
| string_type
| string_too_short (min_length : nat)
| string_pattern_mismatch
| int_type
| int_parsing
| int_parsing_size
| int_from_float
| finite_number
| float_type
| float_parsing
| bool_type
| bool_parsing
| list_type
| model_type.

(** One line of a [ValidationError]: where, which rule, which value. *)
Record line_error : Type := LineError {
  err_loc : loc;
  err_type : error_type;
  err_input : raw
}.

(** Validation returns the value or one [ValidationError] that carries
    every line. *)
Inductive result (A : Type) : Type :=
| Ok (a : A)
| ValidationError (errors : list line_error).
Arguments Ok {A} a.
Arguments ValidationError {A} errors.

Definition fail {A : Type} (at_loc : loc) (rule : error_type) (v : raw) : result A :=
  ValidationError [LineError at_loc rule v].

Definition errors_of {A : Type} (r : result A) : list line_error :=
  match r with
  | Ok _ => []
  | ValidationError es => es
  end.

Definition value_of {A : Type} (r : result A) : option A :=
  match r with
  | Ok a => Some a
  | ValidationError _ => None
  end.

(** ** Patterns

    [pattern=] is matched by a search of the regex crate: the pattern may
    match anywhere in the string, [^] only before the first character and
    [$] only after the last one. *)
Inductive regex : Type :=
| Lit (s : string)
| StartText
| EndText
| Alt (r1 r2 : regex)
| Cat (r1 r2 : regex).

Fixpoint strip_prefix (p s : string) : option string :=
  match p with
  | EmptyString => Some s
  | String c p' =>
      match s with
      | EmptyString => None
      | String c' s' => if Ascii.eqb c c' then strip_prefix p' s' else None
      end
  end.

(** The ways [r] can match a prefix of [s], [s] starting at offset [pos] of
    the whole string: each way as the offset and the text that follow it. *)
Fixpoint match_at (r : regex) (pos : nat) (s : string) : list (nat * string) :=
  match r with
  | Lit p =>
      match strip_prefix p s with
      | Some s' => [(pos + String.length p, s')]
      | None => []
      end
  | StartText => if Nat.eqb pos 0 then [(pos, s)] else []
  | EndText =>
      match s with
      | EmptyString => [(pos, s)]
      | String _ _ => []
      end
  | Alt r1 r2 => match_at r1 pos s ++ match_at r2 pos s
  | Cat r1 r2 => flat_map (fun m => match_at r2 (fst m) (snd m)) (match_at r1 pos s)
  end.

Definition matches_here (r : regex) (pos : nat) (s : string) : bool :=
  match match_at r pos s with
  | [] => false
  | _ :: _ => true
  end.

Fixpoint search (r : regex) (pos : nat) (s : string) : bool :=
  matches_here r pos s
  || match s with
     | EmptyString => false
     | String _ s' => search r (S pos) s'
     end.

Definition is_match (r : regex) (s : string) : bool := search r 0 s.

(** ** Lax conversions

    In lax mode a field converts some values of another type, following
    pydantic's conversion table.  Strings are trimmed as Rust's [str::trim]
    does, of the characters with the property White_Space (among the
    characters of [ascii]: the controls 9 to 13, the space, U+0085 and
    U+00A0), and read by the number parsers of pydantic-core. *)
Definition is_whitespace (c : ascii) : bool :=
  let n := nat_of_ascii c in
  (Nat.leb 9 n && Nat.leb n 13) || Nat.eqb n 32 || Nat.eqb n 133 || Nat.eqb n 160.

Fixpoint trim_start (s : string) : string :=
  match s with
  | EmptyString => EmptyString
  | String c s' => if is_whitespace c then trim_start s' else s
  end.

Fixpoint trim_end (s : string) : string :=
  match s with
  | EmptyString => EmptyString
  | String c s' =>
      match trim_end s' with
      | EmptyString => if is_whitespace c then EmptyString else String c EmptyString
      | t => String c t
      end
  end.

Definition trim (s : string) : string := trim_end (trim_start s).

Definition digit_of (c : ascii) : option Z :=
  let n := nat_of_ascii c in
  if Nat.leb 48 n && Nat.leb n 57 then Some (Z.of_nat (n - 48)) else None.

Fixpoint digits_value (acc : Z) (s : string) : option Z :=
  match s with
  | EmptyString => Some acc
  | String c s' =>
      match digit_of c with
      | Some d => digits_value (10 * acc + d) s'
      | None => None
      end
  end.

Definition parse_digits (s : string) : option Z :=
  match s with
  | EmptyString => None
  | String _ _ => digits_value 0 s
  end.

(** A leading sign: whether it is a minus, and what follows it. *)
Definition split_sign (s : string) : bool * string :=
  match s with
  | EmptyString => (false, s)
  | String c s' =>
      if Ascii.eqb c "+" then (false, s')
      else if Ascii.eqb c "-" then (true, s')
      else (false, s)
  end.

(** Rust's integer [parse]: an optional sign and one digit or more. *)
Definition parse_int (s : string) : option Z :=
  let (negative, body) := split_sign s in
  option_map (fun i => if negative then Z.opp i else i) (parse_digits body).

Fixpoint all_zeros (s : string) : bool :=
  match s with
  | EmptyString => true
  | String c s' => Ascii.eqb c "0" && all_zeros s'
  end.

Definition is_nonzero_digit (c : ascii) : bool :=
  let n := nat_of_ascii c in
  Nat.leb 49 n && Nat.leb n 57.

(** After a leading zero: further zeros and underscores are passed over,
    up to a digit from 1 to 9 or a minus (what starts there is kept), to a
    point (kept with the character before it) or to the end (the last
    character is kept); anything else is no number.  [prev] is the
    character before [s]. *)
Fixpoint skip_zeros (prev : ascii) (s : string) : option string :=
  match s with
  | EmptyString => Some (String prev EmptyString)
  | String c s' =>
      if Ascii.eqb c "0" || Ascii.eqb c "_" then skip_zeros c s'
      else if is_nonzero_digit c || Ascii.eqb c "-" then Some s
      else if Ascii.eqb c "." then Some (String prev s)
      else None
  end.

(** [0042] reads as [42]: a text that starts with a digit from 1 to 9 or
    a minus is kept as it is, one that starts with a zero loses its
    leading zeros, any other is no number. *)
Definition strip_leading_zeros (s : string) : option string :=
  match s with
  | EmptyString => None
  | String c s' =>
      if Ascii.eqb c "0" then skip_zeros c s'
      else if is_nonzero_digit c || Ascii.eqb c "-" then Some s
      else None
  end.

(** [1.000] reads as [1]: the text before the first point, when one zero
    or more, and nothing else, follow the point. *)
Fixpoint strip_decimal_zeros (s : string) : string :=
  match s with
  | EmptyString => EmptyString
  | String c s' =>
      if Ascii.eqb c "."
      then match s' with
           | EmptyString => s
           | String _ _ => if all_zeros s' then EmptyString else s
           end
      else String c (strip_decimal_zeros s')
  end.

Fixpoint remove_underscores (s : string) : string :=
  match s with
  | EmptyString => EmptyString
  | String c s' =>
      if Ascii.eqb c "_" then remove_underscores s' else String c (remove_underscores s')
  end.

(** Whether [s] holds an underscore at all, and whether every underscore
    of [s] stands between two other characters ([prev]: the character
    before [s] is not an underscore). *)
Fixpoint has_underscore (s : string) : bool :=
  match s with
  | EmptyString => false
  | String c s' => Ascii.eqb c "_" || has_underscore s'
  end.

Fixpoint underscores_inside (prev : bool) (s : string) : bool :=
  match s with
  | EmptyString => prev
  | String c s' =>
      if Ascii.eqb c "_" then prev && underscores_inside false s'
      else underscores_inside true s'
  end.

(** [1_000] reads as [1000]; no underscore first, last or doubled. *)
Definition strip_underscores (s : string) : option string :=
  if has_underscore s && underscores_inside false s
  then Some (remove_underscores s)
  else None.

(** A leading plus is dropped, unless a minus follows it: [+-1] is no
    number. *)
Definition strip_plus (s : string) : option string :=
  match s with
  | EmptyString => Some s
  | String c s' =>
      if Ascii.eqb c "+" then
        match s' with
        | EmptyString => Some s'
        | String c' _ => if Ascii.eqb c' "-" then None else Some s'
        end
      else Some s
  end.

(** A leading minus is set aside, unless another sign follows it: whether
    there was one, and the text after it. *)
Definition strip_minus (s : string) : option (bool * string) :=
  match s with
  | EmptyString => Some (false, s)
  | String c s' =>
      if Ascii.eqb c "-" then
        match s' with
        | EmptyString => Some (true, s')
        | String c' _ =>
            if Ascii.eqb c' "-" || Ascii.eqb c' "+" then None else Some (true, s')
        end
      else Some (false, s)
  end.

Definition with_sign (negative : bool) (s : string) : string :=
  if negative then String "-" s else s.

(** The text of an integer made ready for the parser: trimmed, without a
    leading plus, leading zeros, a fraction of zeros and underscores, the
    minus set aside and put back; none when there is nothing to clean or
    the text cannot start a number. *)
Definition clean_int_str (s : string) : option string :=
  match strip_plus (trim s) with
  | None => None
  | Some s0 =>
      match strip_minus s0 with
      | None => None
      | Some (negative, s1) =>
          match strip_leading_zeros s1 with
          | None => None
          | Some s2 =>
              let s3 := strip_decimal_zeros s2 in
              match strip_underscores s3 with
              | Some s4 => Some (with_sign negative s4)
              | None =>
                  if Nat.eqb (String.length s) (String.length s3) then None
                  else Some (with_sign negative s3)
              end
          end
      end
  end.

Definition INT_MAX_STR_DIGITS : nat := 4300.

(** The digits [s] starts with, and what follows them. *)
Fixpoint span_digits (s : string) : string * string :=
  match s with
  | EmptyString => (EmptyString, EmptyString)
  | String c s' =>
      match digit_of c with
      | Some _ => let (ds, rest) := span_digits s' in (String c ds, rest)
      | None => (EmptyString, s)
      end
  end.

(** The integer parser: an optional minus, then a lone zero or digits
    that do not start with a zero, and nothing after; more than 4300
    digits are out of range. *)
Definition parse_number_int (s : string) : error_type + Z :=
  let (negative, body) :=
    match s with
    | EmptyString => (false, s)
    | String c s' => if Ascii.eqb c "-" then (true, s') else (false, s)
    end in
  let (digits, rest) := span_digits body in
  match digits with
  | EmptyString => inl int_parsing
  | String c ds =>
      if Ascii.eqb c "0" then
        match ds, rest with
        | EmptyString, EmptyString => inr 0%Z
        | _, _ => inl int_parsing
        end
      else if Nat.ltb INT_MAX_STR_DIGITS (String.length digits) then inl int_parsing_size
      else
        match rest, digits_value 0 digits with
        | EmptyString, Some i => inr (if negative then Z.opp i else i)
        | _, _ => inl int_parsing
        end
  end.

(** [str] to [int]: the error, or the integer read. *)
Definition str_as_int (s : string) : error_type + Z :=
  let t := trim s in
  match clean_int_str t with
  | Some cleaned => parse_number_int cleaned
  | None => parse_number_int t
  end.

(** The binary64 value nearest to [m * 10 ^ e10] (ties to even), [m]
    positive.  For a negative [e10] the quotient by [10 ^ - e10] is taken
    with 63 bits or more, and a last bit that records a remainder. *)
Definition decimal_as_float (negative : bool) (m e10 : Z) : float :=
  let sign := if negative then (-1)%Z else 1%Z in
  if Z.eqb m 0 then SF2Prim (S754_zero negative)
  else if Z.leb 0 e10 then
    SF2Prim (binary_normalize 53 1024 (sign * (m * 10 ^ e10)) 0 false)
  else
    let d := (10 ^ (- e10))%Z in
    let s := (Z.log2 d + 64)%Z in
    let n := (m * 2 ^ s)%Z in
    let sticky := if Z.eqb (n mod d) 0 then 0%Z else 1%Z in
    SF2Prim (binary_normalize 53 1024 (sign * (2 * (n / d) + sticky)) (- s - 1) false).

Definition lower (c : ascii) : ascii :=
  let n := nat_of_ascii c in
  if Nat.leb 65 n && Nat.leb n 90 then ascii_of_nat (n + 32) else c.

Fixpoint lower_string (s : string) : string :=
  match s with
  | EmptyString => EmptyString
  | String c s' => String (lower c) (lower_string s')
  end.

(** Rust's [f64] parser: a sign, then [inf], [infinity] or [nan] in any
    case, or digits with an optional point and an optional exponent, one
    digit at least before the exponent. *)
Definition parse_float (s : string) : option float :=
  let (negative, body) := split_sign s in
  let word := lower_string body in
  if String.eqb word "inf" || String.eqb word "infinity"
  then Some (if negative then neg_infinity else infinity)
  else if String.eqb word "nan" then Some nan
  else
    let (int_part, after_int) := span_digits body in
    let (frac_part, after_frac) :=
      match after_int with
      | EmptyString => (EmptyString, after_int)
      | String c s' =>
          if Ascii.eqb c "." then span_digits s' else (EmptyString, after_int)
      end in
    let exponent :=
      match after_frac with
      | EmptyString => Some 0%Z
      | String c s' => if Ascii.eqb (lower c) "e" then parse_int s' else None
      end in
    match digits_value 0 (int_part ++ frac_part)%string, exponent with
    | Some m, Some e =>
        if Nat.eqb (String.length int_part + String.length frac_part) 0 then None
        else Some (decimal_as_float negative m (e - Z.of_nat (String.length frac_part)))
    | _, _ => None
    end.

(** [str] to [float]. *)
Definition str_as_float (s : string) : option float :=
  match parse_float (trim s) with
  | Some f => Some f
  | None =>
      match strip_underscores s with
      | Some s' => parse_float s'
      | None => None
      end
  end.

(** [int] to [float]: the nearest binary64 value; none when it would be
    infinite (Python's [OverflowError]). *)
Definition int_as_float (i : Z) : option float :=
  let f := SF2Prim (binary_normalize 53 1024 i 0 false) in
  if is_infinity f then None else Some f.

(** [float] to [int]: a finite float without fractional part, strictly
    between [- 2 ^ 63] and [2 ^ 63]. *)
Definition float_as_int (f : float) : error_type + Z :=
  match Prim2SF f with
  | S754_nan | S754_infinity _ => inl finite_number
  | S754_zero _ => inr 0%Z
  | S754_finite negative m e =>
      let sign := if negative then (-1)%Z else 1%Z in
      if Z.leb 0 e then
        let i := (Z.pos m * 2 ^ e)%Z in
        if Z.ltb i (2 ^ 63) then inr (sign * i)%Z else inl int_parsing_size
      else if Z.eqb (Z.pos m mod 2 ^ (- e)) 0 then
        let i := (Z.pos m / 2 ^ (- e))%Z in
        if Z.ltb i (2 ^ 63) then inr (sign * i)%Z else inl int_parsing_size
      else inl int_from_float
  end.

Definition int_as_bool (i : Z) : option bool :=
  if Z.eqb i 0 then Some false
  else if Z.eqb i 1 then Some true
  else None.

Definition str_as_bool (s : string) : option bool :=
  let word := lower_string s in
  if existsb (String.eqb word) ["0"; "off"; "f"; "false"; "n"; "no"] then Some false
  else if existsb (String.eqb word) ["1"; "on"; "t"; "true"; "y"; "yes"] then Some true
  else None.

(** ** Declarations

    What a class body can say about a field: its annotation ([str], [int],
    [float], [bool], [Optional[...]], [List[...]], another model), the
    constraints [Field] puts on a [str], and its default. *)
Inductive default : Type :=
| Required
| Default (v : value)
| DefaultFactory (factory : string -> value).

Inductive ftype : Type :=
| TStr (min_length : option nat) (pattern : option regex)
| TInt
| TFloat
| TBool
| TOptional (t : ftype)
| TList (t : ftype)
| TModel (fields : list field)
with field : Type :=
| Field (name : string) (annotation : ftype) (dflt : default).

Definition model : Type := list field.

Definition field_name (f : field) : string :=
  match f with
  | Field name _ _ => name
  end.

(** ** Validation of one value *)

Definition check_pattern (pattern : option regex) (at_loc : loc) (s : string) : result value :=
  match pattern with
  | None => Ok (VStr s)
  | Some r => if is_match r s then Ok (VStr s) else fail at_loc string_pattern_mismatch (RStr s)
  end.

Definition validate_str (min_length : option nat) (pattern : option regex)
    (at_loc : loc) (v : raw) : result value :=
  match v with
  | RStr s =>
      match min_length with
      | Some n =>
          if Nat.ltb (String.length s) n then fail at_loc (string_too_short n) v
          else check_pattern pattern at_loc s
      | None => check_pattern pattern at_loc s
      end
  | _ => fail at_loc string_type v
  end.

Definition validate_int (at_loc : loc) (v : raw) : result value :=
  match v with
  | RInt i => Ok (VInt i)
  | RBool b => Ok (VInt (if b then 1 else 0))
  | RStr s =>
      match str_as_int s with
      | inr i => Ok (VInt i)
      | inl rule => fail at_loc rule v
      end
  | RFloat f =>
      match float_as_int f with
      | inr i => Ok (VInt i)
      | inl rule => fail at_loc rule v
      end
  | _ => fail at_loc int_type v
  end.

Definition validate_float (at_loc : loc) (v : raw) : result value :=
  match v with
  | RFloat f => Ok (VFloat f)
  | RStr s =>
      match str_as_float s with
      | Some f => Ok (VFloat f)
      | None => fail at_loc float_parsing v
      end
  | RInt i =>
      match int_as_float i with
      | Some f => Ok (VFloat f)
      | None => fail at_loc float_type v
      end
  | RBool b => Ok (VFloat (if b then one else zero))
  | _ => fail at_loc float_type v
  end.

Definition validate_bool (at_loc : loc) (v : raw) : result value :=
  match v with
  | RBool b => Ok (VBool b)
  | RStr s =>
      match str_as_bool s with
      | Some b => Ok (VBool b)
      | None => fail at_loc bool_parsing v
      end
  | RInt i =>
      if Z.leb (- 2 ^ 63) i && Z.ltb i (2 ^ 63) then
        match int_as_bool i with
        | Some b => Ok (VBool b)
        | None => fail at_loc bool_parsing v
        end
      else fail at_loc bool_type v
  | RFloat f =>
      match float_as_int f with
      | inr i =>
          match int_as_bool i with
          | Some b => Ok (VBool b)
          | None => fail at_loc bool_parsing v
          end
      | inl _ => fail at_loc bool_type v
      end
  | _ => fail at_loc bool_type v
  end.

(** The end of a loop over items or fields: the value built when no line
    was collected, all the lines otherwise. *)
Definition finish {A : Type} (build : A -> value) (p : A * list line_error) : result value :=
  match snd p with
  | [] => Ok (build (fst p))
  | e :: es => ValidationError (e :: es)
  end.

Section Loops.
(** The validator of an annotation, and the clock a default factory
    reads ([datetime.utcnow().isoformat()]). *)
Variable check : ftype -> loc -> raw -> result value.
Variable now : string.

(** The items of a list are all validated; every item's lines are kept,
    under the item's index. *)
Fixpoint validate_items (t : ftype) (at_loc : loc) (index : nat) (items : list raw)
    : list value * list line_error :=
  match items with
  | [] => ([], [])
  | x :: items' =>
      let (vs, es) := validate_items t at_loc (S index) items' in
      match check t (at_loc ++ [LIndex index]) x with
      | Ok v => (v :: vs, es)
      | ValidationError es' => (vs, es' ++ es)
      end
  end.

(** One field: the value under its name when the input has the key,
    its default otherwise, [missing] when it has none. *)
Definition validate_field (d : dict) (at_loc : loc) (f : field) : result value :=
  match f with
  | Field name annotation dflt =>
      match dict_get d name with
      | Some v => check annotation (at_loc ++ [LField name]) v
      | None =>
          match dflt with
          | Required => fail (at_loc ++ [LField name]) missing (RDict d)
          | Default x => Ok x
          | DefaultFactory factory => Ok (factory now)
          end
      end
  end.

(** The fields of a model are all validated, in declaration order; keys
    of the input that name no field are not read. *)
Fixpoint validate_fields (d : dict) (at_loc : loc) (fields : list field)
    : list (string * value) * list line_error :=
  match fields with
  | [] => ([], [])
  | f :: fields' =>
      let (vs, es) := validate_fields d at_loc fields' in
      match validate_field d at_loc f with
      | Ok v => ((field_name f, v) :: vs, es)
      | ValidationError es' => (vs, es' ++ es)
      end
  end.
End Loops.

Fixpoint validate (now : string) (t : ftype) (at_loc : loc) (v : raw) {struct t} : result value :=
  match t with
  | TStr min_length pattern => validate_str min_length pattern at_loc v
  | TInt => validate_int at_loc v
  | TFloat => validate_float at_loc v
  | TBool => validate_bool at_loc v
  | TOptional t' =>
      match v with
      | RNone => Ok VNone
      | _ => validate now t' at_loc v
      end
  | TList t' =>
      match v with
      | RList items => finish VList (validate_items (validate now) t' at_loc 0 items)
      | _ => fail at_loc list_type v
      end
  | TModel fields =>
      match v with
      | RDict d => finish VModel (validate_fields (validate now) now d at_loc fields)
      | _ => fail at_loc model_type v
      end
  end.

(** Constructing a class from a mapping, the keys as keyword arguments. *)
Definition validate_model (now : string) (m : model) (d : dict) : result value :=
  validate now (TModel m) [] (RDict d).

(** ** The classes of schemas.py *)

Definition str : ftype := TStr None None.

(** [default_factory=list] *)
Definition list_factory : string -> value := fun _ => VList [].

(** [default_factory=lambda: datetime.utcnow().isoformat()] *)
Definition utcnow_isoformat : string -> value := fun now => VStr now.

(** The pattern [^(user|assistant)$]. *)
Definition role_pattern : regex :=
  Cat StartText (Cat (Alt (Lit "user") (Lit "assistant")) EndText).

Definition TextProcessRequest : model :=
  [ Field "text" (TStr (Some 1) None) Required;
    Field "title" (TOptional str) (Default VNone) ].

Definition DocumentUploadResponse : model :=
  [ Field "success" TBool Required;
    Field "document_id" str Required;
    Field "title" str Required;
    Field "chunks_created" TInt Required;
    Field "links_extracted" TInt (Default (VInt 0));
    Field "images_extracted" TInt (Default (VInt 0));
    Field "processing_time_ms" TFloat Required ].

Definition ChatMessage : model :=
  [ Field "role" (TStr None (Some role_pattern)) Required;
    Field "content" str Required ].

Definition QueryRequest : model :=
  [ Field "query" (TStr (Some 1) None) Required;
    Field "session_id" (TOptional str) (Default VNone);
    Field "chat_history" (TOptional (TList (TModel ChatMessage)))
      (DefaultFactory list_factory) ].

Definition SourceReference : model :=
  [ Field "id" TInt Required;
    Field "text" str Required;
    Field "document" str Required;
    Field "links" (TList str) (DefaultFactory list_factory);
    Field "images" (TList str) (DefaultFactory list_factory);
    Field "score" TFloat Required;
    Field "chunk_id" (TOptional str) (Default VNone);
    Field "section" (TOptional str) (Default VNone) ].

Definition TimingInfo : model :=
  [ Field "retrieval_ms" TFloat Required;
    Field "rerank_ms" TFloat Required;
    Field "llm_ms" TFloat Required;
    Field "total_ms" TFloat Required ].

Definition TokenUsage : model :=
  [ Field "prompt_tokens" TInt Required;
    Field "completion_tokens" TInt Required;
    Field "total_tokens" TInt Required;
    Field "estimated_cost_usd" TFloat Required ].

Definition QueryResponse : model :=
  [ Field "answer" str Required;
    Field "sources" (TList (TModel SourceReference)) (DefaultFactory list_factory);
    Field "has_context" TBool Required;
    Field "general_answer" (TOptional str) (Default VNone);
    Field "timing" (TModel TimingInfo) Required;
    Field "token_usage" (TOptional (TModel TokenUsage)) (Default VNone);
    Field "session_id" (TOptional str) (Default VNone) ].

Definition ChunkMetadata : model :=
  [ Field "source" str Required;
    Field "title" str Required;
    Field "section" (TOptional str) (Default VNone);
    Field "chunk_id" str Required;
    Field "links" (TList str) (DefaultFactory list_factory);
    Field "images" (TList str) (DefaultFactory list_factory);
    Field "created_at" str (DefaultFactory utcnow_isoformat) ].

Definition RetrievedChunk : model :=
  [ Field "chunk_id" str Required;
    Field "text" str Required;
    Field "score" TFloat Required;
    Field "metadata" (TModel ChunkMetadata) Required ].

Definition RerankedChunk : model :=
  [ Field "chunk_id" str Required;
    Field "text" str Required;
    Field "score" TFloat Required;
    Field "original_score" TFloat Required;
    Field "metadata" (TModel ChunkMetadata) Required ].

Definition HealthResponse : model :=
  [ Field "status" str Required;
    Field "qdrant_connected" TBool Required;
    Field "openai_configured" TBool Required;
    Field "cohere_configured" TBool Required;
    Field "timestamp" str (DefaultFactory utcnow_isoformat) ].

(** Every class of the file. *)
Definition contract_layer : list model :=
  [ TextProcessRequest; DocumentUploadResponse; ChatMessage; QueryRequest;
    SourceReference; TimingInfo; TokenUsage; QueryResponse; ChunkMetadata;
    RetrievedChunk; RerankedChunk; HealthResponse ].

(** ** Notions the properties are stated with *)

Definition field_annotation (f : field) : ftype :=
  match f with
  | Field _ annotation _ => annotation
  end.

(** The lines one field of a class contributes on input [d]. *)
Definition field_errors (now : string) (d : dict) (f : field) : list line_error :=
  errors_of (validate_field (validate now) now d [] f).

(** A field gives an entry of the record: its name and the value it
    validates to. *)
Definition field_gives (now : string) (d : dict) (f : field) (nv : string * value) : Prop :=
  fst nv = field_name f /\ validate_field (validate now) now d [] f = Ok (snd nv).

(** The value an input holds at a location. *)
Fixpoint raw_at (v : raw) (path : loc) : option raw :=
  match path with
  | [] => Some v
  | LField name :: path' =>
      match v with
      | RDict d =>
          match dict_get d name with
          | Some v' => raw_at v' path'
          | None => None
          end
      | _ => None
      end
  | LIndex index :: path' =>
      match v with
      | RList items =>
          match nth_error items index with
          | Some v' => raw_at v' path'
          | None => None
          end
      | _ => None
      end
  end.

(** A line reports the value the input holds at the line's location; a
    [missing] line, whose location the input does not have, reports the
    mapping that lacks the key. *)
Definition reports_input (v : raw) (path : loc) (e : line_error) : Prop :=
  raw_at v path = Some (err_input e)
  \/ (err_type e = missing
      /\ raw_at v path = None
      /\ exists parent name,
           path = parent ++ [LField name] /\ raw_at v parent = Some (err_input e)).

(** The line is located at [path] below [at_loc]. *)
Definition located (at_loc : loc) (v : raw) (e : line_error) : Prop :=
  exists path, err_loc e = at_loc ++ path /\ reports_input v path e.

Fixpoint all_digits (s : string) : bool :=
  match s with
  | EmptyString => true
  | String c s' =>
      match digit_of c with
      | Some _ => all_digits s'
      | None => false
      end
  end.

(** One decimal digit or more, nothing else. *)
Definition is_digit_string (s : string) : bool :=
  match s with
  | EmptyString => false
  | String _ _ => all_digits s
  end.

(** Whether a decimal digit occurs in the string. *)
Fixpoint has_digit (s : string) : bool :=
  match s with
  | EmptyString => false
  | String c s' =>
      match digit_of c with
      | Some _ => true
      | None => has_digit s'
      end
  end.

(** Where and which rule, without the value reported. *)
Definition line_key (e : line_error) : loc * error_type := (err_loc e, err_type e).

(** A source as a backend stage hands it over: the required fields of
    [SourceReference], with any integer as [id]. *)
Record source_input : Type := SourceInput {
  source_id : Z;
  source_text : string;
  source_document : string;
  source_score : float
}.

Definition raw_source (s : source_input) : raw :=
  RDict [("id", RInt (source_id s)); ("text", RStr (source_text s));
         ("document", RStr (source_document s)); ("score", RFloat (source_score s))].

(** The [SourceReference] it validates to. *)
Definition source_reference (s : source_input) : value :=
  VModel [("id", VInt (source_id s)); ("text", VStr (source_text s));
          ("document", VStr (source_document s));
          ("links", VList []); ("images", VList []);
          ("score", VFloat (source_score s));
          ("chunk_id", VNone); ("section", VNone)].

(** The [id] of each [SourceReference] of a list. *)
Definition source_ids (sources : list value) : list (option value) :=
  map (fun s => match s with
                | VModel fields => get_field fields "id"
                | _ => None
                end) sources.

(** A fixed reading of the clock, for examples. *)
Definition sample_now : string := "2024-01-01T00:00:00.000000".

(** ** Notions for the properties of the classes as a whole *)

(** A line moved below a location, as when the value it is about is a
    field or an item of a larger input. *)
Definition relocate (at_loc : loc) (e : line_error) : line_error :=
  LineError (at_loc ++ err_loc e) (err_type e) (err_input e).

Definition relocate_result (at_loc : loc) (r : result value) : result value :=
  match r with
  | Ok x => Ok x
  | ValidationError es => ValidationError (map (relocate at_loc) es)
  end.

(** The rule [None] violates under an annotation; none under [Optional]. *)
Definition null_rule (t : ftype) : option error_type :=
  match t with
  | TStr _ _ => Some string_type
  | TInt => Some int_type
  | TFloat => Some float_type
  | TBool => Some bool_type
  | TOptional _ => None
  | TList _ => Some list_type
  | TModel _ => Some model_type
  end.

(** What a field is given when its key is absent. *)
Definition default_value (now : string) (dflt : default) : option value :=
  match dflt with
  | Required => None
  | Default v => Some v
  | DefaultFactory factory => Some (factory now)
  end.

(** A validated value given back as an input: a record as the mapping of
    its fields. *)
Fixpoint dump (x : value) : raw :=
  match x with
  | VNone => RNone
  | VBool b => RBool b
  | VInt i => RInt i
  | VFloat f => RFloat f
  | VStr s => RStr s
  | VList items => RList (map dump items)
  | VModel fields => RDict (map (fun nv => (fst nv, dump (snd nv))) fields)
  end.

Definition dump_fields (fields : list (string * value)) : dict :=
  map (fun nv => (fst nv, dump (snd nv))) fields.

(** Whether no string occurs twice. *)
Fixpoint distinct (names : list string) : bool :=
  match names with
  | [] => true
  | x :: names' => negb (existsb (String.eqb x) names') && distinct names'
  end.

(** The default of a field is a value of the field's annotation. *)
Definition default_fits (now : string) (f : field) : Prop :=
  match f with
  | Field _ annotation dflt =>
      match default_value now dflt with
      | Some dv => validate now annotation [] (dump dv) = Ok dv
      | None => True
      end
  end.

(** A declaration is consistent when, at every level, no name is declared
    twice and every default fits its annotation. *)
Fixpoint consistent (now : string) (t : ftype) : Prop :=
  match t with
  | TOptional t' => consistent now t'
  | TList t' => consistent now t'
  | TModel fields =>
      NoDup (map field_name fields)
      /\ (fix each (fs : list field) : Prop :=
            match fs with
            | [] => True
            | f :: fs' =>
                (consistent now (match f with Field _ annotation _ => annotation end)
                 /\ default_fits now f)
                /\ each fs'
            end) fields
  | _ => True
  end.

(** ** What is violated

    The violations of an input, read off the declaration alone: a value
    violates an annotation by what the annotation's own rule says of it
    (a scalar), by not being a list or a mapping where one is declared, by
    lacking a key that has no default, or by holding a violation inside an
    item or under a key.  Each violation is the line it is reported with,
    located from the value. *)
Definition is_scalar (t : ftype) : bool :=
  match t with
  | TStr _ _ | TInt | TFloat | TBool => true
  | TOptional _ | TList _ | TModel _ => false
  end.

Inductive violation (now : string) : ftype -> raw -> line_error -> Prop :=
| violation_scalar t v e :
    is_scalar t = true ->
    In e (errors_of (validate now t [] v)) ->
    violation now t v e
| violation_optional t v e :
    v <> RNone ->
    violation now t v e ->
    violation now (TOptional t) v e
| violation_no_list t v :
    (forall items, v <> RList items) ->
    violation now (TList t) v (LineError [] list_type v)
| violation_item t items index x e :
    nth_error items index = Some x ->
    violation now t x e ->
    violation now (TList t) (RList items) (relocate [LIndex index] e)
| violation_no_mapping fields v :
    (forall d, v <> RDict d) ->
    violation now (TModel fields) v (LineError [] model_type v)
| violation_missing fields d name t :
    In (Field name t Required) fields ->
    dict_get d name = None ->
    violation now (TModel fields) (RDict d) (LineError [LField name] missing (RDict d))
| violation_field fields d name t dflt v e :
    In (Field name t dflt) fields ->
    dict_get d name = Some v ->
    violation now t v e ->
    violation now (TModel fields) (RDict d) (relocate [LField name] e).

(** ** Characters of numbers *)

Fixpoint all_chars (p : ascii -> bool) (s : string) : bool :=
  match s with
  | EmptyString => true
  | String c s' => p c && all_chars p s'
  end.

Definition is_digit (c : ascii) : bool :=
  match digit_of c with
  | Some _ => true
  | None => false
  end.

(** The characters the text of an integer can hold: digits, signs, the
    point, the underscore, white space around it. *)
Definition int_char (c : ascii) : bool :=
  is_digit c || Ascii.eqb c "+" || Ascii.eqb c "-" || Ascii.eqb c "."
  || Ascii.eqb c "_" || is_whitespace c.

(** The characters the text of a float can hold: those of an integer, the
    exponent mark and the letters of [inf], [infinity] and [nan], in
    either case. *)
Definition float_char (c : ascii) : bool :=
  int_char c
  || existsb (Ascii.eqb (lower c)) ["e"; "i"; "n"; "f"; "t"; "y"; "a"]%char.

(** The text before the first point, and the text after it, if there is
    a point. *)
Fixpoint before_point (s : string) : string :=
  match s with
  | EmptyString => EmptyString
  | String c s' => if Ascii.eqb c "." then EmptyString else String c (before_point s')
  end.

Fixpoint after_point (s : string) : option string :=
  match s with
  | EmptyString => None
  | String c s' => if Ascii.eqb c "." then Some s' else after_point s'
  end.

(** No point, or a point followed by one zero or more and nothing else. *)
Definition fraction_of_zeros (s : string) : bool :=
  match after_point s with
  | None => true
  | Some zs => negb (String.eqb zs "") && all_zeros zs
  end.

(** The number the digits of [s] denote, the other characters passed
    over. *)
Fixpoint digits_number (acc : Z) (s : string) : Z :=
  match s with
  | EmptyString => acc
  | String c s' =>
      match digit_of c with
      | Some d => digits_number (10 * acc + d) s'
      | None => digits_number acc s'
      end
  end.

(** Whether the character occurs in the string. *)
Fixpoint occurs (c : ascii) (s : string) : bool :=
  match s with
  | EmptyString => false
  | String x s' => Ascii.eqb x c || occurs c s'
  end.

(** The text of the whole number [n]: made of the characters of an
    integer, with a digit, with no fraction but zeros, and [n] is what the
    digits before the point denote. *)
Definition number_text (s : string) (n : Z) : Prop :=
  all_chars int_char s = true
  /\ has_digit s = true
  /\ fraction_of_zeros s = true
  /\ n = digits_number 0 (before_point s).

(** ** Inputs that differ under one key *)

Definition agree_except (key : string) (d d' : dict) : Prop :=
  forall name, name <> key -> dict_get d' name = dict_get d name.

(** Two sources that differ at most by the integers they give as [id]. *)
Definition same_source_but_id (item item' : raw) : Prop :=
  exists entry entry' i j,
    item = RDict entry /\ item' = RDict entry'
    /\ dict_get entry "id" = Some (RInt i)
    /\ dict_get entry' "id" = Some (RInt j)
    /\ agree_except "id" entry entry'.

(** A turn of a conversation, as a pair of a role and a content. *)
Definition raw_message (m : string * string) : raw :=
  RDict [("role", RStr (fst m)); ("content", RStr (snd m))].

Definition chat_message (m : string * string) : value :=
  VModel [("role", VStr (fst m)); ("content", VStr (snd m))].

(** * Properties *)

(** ** Induction on annotations

    The induction principle Rocq derives for [ftype] says nothing of the
    fields of a [TModel]; this one does. *)
Lemma ftype_nested_ind (P : ftype -> Prop) :
  (forall min_length pattern, P (TStr min_length pattern)) ->
  P TInt -> P TFloat -> P TBool ->
  (forall t, P t -> P (TOptional t)) ->
  (forall t, P t -> P (TList t)) ->
  (forall fields, Forall (fun f => P (field_annotation f)) fields -> P (TModel fields)) ->
  forall t, P t.
Proof.
  intros Hstr Hint Hfloat Hbool Hopt Hlist Hmodel.
  fix IH 1.
  intros [min_length pattern | | | | t | t | fields].
  - apply Hstr.
  - exact Hint.
  - exact Hfloat.
  - exact Hbool.
  - apply Hopt, IH.
  - apply Hlist, IH.
  - apply Hmodel.
    induction fields as [|[name annotation dflt] fields IHfields].
    + constructor.
    + constructor; [apply IH | exact IHfields].
Qed.

(** ** The two loops *)

Lemma finish_ok_iff {A : Type} (build : A -> value) (p : A * list line_error) (x : value) :
  finish build p = Ok x <-> snd p = [] /\ x = build (fst p).
Proof.
  unfold finish. destruct (snd p) as [|e es]; split.
  - intros H. injection H as <-. split; reflexivity.
  - intros [_ ->]. reflexivity.
  - discriminate.
  - intros [H _]. discriminate.
Qed.

Lemma errors_of_finish {A : Type} (build : A -> value) (p : A * list line_error) :
  errors_of (finish build p) = snd p.
Proof. unfold finish. destruct (snd p); reflexivity. Qed.

Lemma finish_error_nonempty {A : Type} (build : A -> value) (p : A * list line_error) es :
  finish build p = ValidationError es -> es <> [].
Proof. unfold finish. destruct (snd p); [discriminate|]. intros H. injection H as <-. discriminate. Qed.

Section LoopFacts.
Variable check : ftype -> loc -> raw -> result value.
Variable now : string.

(** The lines of a model are the lines of its fields, in order. *)
Lemma validate_fields_errors d at_loc fields :
  snd (validate_fields check now d at_loc fields)
  = flat_map (fun f => errors_of (validate_field check now d at_loc f)) fields.
Proof.
  induction fields as [|f fields IH]; [reflexivity|].
  simpl. destruct (validate_fields check now d at_loc fields) as [vs es].
  simpl in IH. subst es.
  destruct (validate_field check now d at_loc f); reflexivity.
Qed.

(** The lines of a list are the lines of its items, each validated
    under its index. *)
Lemma validate_items_errors t at_loc index items e :
  In e (snd (validate_items check t at_loc index items)) ->
  exists i x, nth_error items i = Some x
              /\ In e (errors_of (check t (at_loc ++ [LIndex (index + i)]) x)).
Proof.
  revert index. induction items as [|x items IH]; intros index; [intros []|].
  simpl. destruct (validate_items check t at_loc (S index) items) as [vs es] eqn:E.
  specialize (IH (S index)). rewrite E in IH. simpl in IH.
  assert (Htail : In e es -> exists i y, nth_error (x :: items) i = Some y
            /\ In e (errors_of (check t (at_loc ++ [LIndex (index + i)]) y))).
  { intros H. destruct (IH H) as (i & y & Hy & He).
    exists (S i), y. split; [exact Hy|].
    replace (index + S i) with (S index + i) by lia. exact He. }
  destruct (check t (at_loc ++ [LIndex index]) x) as [v|es'] eqn:Ex; simpl.
  - exact Htail.
  - intros H. apply in_app_or in H as [H|H]; [|exact (Htail H)].
    exists 0, x. split; [reflexivity|].
    rewrite Nat.add_0_r, Ex. exact H.
Qed.
End LoopFacts.

(** ** Lines of scalar validators: at the place asked, about the value given *)

Lemma check_pattern_line pattern at_loc s e :
  In e (errors_of (check_pattern pattern at_loc s)) ->
  e = LineError at_loc string_pattern_mismatch (RStr s).
Proof.
  unfold check_pattern. destruct pattern as [r|]; [|intros []].
  destruct (is_match r s); [intros []|].
  intros [<-|[]]. reflexivity.
Qed.

Lemma validate_str_line min_length pattern at_loc v e :
  In e (errors_of (validate_str min_length pattern at_loc v)) ->
  err_loc e = at_loc /\ err_input e = v.
Proof.
  unfold validate_str.
  destruct v; try (intros [<-|[]]; split; reflexivity).
  destruct min_length as [n|].
  - destruct (Nat.ltb (String.length s) n).
    + intros [<-|[]]; split; reflexivity.
    + intros H. apply check_pattern_line in H as ->. split; reflexivity.
  - intros H. apply check_pattern_line in H as ->. split; reflexivity.
Qed.

Lemma validate_int_line at_loc v e :
  In e (errors_of (validate_int at_loc v)) -> err_loc e = at_loc /\ err_input e = v.
Proof.
  unfold validate_int.
  destruct v; try (intros [<-|[]]; split; reflexivity); try (intros []).
  - destruct (float_as_int f); [intros [<-|[]]; split; reflexivity | intros []].
  - destruct (str_as_int s); [intros [<-|[]]; split; reflexivity | intros []].
Qed.

Lemma validate_float_line at_loc v e :
  In e (errors_of (validate_float at_loc v)) -> err_loc e = at_loc /\ err_input e = v.
Proof.
  unfold validate_float.
  destruct v; try (intros [<-|[]]; split; reflexivity); try (intros []).
  - destruct (int_as_float i); [intros [] | intros [<-|[]]; split; reflexivity].
  - destruct (str_as_float s); [intros [] | intros [<-|[]]; split; reflexivity].
Qed.

Lemma validate_bool_line at_loc v e :
  In e (errors_of (validate_bool at_loc v)) -> err_loc e = at_loc /\ err_input e = v.
Proof.
  unfold validate_bool.
  destruct v; try (intros [<-|[]]; split; reflexivity); try (intros []).
  - destruct (Z.leb (- 2 ^ 63) i && Z.ltb i (2 ^ 63)).
    + destruct (int_as_bool i); [intros [] | intros [<-|[]]; split; reflexivity].
    + intros [<-|[]]; split; reflexivity.
  - destruct (float_as_int f) as [rule|i].
    + intros [<-|[]]; split; reflexivity.
    + destruct (int_as_bool i); [intros [] | intros [<-|[]]; split; reflexivity].
  - destruct (str_as_bool s); [intros [] | intros [<-|[]]; split; reflexivity].
Qed.

Lemma located_here at_loc v e :
  err_loc e = at_loc /\ err_input e = v -> located at_loc v e.
Proof.
  intros [Hloc Hin]. exists []. split.
  - rewrite app_nil_r. exact Hloc.
  - left. simpl. rewrite Hin. reflexivity.
Qed.

(** A line found below an item or a field is a line of the list or of the
    mapping, one step further down. *)
Lemma located_below at_loc step v v' e :
  raw_at v [step] = Some v' ->
  located (at_loc ++ [step]) v' e -> located at_loc v e.
Proof.
  intros Hstep (path & Hloc & Hrep).
  assert (Hat : forall p, raw_at v (step :: p) = raw_at v' p).
  { intros p. simpl in *. destruct step as [name|index].
    - destruct v; try discriminate. destruct (dict_get entries name); [|discriminate].
      injection Hstep as ->. reflexivity.
    - destruct v; try discriminate. destruct (nth_error items index); [|discriminate].
      injection Hstep as ->. reflexivity. }
  exists (step :: path). split.
  - rewrite Hloc, <- app_assoc. reflexivity.
  - destruct Hrep as [Hrep|(Hmiss & Hnone & parent & name & Hpath & Hparent)].
    + left. rewrite Hat. exact Hrep.
    + right. split; [exact Hmiss|]. split; [rewrite Hat; exact Hnone|].
      exists (step :: parent), name. split.
      * rewrite Hpath. reflexivity.
      * rewrite Hat. exact Hparent.
Qed.

(** Every line [validate] returns is located below the place asked and
    reports what the input holds there. *)
Lemma validate_located now t :
  forall at_loc v e, In e (errors_of (validate now t at_loc v)) -> located at_loc v e.
Proof.
  induction t as [min_length pattern | | | | t IH | t IH | fields IH] using ftype_nested_ind;
    intros at_loc v e He; simpl in He.
  - apply located_here, (validate_str_line _ _ _ _ _ He).
  - apply located_here, (validate_int_line _ _ _ He).
  - apply located_here, (validate_float_line _ _ _ He).
  - apply located_here, (validate_bool_line _ _ _ He).
  - destruct v; try (apply IH; exact He). destruct He.
  - destruct v; try (destruct He as [<-|[]]; apply located_here; split; reflexivity).
    rewrite errors_of_finish in He.
    apply validate_items_errors in He as (i & x & Hx & He).
    apply (located_below at_loc (LIndex i) (RList items) x).
    + simpl. rewrite Hx. reflexivity.
    + apply IH. exact He.
  - destruct v; try (destruct He as [<-|[]]; apply located_here; split; reflexivity).
    rewrite errors_of_finish, validate_fields_errors in He.
    apply in_flat_map in He as (f & Hf & He).
    rewrite Forall_forall in IH. specialize (IH f Hf).
    destruct f as [name annotation dflt]. simpl in He, IH.
    destruct (dict_get entries name) as [v'|] eqn:Hget.
    + apply (located_below at_loc (LField name) (RDict entries) v').
      * simpl. rewrite Hget. reflexivity.
      * apply IH. exact He.
    + destruct dflt as [|x|factory]; [|destruct He|destruct He].
      destruct He as [<-|[]].
      exists [LField name]. split; [reflexivity|].
      right. split; [reflexivity|]. simpl. rewrite Hget. split; [reflexivity|].
      exists [], name. split; reflexivity.
Qed.

(** [validate] never fails without a line. *)
Lemma validate_error_nonempty now t :
  forall at_loc v es, validate now t at_loc v = ValidationError es -> es <> [].
Proof.
  induction t as [min_length pattern | | | | t IH | t IH | fields IH] using ftype_nested_ind;
    intros at_loc v es H; simpl in H.
  - unfold validate_str, check_pattern, fail in H.
    destruct v; try (injection H as <-; discriminate).
    destruct min_length as [n|]; [destruct (Nat.ltb (String.length s) n)|];
      try (injection H as <-; discriminate);
      (destruct pattern as [r|]; [destruct (is_match r s)|]);
      try discriminate; injection H as <-; discriminate.
  - unfold validate_int, fail in H.
    destruct v; try discriminate; try (injection H as <-; discriminate).
    + destruct (float_as_int f); [injection H as <-|]; discriminate.
    + destruct (str_as_int s); [injection H as <-|]; discriminate.
  - unfold validate_float, fail in H.
    destruct v; try discriminate; try (injection H as <-; discriminate).
    + destruct (int_as_float i); [|injection H as <-]; discriminate.
    + destruct (str_as_float s); [|injection H as <-]; discriminate.
  - unfold validate_bool, fail in H.
    destruct v; try discriminate; try (injection H as <-; discriminate).
    + destruct (Z.leb (- 2 ^ 63) i && Z.ltb i (2 ^ 63));
        [destruct (int_as_bool i)|]; try discriminate; injection H as <-; discriminate.
    + destruct (float_as_int f) as [rule|i]; [|destruct (int_as_bool i)];
        try discriminate; injection H as <-; discriminate.
    + destruct (str_as_bool s); [|injection H as <-]; discriminate.
  - destruct v; try (apply (IH _ _ _ H)). discriminate.
  - destruct v; try (injection H as <-; discriminate).
    apply (finish_error_nonempty _ _ _ H).
  - destruct v; try (injection H as <-; discriminate).
    apply (finish_error_nonempty _ _ _ H).
Qed.

(** ** A class as a whole *)

Lemma validate_model_unfold now m d :
  validate_model now m d = finish VModel (validate_fields (validate now) now d [] m).
Proof. reflexivity. Qed.

Lemma validate_model_errors now m d :
  errors_of (validate_model now m d) = flat_map (field_errors now d) m.
Proof.
  rewrite validate_model_unfold, errors_of_finish. apply validate_fields_errors.
Qed.

Lemma validate_field_error_nonempty now d at_loc f es :
  validate_field (validate now) now d at_loc f = ValidationError es -> es <> [].
Proof.
  destruct f as [name annotation dflt]. simpl.
  destruct (dict_get d name).
  - apply validate_error_nonempty.
  - destruct dflt; try discriminate. intros H. injection H as <-. discriminate.
Qed.

(** The lines of a field start with the field's name. *)
Lemma field_errors_loc now d f e :
  In e (field_errors now d f) -> exists path, err_loc e = LField (field_name f) :: path.
Proof.
  unfold field_errors. destruct f as [name annotation dflt]. simpl.
  destruct (dict_get d name) as [v|].
  - intros H. apply validate_located in H as (path & Hloc & _).
    exists path. exact Hloc.
  - destruct dflt as [|x|factory]; [|intros []|intros []].
    intros [<-|[]]. exists []. reflexivity.
Qed.

(** A record holds every declared field, in declaration order, and no
    other. *)
Lemma validate_fields_names now d at_loc fields :
  snd (validate_fields (validate now) now d at_loc fields) = [] ->
  map fst (fst (validate_fields (validate now) now d at_loc fields)) = map field_name fields.
Proof.
  induction fields as [|f fields IH]; [reflexivity|].
  simpl. destruct (validate_fields (validate now) now d at_loc fields) as [vs es].
  simpl in IH.
  destruct (validate_field (validate now) now d at_loc f) as [v|es'] eqn:Ef; simpl.
  - intros H. rewrite (IH H). reflexivity.
  - intros H. apply app_eq_nil in H as [H _].
    apply validate_field_error_nonempty in Ef. contradiction.
Qed.

Lemma validate_model_ok_names now m d r :
  validate_model now m d = Ok r ->
  exists fields, r = VModel fields /\ map fst fields = map field_name m.
Proof.
  rewrite validate_model_unfold. intros H. apply finish_ok_iff in H as [Hnil ->].
  eexists. split; [reflexivity|]. apply validate_fields_names, Hnil.
Qed.

Lemma get_field_absent fields name :
  ~ In name (map fst fields) -> get_field fields name = None.
Proof.
  induction fields as [|[k v] fields IH]; [reflexivity|].
  simpl. intros H. destruct (String.eqb_spec k name) as [->|Hk].
  - exfalso. apply H. left. reflexivity.
  - apply IH. intros Hin. apply H. right. exact Hin.
Qed.

(** ** Inputs that agree on the declared names *)

Lemma validate_field_agree (check : ftype -> loc -> raw -> result value) now d d' at_loc f :
  dict_get d' (field_name f) = dict_get d (field_name f) ->
  value_of (validate_field check now d' at_loc f) = value_of (validate_field check now d at_loc f)
  /\ map line_key (errors_of (validate_field check now d' at_loc f))
     = map line_key (errors_of (validate_field check now d at_loc f)).
Proof.
  destruct f as [name annotation dflt]. simpl. intros ->.
  destruct (dict_get d name); [split; reflexivity|].
  destruct dflt; split; reflexivity.
Qed.

Lemma validate_fields_agree (check : ftype -> loc -> raw -> result value) now d d' at_loc fields :
  (forall f, In f fields -> dict_get d' (field_name f) = dict_get d (field_name f)) ->
  fst (validate_fields check now d' at_loc fields) = fst (validate_fields check now d at_loc fields)
  /\ map line_key (snd (validate_fields check now d' at_loc fields))
     = map line_key (snd (validate_fields check now d at_loc fields)).
Proof.
  induction fields as [|f fields IH]; intros Hagree; [split; reflexivity|].
  simpl.
  destruct (validate_fields check now d' at_loc fields) as [vs' es'].
  destruct (validate_fields check now d at_loc fields) as [vs es].
  destruct IH as [IHv IHe]; [intros g Hg; apply Hagree; right; exact Hg|].
  simpl in IHv, IHe. subst vs'.
  destruct (validate_field_agree check now d d' at_loc f) as [Hv He];
    [apply Hagree; left; reflexivity|].
  destruct (validate_field check now d' at_loc f) as [x'|fe'];
    destruct (validate_field check now d at_loc f) as [x|fe];
    simpl in Hv, He; try discriminate.
  - injection Hv as ->. split; [reflexivity|exact IHe].
  - split; [reflexivity|]. simpl. rewrite !map_app, He, IHe. reflexivity.
Qed.

Lemma validate_model_agree now m d d' :
  (forall f, In f m -> dict_get d' (field_name f) = dict_get d (field_name f)) ->
  value_of (validate_model now m d') = value_of (validate_model now m d)
  /\ map line_key (errors_of (validate_model now m d'))
     = map line_key (errors_of (validate_model now m d)).
Proof.
  intros Hagree. rewrite !validate_model_unfold.
  destruct (validate_fields_agree (validate now) now d d' [] m Hagree) as [Hv He].
  unfold finish.
  destruct (validate_fields (validate now) now d' [] m) as [vs' es'].
  destruct (validate_fields (validate now) now d [] m) as [vs es].
  simpl in *. subst vs'.
  destruct es' as [|e' es']; destruct es as [|e es]; try discriminate; simpl.
  - split; reflexivity.
  - split; [reflexivity|exact He].
Qed.

Lemma dict_get_extra d1 d2 k v name :
  name <> k -> dict_get (d1 ++ (k, v) :: d2) name = dict_get (d1 ++ d2) name.
Proof.
  intros Hk. induction d1 as [|[k1 v1] d1 IH]; simpl.
  - destruct (String.eqb_spec k name) as [->|_]; [contradiction|reflexivity].
  - rewrite IH. reflexivity.
Qed.

(** ** The claims *)

(** C10.  Whatever the class, a key of the input that names no declared
    field is not read: with or without it validation returns the same
    record, or fails at the same places for the same rules; the record
    holds the declared names and nothing under the extra key. *)
Theorem unknown_fields_are_ignored now (m : model) (d1 d2 : dict) (k : string) (v : raw) :
  ~ In k (map field_name m) ->
  value_of (validate_model now m (d1 ++ (k, v) :: d2))
  = value_of (validate_model now m (d1 ++ d2))
  /\ map line_key (errors_of (validate_model now m (d1 ++ (k, v) :: d2)))
     = map line_key (errors_of (validate_model now m (d1 ++ d2)))
  /\ (forall r, validate_model now m (d1 ++ d2) = Ok r ->
        validate_model now m (d1 ++ (k, v) :: d2) = Ok r)
  /\ (forall r, validate_model now m (d1 ++ (k, v) :: d2) = Ok r ->
        exists fields, r = VModel fields
                       /\ map fst fields = map field_name m
                       /\ get_field fields k = None).
Proof.
  intros Hk.
  assert (Hagree : forall f, In f m ->
            dict_get (d1 ++ (k, v) :: d2) (field_name f) = dict_get (d1 ++ d2) (field_name f)).
  { intros f Hf. apply dict_get_extra. intros <-. apply Hk, in_map, Hf. }
  destruct (validate_model_agree now m _ _ Hagree) as [Hv He].
  split; [exact Hv|]. split; [exact He|]. split.
  - intros r Hr. rewrite Hr in Hv. simpl in Hv.
    destruct (validate_model now m (d1 ++ (k, v) :: d2)); [|discriminate].
    injection Hv as ->. reflexivity.
  - intros r Hr. destruct (validate_model_ok_names _ _ _ _ Hr) as (fields & -> & Hnames).
    exists fields. split; [reflexivity|]. split; [exact Hnames|].
    apply get_field_absent. rewrite Hnames. exact Hk.
Qed.

(** A health report with a key [debug] the class does not declare. *)
Lemma unknown_fields_are_ignored_witness :
  validate_model sample_now HealthResponse
    ([("status", RStr "ok"); ("qdrant_connected", RBool true)]
     ++ ("debug", RInt 1)
     :: [("openai_configured", RBool true); ("cohere_configured", RBool false)])
  = Ok (VModel [("status", VStr "ok"); ("qdrant_connected", VBool true);
                ("openai_configured", VBool true); ("cohere_configured", VBool false);
                ("timestamp", VStr sample_now)]).
Proof.
  apply (unknown_fields_are_ignored sample_now HealthResponse).
  - simpl. intros [H|[H|[H|[H|[H|[]]]]]]; discriminate H.
  - reflexivity.
Defined.

(** ** The pattern of [role] *)

Lemma strip_prefix_spec p : forall s s', strip_prefix p s = Some s' <-> s = (p ++ s')%string.
Proof.
  induction p as [|c p IH]; intros s s'; simpl.
  - split; [intros H; injection H as ->; reflexivity | intros ->; reflexivity].
  - destruct s as [|c' s]; [split; discriminate|].
    destruct (Ascii.eqb_spec c c') as [->|Hc].
    + rewrite IH. split; [intros ->; reflexivity | intros H; injection H as ->; reflexivity].
    + split; [discriminate|]. intros H. injection H as -> _. contradiction.
Qed.

(** [^] fails after the first character, so the search can only succeed at
    offset 0. *)
Lemma search_role_pattern_later s : forall pos, search role_pattern (S pos) s = false.
Proof.
  induction s as [|c s IH]; intros pos; simpl; [reflexivity|]. apply IH.
Qed.

Lemma is_match_role_pattern s :
  is_match role_pattern s = true <-> s = "user" \/ s = "assistant".
Proof.
  unfold is_match.
  assert (Hsearch : search role_pattern 0 s = matches_here role_pattern 0 s).
  { destruct s as [|c s]; cbn [search]; [apply orb_false_r|].
    rewrite search_role_pattern_later. apply orb_false_r. }
  rewrite Hsearch. unfold matches_here, role_pattern.
  cbn [match_at flat_map fst snd Nat.eqb app].
  rewrite app_nil_r.
  destruct (strip_prefix "user" s) as [s1|] eqn:E1;
    destruct (strip_prefix "assistant" s) as [s2|] eqn:E2;
    try apply strip_prefix_spec in E1; try apply strip_prefix_spec in E2.
  - subst s. discriminate E2.
  - subst s. destruct s1; cbn; split; auto; try discriminate.
    intros [H|H]; discriminate H.
  - subst s. destruct s2; cbn; split; auto; try discriminate.
    intros [H|H]; discriminate H.
  - cbn. split; [discriminate|].
    intros [-> | ->]; discriminate.
Qed.

(** The role field on its own, and a plain [str]. *)
Lemma validate_role now at_loc v :
  validate now (TStr None (Some role_pattern)) at_loc v
  = match v with
    | RStr s =>
        if is_match role_pattern s then Ok (VStr s)
        else fail at_loc string_pattern_mismatch v
    | _ => fail at_loc string_type v
    end.
Proof. destruct v; reflexivity. Qed.

Lemma validate_plain_str now at_loc v :
  validate now str at_loc v
  = match v with
    | RStr s => Ok (VStr s)
    | _ => fail at_loc string_type v
    end.
Proof. destruct v; reflexivity. Qed.

Lemma role_pattern_decides s :
  is_match role_pattern s = (String.eqb s "user" || String.eqb s "assistant").
Proof.
  destruct (is_match role_pattern s) eqn:Em.
  - apply is_match_role_pattern in Em as [-> | ->]; reflexivity.
  - symmetry. apply orb_false_iff.
    split; apply String.eqb_neq; intros ->;
      (assert (Hm : is_match role_pattern "user" = true
                    /\ is_match role_pattern "assistant" = true)
         by (split; reflexivity));
      destruct Hm; congruence.
Qed.

(** ** Fields one at a time *)

(** The record of a class is made of the values of its fields: validation
    succeeds exactly when every field does. *)
Lemma validate_fields_ok now d fields :
  forall vs, validate_fields (validate now) now d [] fields = (vs, [])
             <-> Forall2 (field_gives now d) fields vs.
Proof.
  induction fields as [|f fields IH]; intros vs; simpl.
  - split.
    + intros H. injection H as <-. constructor.
    + intros H. inversion H. reflexivity.
  - destruct (validate_fields (validate now) now d [] fields) as [vs' es'].
    destruct (validate_field (validate now) now d [] f) as [x|es] eqn:Ef.
    + split.
      * intros H. injection H as <- ->. constructor; [split; [reflexivity|exact Ef]|].
        apply IH. reflexivity.
      * intros H. inversion H as [|f' [n y] fields' vs'' [Hn Hy] Hrest]; subst.
        simpl in Hn, Hy. rewrite Ef in Hy. injection Hy as <-. subst n.
        apply IH in Hrest. injection Hrest as <- <-. reflexivity.
    + split.
      * intros H. injection H as _ H. apply app_eq_nil in H as [H _].
        apply validate_field_error_nonempty in Ef. contradiction.
      * intros H. inversion H as [|f' nv fields' vs'' [_ Hy] _]; subst.
        rewrite Ef in Hy. discriminate Hy.
Qed.

Lemma validate_model_ok now m d r :
  validate_model now m d = Ok r
  <-> exists fields, r = VModel fields /\ Forall2 (field_gives now d) m fields.
Proof.
  rewrite validate_model_unfold, finish_ok_iff.
  destruct (validate_fields (validate now) now d [] m) as [vs es] eqn:E. simpl. split.
  - intros [-> ->]. exists vs. split; [reflexivity|]. apply validate_fields_ok, E.
  - intros (fields & -> & H). apply validate_fields_ok in H. rewrite E in H.
    injection H as <- <-. split; reflexivity.
Qed.

Lemma str_field_ok now d name x :
  validate_field (validate now) now d [] (Field name str Required) = Ok x
  <-> exists c, dict_get d name = Some (RStr c) /\ x = VStr c.
Proof.
  cbn [validate_field]. destruct (dict_get d name) as [v|].
  - rewrite validate_plain_str. destruct v; split;
      try discriminate; try (intros (c & H & _); discriminate H).
    + intros H. injection H as <-. exists s. split; reflexivity.
    + intros (c & H & ->). injection H as ->. reflexivity.
  - split; [discriminate|]. intros (c & H & _). discriminate H.
Qed.

Lemma str_field_errors now d name e :
  In e (field_errors now d (Field name str Required)) -> err_loc e = [LField name].
Proof.
  unfold field_errors. cbn [validate_field]. destruct (dict_get d name) as [v|].
  - rewrite validate_plain_str. destruct v; try (intros [<-|[]]; reflexivity). intros [].
  - intros [<-|[]]. reflexivity.
Qed.

Lemma role_field_ok now d x :
  validate_field (validate now) now d [] (Field "role" (TStr None (Some role_pattern)) Required)
  = Ok x
  <-> exists s, dict_get d "role" = Some (RStr s) /\ (s = "user" \/ s = "assistant")
                /\ x = VStr s.
Proof.
  cbn [validate_field]. destruct (dict_get d "role") as [v|].
  - rewrite validate_role. destruct v; split;
      try discriminate; try (intros (c & H & _); discriminate H).
    + destruct (is_match role_pattern s) eqn:Em; [|discriminate].
      intros H. injection H as <-. exists s.
      split; [reflexivity|]. split; [apply is_match_role_pattern, Em|reflexivity].
    + intros (c & H & Hc & ->). injection H as ->.
      apply is_match_role_pattern in Hc. rewrite Hc. reflexivity.
  - split; [discriminate|]. intros (c & H & _). discriminate H.
Qed.

Lemma role_field_errors now d e :
  In e (field_errors now d (Field "role" (TStr None (Some role_pattern)) Required)) ->
  err_loc e = [LField "role"].
Proof.
  unfold field_errors. cbn [validate_field]. destruct (dict_get d "role") as [v|].
  - rewrite validate_role. destruct v; try (intros [<-|[]]; reflexivity).
    destruct (is_match role_pattern s); [intros []|]. intros [<-|[]]. reflexivity.
  - intros [<-|[]]. reflexivity.
Qed.

(** C4.  [ChatMessage] accepts a role exactly when it is the string [user]
    or the string [assistant]: an input validates if and only if its role
    is one of the two and its content is a string; the record then holds
    the role as given, so no other value is replaced by a default; any
    other role, or none, gives a line located at [role].  The two inputs
    of the specification behave as it says. *)
Theorem role_is_user_or_assistant now (d : dict) :
  ((exists r, validate_model now ChatMessage d = Ok r)
   <-> (dict_get d "role" = Some (RStr "user") \/ dict_get d "role" = Some (RStr "assistant"))
       /\ exists c, dict_get d "content" = Some (RStr c))
  /\ ((exists e, In e (errors_of (validate_model now ChatMessage d))
                 /\ err_loc e = [LField "role"])
      <-> ~ (dict_get d "role" = Some (RStr "user")
             \/ dict_get d "role" = Some (RStr "assistant")))
  /\ (forall r, validate_model now ChatMessage d = Ok r ->
        exists role c,
          r = VModel [("role", VStr role); ("content", VStr c)]
          /\ dict_get d "role" = Some (RStr role)
          /\ (role = "user" \/ role = "assistant"))
  /\ validate_model now ChatMessage [("role", RStr "user"); ("content", RStr "hi")]
     = Ok (VModel [("role", VStr "user"); ("content", VStr "hi")])
  /\ validate_model now ChatMessage [("role", RStr "moderator"); ("content", RStr "hi")]
     = ValidationError
         [LineError [LField "role"] string_pattern_mismatch (RStr "moderator")].
Proof.
  assert (Hrecord : forall r, validate_model now ChatMessage d = Ok r ->
            exists role c,
              r = VModel [("role", VStr role); ("content", VStr c)]
              /\ dict_get d "role" = Some (RStr role)
              /\ (role = "user" \/ role = "assistant")
              /\ dict_get d "content" = Some (RStr c)).
  { intros r Hr. apply validate_model_ok in Hr as (fields & -> & Hall).
    inversion Hall as [|f1 [n1 x1] m1 vs1 [Hn1 Hx1] Hall1]; subst.
    inversion Hall1 as [|f2 [n2 x2] m2 vs2 [Hn2 Hx2] Hall2]; subst.
    inversion Hall2; subst. cbn [fst snd field_name] in *. subst n1 n2.
    apply role_field_ok in Hx1 as (s & Hs & Hlit & ->).
    apply str_field_ok in Hx2 as (c & Hc & ->).
    exists s, c. repeat split; assumption. }
  split; [|split; [|split; [|split; reflexivity]]].
  - split.
    + intros [r Hr]. destruct (Hrecord r Hr) as (role & c & _ & Hrole & Hlit & Hc).
      split; [|exists c; exact Hc].
      destruct Hlit as [-> | ->]; [left|right]; exact Hrole.
    + intros [Hrole [c Hc]].
      assert (Hs : exists s, dict_get d "role" = Some (RStr s) /\ (s = "user" \/ s = "assistant")).
      { destruct Hrole as [H|H]; eexists; (split; [exact H|]); [left|right]; reflexivity. }
      destruct Hs as (s & Hs & Hlit).
      exists (VModel [("role", VStr s); ("content", VStr c)]).
      apply validate_model_ok. eexists. split; [reflexivity|].
      constructor; [split; [reflexivity|]|constructor; [split; [reflexivity|]|constructor]].
      * apply role_field_ok. exists s. repeat split; assumption.
      * apply str_field_ok. exists c. split; [exact Hc|reflexivity].
  - rewrite validate_model_errors. cbn [ChatMessage flat_map]. rewrite app_nil_r. split.
    + intros (e & He & Hloc) Hrole.
      apply in_app_or in He as [He|He].
      * unfold field_errors in He.
        assert (Hok : exists x, validate_field (validate now) now d []
                        (Field "role" (TStr None (Some role_pattern)) Required) = Ok x).
        { destruct Hrole as [H|H]; eexists; apply role_field_ok; eexists;
            (split; [exact H|]); (split; [|reflexivity]); [left|right]; reflexivity. }
        destruct Hok as [x Hx]. rewrite Hx in He. destruct He.
      * apply str_field_errors in He. rewrite He in Hloc. discriminate Hloc.
    + intros Hrole.
      destruct (validate_field (validate now) now d []
                  (Field "role" (TStr None (Some role_pattern)) Required)) as [x|es] eqn:Ef.
      * exfalso. apply Hrole. apply role_field_ok in Ef as (s & Hs & Hlit & _).
        destruct Hlit as [-> | ->]; [left|right]; exact Hs.
      * destruct es as [|e es]; [apply validate_field_error_nonempty in Ef; contradiction|].
        exists e. unfold field_errors at 1. rewrite Ef. split; [left; reflexivity|].
        apply (role_field_errors now d). unfold field_errors. rewrite Ef. left. reflexivity.
  - intros r Hr. destruct (Hrecord r Hr) as (role & c & Heq & Hrole & Hlit & _).
    exists role, c. repeat split; assumption.
Qed.

Lemma text_field_ok now d name x :
  validate_field (validate now) now d [] (Field name (TStr (Some 1) None) Required) = Ok x
  <-> exists s, dict_get d name = Some (RStr s) /\ 1 <= String.length s /\ x = VStr s.
Proof.
  cbn [validate_field validate]. destruct (dict_get d name) as [v|].
  - destruct v; split; try discriminate; try (intros (c & H & _); discriminate H).
    + cbn [validate_str check_pattern].
      destruct (Nat.ltb_spec (String.length s) 1) as [Hlt|Hge]; [discriminate|].
      intros H. injection H as <-. exists s. repeat split. exact Hge.
    + intros (c & H & Hlen & ->). injection H as ->. cbn [validate_str check_pattern].
      destruct (Nat.ltb_spec (String.length c) 1) as [Hlt|Hge]; [lia|reflexivity].
  - split; [discriminate|]. intros (c & H & _). discriminate H.
Qed.

Lemma optional_str_field_ok now d name x :
  validate_field (validate now) now d [] (Field name (TOptional str) (Default VNone)) = Ok x
  <-> (dict_get d name = None /\ x = VNone)
      \/ (dict_get d name = Some RNone /\ x = VNone)
      \/ exists t, dict_get d name = Some (RStr t) /\ x = VStr t.
Proof.
  cbn [validate_field validate]. destruct (dict_get d name) as [v|].
  - destruct v; try rewrite validate_plain_str; split;
      try discriminate;
      try (intros [[H _]|[[H _]|(t & H & _)]]; discriminate H).
    + intros H. injection H as <-. right. left. split; reflexivity.
    + intros [[H _]|[[_ ->]|(t & H & _)]]; try discriminate H. reflexivity.
    + intros H. unfold str in H. cbn in H. injection H as <-.
      right. right. exists s. split; reflexivity.
    + intros [[H _]|[[H _]|(t & H & ->)]]; try discriminate H.
      injection H as ->. reflexivity.
  - split.
    + intros H. injection H as <-. left. split; reflexivity.
    + intros [[_ ->]|[[H _]|(t & H & _)]]; try discriminate H. reflexivity.
Qed.

(** C3, as amended.  [TextProcessRequest] validates if and only if the
    input holds a string of one character or more under [text] and, under
    [title], nothing, [None] or a string.  An empty [text] is reported at
    [text] with the rule of the minimum length 1, as for the input of the
    specification. *)
Theorem text_process_request_valid_iff now (d : dict) :
  ((exists r, validate_model now TextProcessRequest d = Ok r)
   <-> (exists s, dict_get d "text" = Some (RStr s) /\ 1 <= String.length s)
       /\ (dict_get d "title" = None
           \/ dict_get d "title" = Some RNone
           \/ exists t, dict_get d "title" = Some (RStr t)))
  /\ (dict_get d "text" = Some (RStr "") ->
      In (LineError [LField "text"] (string_too_short 1) (RStr ""))
         (errors_of (validate_model now TextProcessRequest d)))
  /\ validate_model now TextProcessRequest [("text", RStr ""); ("title", RStr "Doc")]
     = ValidationError [LineError [LField "text"] (string_too_short 1) (RStr "")].
Proof.
  split; [|split; [|reflexivity]].
  - split.
    + intros [r Hr]. apply validate_model_ok in Hr as (fields & -> & Hall).
      inversion Hall as [|f1 [n1 x1] m1 vs1 [Hn1 Hx1] Hall1]; subst.
      inversion Hall1 as [|f2 [n2 x2] m2 vs2 [Hn2 Hx2] Hall2]; subst.
      cbn [fst snd] in *.
      apply text_field_ok in Hx1 as (s & Hs & Hlen & _).
      apply optional_str_field_ok in Hx2.
      split; [exists s; split; assumption|].
      destruct Hx2 as [[H _]|[[H _]|(t & H & _)]];
        [left|right; left|right; right; exists t]; exact H.
    + intros [(s & Hs & Hlen) Htitle].
      assert (Hx : exists x, validate_field (validate now) now d []
                     (Field "title" (TOptional str) (Default VNone)) = Ok x).
      { destruct Htitle as [H|[H|[t H]]]; eexists; apply optional_str_field_ok;
          [left|right; left|right; right; exists t]; (split; [exact H|reflexivity]). }
      destruct Hx as [x Hx].
      exists (VModel [("text", VStr s); ("title", x)]).
      apply validate_model_ok. eexists. split; [reflexivity|].
      constructor; [split; [reflexivity|]|constructor; [split; [reflexivity|]|constructor]].
      * apply text_field_ok. exists s. repeat split; assumption.
      * exact Hx.
  - intros Htext. rewrite validate_model_errors. cbn [TextProcessRequest flat_map].
    apply in_or_app. left. unfold field_errors. cbn [validate_field]. rewrite Htext.
    left. reflexivity.
Qed.

(** C3 as stated fails: a text of one character with a number for a
    title is rejected. *)
Lemma text_process_request_title_counterexample :
  dict_get [("text", RStr "a"); ("title", RInt 5)] "text" = Some (RStr "a")
  /\ 1 <= String.length "a"
  /\ validate_model sample_now TextProcessRequest [("text", RStr "a"); ("title", RInt 5)]
     = ValidationError [LineError [LField "title"] string_type (RInt 5)].
Proof. split; [reflexivity|]. split; [apply le_n|reflexivity]. Qed.

(** ** Values of the scalar annotations *)

Lemma validate_int_value now at_loc v x :
  validate now TInt at_loc v = Ok x -> exists i, x = VInt i.
Proof.
  cbn [validate]. unfold validate_int.
  destruct v; try discriminate.
  - intros H. injection H as <-. eexists. reflexivity.
  - intros H. injection H as <-. eexists. reflexivity.
  - destruct (float_as_int f); [discriminate|]. intros H. injection H as <-. eexists. reflexivity.
  - destruct (str_as_int s); [discriminate|]. intros H. injection H as <-. eexists. reflexivity.
Qed.

Lemma validate_float_value now at_loc v x :
  validate now TFloat at_loc v = Ok x -> exists f, x = VFloat f.
Proof.
  cbn [validate]. unfold validate_float.
  destruct v; try discriminate.
  - intros H. injection H as <-. eexists. reflexivity.
  - destruct (int_as_float i); [|discriminate]. intros H. injection H as <-. eexists. reflexivity.
  - intros H. injection H as <-. eexists. reflexivity.
  - destruct (str_as_float s); [|discriminate]. intros H. injection H as <-. eexists. reflexivity.
Qed.

Lemma validate_bool_value now at_loc v x :
  validate now TBool at_loc v = Ok x -> exists b, x = VBool b.
Proof.
  cbn [validate]. unfold validate_bool.
  destruct v; try discriminate.
  - intros H. injection H as <-. eexists. reflexivity.
  - destruct (Z.leb (- 2 ^ 63) i && Z.ltb i (2 ^ 63)); [|discriminate].
    destruct (int_as_bool i); [|discriminate]. intros H. injection H as <-. eexists. reflexivity.
  - destruct (float_as_int f) as [rule|i]; [discriminate|].
    destruct (int_as_bool i); [|discriminate]. intros H. injection H as <-. eexists. reflexivity.
  - destruct (str_as_bool s); [|discriminate]. intros H. injection H as <-. eexists. reflexivity.
Qed.

Lemma validate_str_value now at_loc v x :
  validate now str at_loc v = Ok x -> exists s, x = VStr s.
Proof.
  rewrite validate_plain_str. destruct v; try discriminate.
  intros H. injection H as <-. eexists. reflexivity.
Qed.

Lemma validate_nonempty_str now at_loc s :
  1 <= String.length s -> validate now (TStr (Some 1) None) at_loc (RStr s) = Ok (VStr s).
Proof.
  intros Hlen. cbn [validate validate_str check_pattern].
  destruct (Nat.ltb_spec (String.length s) 1); [lia|reflexivity].
Qed.

Lemma required_field_ok now d name t x :
  validate_field (validate now) now d [] (Field name t Required) = Ok x
  <-> exists v, dict_get d name = Some v /\ validate now t [LField name] v = Ok x.
Proof.
  cbn [validate_field app]. destruct (dict_get d name) as [v|]; split.
  - intros H. exists v. split; [reflexivity|exact H].
  - intros (v' & H & Hv). injection H as ->. exact Hv.
  - discriminate.
  - intros (v' & H & _). discriminate H.
Qed.

Lemma default_field_ok now d name t dv x :
  validate_field (validate now) now d [] (Field name t (Default dv)) = Ok x
  <-> (dict_get d name = None /\ x = dv)
      \/ exists v, dict_get d name = Some v /\ validate now t [LField name] v = Ok x.
Proof.
  cbn [validate_field app]. destruct (dict_get d name) as [v|]; split.
  - intros H. right. exists v. split; [reflexivity|exact H].
  - intros [[H _]|(v' & H & Hv)]; [discriminate H|]. injection H as ->. exact Hv.
  - intros H. injection H as <-. left. split; reflexivity.
  - intros [[_ ->]|(v' & H & _)]; [reflexivity|discriminate H].
Qed.

(** C5.  An input of [QueryRequest] that holds a query of one character or
    more and neither [session_id] nor [chat_history] validates, and the
    record has [None] for [session_id] and the empty list for
    [chat_history]. *)
Theorem query_request_defaults now (d : dict) (q : string) :
  dict_get d "query" = Some (RStr q) ->
  1 <= String.length q ->
  dict_get d "session_id" = None ->
  dict_get d "chat_history" = None ->
  validate_model now QueryRequest d
  = Ok (VModel [("query", VStr q); ("session_id", VNone); ("chat_history", VList [])]).
Proof.
  intros Hq Hlen Hsession Hhistory. rewrite validate_model_unfold.
  cbn [QueryRequest validate_fields validate_field field_name].
  rewrite Hq, Hsession, Hhistory, (validate_nonempty_str _ _ _ Hlen). reflexivity.
Qed.

(** The input of the specification: only a query, [x]. *)
Lemma query_request_defaults_witness :
  validate_model sample_now QueryRequest [("query", RStr "x")]
  = Ok (VModel [("query", VStr "x"); ("session_id", VNone); ("chat_history", VList [])]).
Proof.
  apply (query_request_defaults sample_now [("query", RStr "x")] "x").
  - reflexivity.
  - simpl. lia.
  - reflexivity.
  - reflexivity.
Defined.

(** C9 as stated fails: [None] and an absent key give different records. *)
Lemma query_request_null_chat_history_counterexample :
  get_field [("query", VStr "x"); ("session_id", VNone); ("chat_history", VNone)]
    "chat_history" = Some VNone
  /\ validate_model sample_now QueryRequest [("query", RStr "x"); ("chat_history", RNone)]
     = Ok (VModel [("query", VStr "x"); ("session_id", VNone); ("chat_history", VNone)])
  /\ validate_model sample_now QueryRequest [("query", RStr "x")]
     = Ok (VModel [("query", VStr "x"); ("session_id", VNone); ("chat_history", VList [])])
  /\ VNone <> VList [].
Proof. repeat split. discriminate. Qed.

(** C6, as amended.  Every validated [TokenUsage] holds three integers and
    a float, and nothing relates them: an input with any three integers
    and a float validates, and the record holds them as given, whether or
    not [total_tokens] is the sum of the other two. *)
Theorem token_usage_fields_are_independent now (d : dict) :
  (forall r, validate_model now TokenUsage d = Ok r ->
     exists prompt completion total cost,
       r = VModel [("prompt_tokens", VInt prompt); ("completion_tokens", VInt completion);
                   ("total_tokens", VInt total); ("estimated_cost_usd", VFloat cost)])
  /\ (forall prompt completion total cost,
        dict_get d "prompt_tokens" = Some (RInt prompt) ->
        dict_get d "completion_tokens" = Some (RInt completion) ->
        dict_get d "total_tokens" = Some (RInt total) ->
        dict_get d "estimated_cost_usd" = Some (RFloat cost) ->
        validate_model now TokenUsage d
        = Ok (VModel [("prompt_tokens", VInt prompt); ("completion_tokens", VInt completion);
                      ("total_tokens", VInt total); ("estimated_cost_usd", VFloat cost)])).
Proof.
  split.
  - intros r Hr. apply validate_model_ok in Hr as (fields & -> & Hall).
    inversion Hall as [|f1 [n1 x1] m1 vs1 [Hn1 Hx1] Hall1]; subst.
    inversion Hall1 as [|f2 [n2 x2] m2 vs2 [Hn2 Hx2] Hall2]; subst.
    inversion Hall2 as [|f3 [n3 x3] m3 vs3 [Hn3 Hx3] Hall3]; subst.
    inversion Hall3 as [|f4 [n4 x4] m4 vs4 [Hn4 Hx4] Hall4]; subst.
    inversion Hall4; subst. cbn [fst snd field_name] in *. subst.
    apply required_field_ok in Hx1 as (v1 & _ & Hx1).
    apply required_field_ok in Hx2 as (v2 & _ & Hx2).
    apply required_field_ok in Hx3 as (v3 & _ & Hx3).
    apply required_field_ok in Hx4 as (v4 & _ & Hx4).
    apply validate_int_value in Hx1 as [prompt ->].
    apply validate_int_value in Hx2 as [completion ->].
    apply validate_int_value in Hx3 as [total ->].
    apply validate_float_value in Hx4 as [cost ->].
    exists prompt, completion, total, cost. reflexivity.
  - intros prompt completion total cost Hp Hc Ht Hcost. rewrite validate_model_unfold.
    cbn [TokenUsage validate_fields validate_field field_name].
    rewrite Hp, Hc, Ht, Hcost. reflexivity.
Qed.

(** C6 as stated fails: 1 + 1 tokens with a total of 5 validate. *)
Lemma token_usage_total_counterexample :
  validate_model sample_now TokenUsage
    [("prompt_tokens", RInt 1); ("completion_tokens", RInt 1);
     ("total_tokens", RInt 5); ("estimated_cost_usd", RFloat 0.5%float)]
  = Ok (VModel [("prompt_tokens", VInt 1); ("completion_tokens", VInt 1);
                ("total_tokens", VInt 5); ("estimated_cost_usd", VFloat 0.5%float)])
  /\ (5 <> 1 + 1)%Z.
Proof. split; [reflexivity|discriminate]. Qed.

(** C7, as amended.  Every validated [DocumentUploadResponse] holds
    integers for [chunks_created], [links_extracted] and
    [images_extracted] and a float for [processing_time_ms]; their sign is
    not checked: an input with any integers and any float there validates,
    and the record holds them as given. *)
Theorem document_upload_response_counts_unconstrained now (d : dict) :
  (forall r, validate_model now DocumentUploadResponse d = Ok r ->
     exists success document_id title chunks links images time,
       r = VModel [("success", VBool success); ("document_id", VStr document_id);
                   ("title", VStr title); ("chunks_created", VInt chunks);
                   ("links_extracted", VInt links); ("images_extracted", VInt images);
                   ("processing_time_ms", VFloat time)])
  /\ (forall success document_id title chunks links images time,
        dict_get d "success" = Some (RBool success) ->
        dict_get d "document_id" = Some (RStr document_id) ->
        dict_get d "title" = Some (RStr title) ->
        dict_get d "chunks_created" = Some (RInt chunks) ->
        dict_get d "links_extracted" = Some (RInt links) ->
        dict_get d "images_extracted" = Some (RInt images) ->
        dict_get d "processing_time_ms" = Some (RFloat time) ->
        validate_model now DocumentUploadResponse d
        = Ok (VModel [("success", VBool success); ("document_id", VStr document_id);
                      ("title", VStr title); ("chunks_created", VInt chunks);
                      ("links_extracted", VInt links); ("images_extracted", VInt images);
                      ("processing_time_ms", VFloat time)])).
Proof.
  split.
  - intros r Hr. apply validate_model_ok in Hr as (fields & -> & Hall).
    inversion Hall as [|f1 [n1 x1] m1 vs1 [Hn1 Hx1] Hall1]; subst.
    inversion Hall1 as [|f2 [n2 x2] m2 vs2 [Hn2 Hx2] Hall2]; subst.
    inversion Hall2 as [|f3 [n3 x3] m3 vs3 [Hn3 Hx3] Hall3]; subst.
    inversion Hall3 as [|f4 [n4 x4] m4 vs4 [Hn4 Hx4] Hall4]; subst.
    inversion Hall4 as [|f5 [n5 x5] m5 vs5 [Hn5 Hx5] Hall5]; subst.
    inversion Hall5 as [|f6 [n6 x6] m6 vs6 [Hn6 Hx6] Hall6]; subst.
    inversion Hall6 as [|f7 [n7 x7] m7 vs7 [Hn7 Hx7] Hall7]; subst.
    inversion Hall7; subst. cbn [fst snd field_name] in *. subst.
    apply required_field_ok in Hx1 as (v1 & _ & Hx1).
    apply required_field_ok in Hx2 as (v2 & _ & Hx2).
    apply required_field_ok in Hx3 as (v3 & _ & Hx3).
    apply required_field_ok in Hx4 as (v4 & _ & Hx4).
    apply required_field_ok in Hx7 as (v7 & _ & Hx7).
    apply validate_bool_value in Hx1 as [success ->].
    apply validate_str_value in Hx2 as [document_id ->].
    apply validate_str_value in Hx3 as [title ->].
    apply validate_int_value in Hx4 as [chunks ->].
    apply validate_float_value in Hx7 as [time ->].
    assert (H5 : exists links, x5 = VInt links).
    { apply default_field_ok in Hx5 as [[_ ->]|(v5 & _ & Hx5)];
        [eexists; reflexivity|apply (validate_int_value _ _ _ _ Hx5)]. }
    assert (H6 : exists images, x6 = VInt images).
    { apply default_field_ok in Hx6 as [[_ ->]|(v6 & _ & Hx6)];
        [eexists; reflexivity|apply (validate_int_value _ _ _ _ Hx6)]. }
    destruct H5 as [links ->]. destruct H6 as [images ->].
    exists success, document_id, title, chunks, links, images, time. reflexivity.
  - intros success document_id title chunks links images time H1 H2 H3 H4 H5 H6 H7.
    rewrite validate_model_unfold.
    cbn [DocumentUploadResponse validate_fields validate_field field_name].
    rewrite H1, H2, H3, H4, H5, H6, H7. reflexivity.
Qed.

(** C7 as stated fails: negative counts and a negative time validate. *)
Lemma document_upload_response_negative_counterexample :
  validate_model sample_now DocumentUploadResponse
    [("success", RBool true); ("document_id", RStr "doc-1"); ("title", RStr "Doc");
     ("chunks_created", RInt (-1)); ("links_extracted", RInt (-2));
     ("images_extracted", RInt (-3)); ("processing_time_ms", RFloat (-1.5)%float)]
  = Ok (VModel [("success", VBool true); ("document_id", VStr "doc-1");
                ("title", VStr "Doc"); ("chunks_created", VInt (-1));
                ("links_extracted", VInt (-2)); ("images_extracted", VInt (-3));
                ("processing_time_ms", VFloat (-1.5)%float)])
  /\ (-1 < 0)%Z /\ (-2 < 0)%Z /\ (-3 < 0)%Z /\ ltb (-1.5)%float 0%float = true.
Proof. repeat split. Qed.

(** ** Sources of a response *)

Lemma validate_source now at_loc (s : source_input) :
  validate now (TModel SourceReference) at_loc (raw_source s) = Ok (source_reference s).
Proof. destruct s. reflexivity. Qed.

Lemma validate_sources now at_loc (sources : list source_input) :
  forall index,
    validate_items (validate now) (TModel SourceReference) at_loc index (map raw_source sources)
    = (map source_reference sources, []).
Proof.
  induction sources as [|s sources IH]; intros index; [reflexivity|].
  cbn [map validate_items]. rewrite IH, validate_source. reflexivity.
Qed.

Lemma source_ids_kept (sources : list source_input) :
  source_ids (map source_reference sources) = map (fun s => Some (VInt (source_id s))) sources.
Proof.
  unfold source_ids. rewrite map_map. apply map_ext. intros s. reflexivity.
Qed.

(** C8 as stated fails: a response whose sources have the ids 0, 5 and 5
    validates, with these ids. *)
Lemma query_response_source_ids_counterexample :
  validate_model sample_now QueryResponse
    [("answer", RStr "See [1].");
     ("sources", RList
        [RDict [("id", RInt 0); ("text", RStr "a"); ("document", RStr "doc");
                ("score", RFloat 0.5%float)];
         RDict [("id", RInt 5); ("text", RStr "b"); ("document", RStr "doc");
                ("score", RFloat 0.25%float)];
         RDict [("id", RInt 5); ("text", RStr "c"); ("document", RStr "doc");
                ("score", RFloat 0.125%float)]]);
     ("has_context", RBool true);
     ("timing", RDict [("retrieval_ms", RFloat 1%float); ("rerank_ms", RFloat 2%float);
                       ("llm_ms", RFloat 3%float); ("total_ms", RFloat 6.5%float)])]
  = Ok (VModel
      [("answer", VStr "See [1].");
       ("sources", VList
          [VModel [("id", VInt 0); ("text", VStr "a"); ("document", VStr "doc");
                   ("links", VList []); ("images", VList []);
                   ("score", VFloat 0.5%float); ("chunk_id", VNone); ("section", VNone)];
           VModel [("id", VInt 5); ("text", VStr "b"); ("document", VStr "doc");
                   ("links", VList []); ("images", VList []);
                   ("score", VFloat 0.25%float); ("chunk_id", VNone); ("section", VNone)];
           VModel [("id", VInt 5); ("text", VStr "c"); ("document", VStr "doc");
                   ("links", VList []); ("images", VList []);
                   ("score", VFloat 0.125%float); ("chunk_id", VNone); ("section", VNone)]]);
       ("has_context", VBool true);
       ("general_answer", VNone);
       ("timing", VModel [("retrieval_ms", VFloat 1%float); ("rerank_ms", VFloat 2%float);
                          ("llm_ms", VFloat 3%float); ("total_ms", VFloat 6.5%float)]);
       ("token_usage", VNone);
       ("session_id", VNone)]).
Proof. reflexivity. Qed.


(** * Further properties of the classes *)

(** ** Locations compose *)

Lemma relocate_nil e : relocate [] e = e.
Proof. destruct e. reflexivity. Qed.

Lemma relocate_app l1 l2 e : relocate l1 (relocate l2 e) = relocate (l1 ++ l2) e.
Proof. unfold relocate. simpl. rewrite app_assoc. reflexivity. Qed.

Lemma relocate_result_app l1 l2 r :
  relocate_result l1 (relocate_result l2 r) = relocate_result (l1 ++ l2) r.
Proof.
  destruct r as [x|es]; [reflexivity|]. simpl. rewrite map_map. f_equal.
  apply map_ext. intros e. apply relocate_app.
Qed.

Lemma fail_relocate at_loc rule v :
  fail at_loc rule v = relocate_result at_loc (fail [] rule v).
Proof. unfold fail. simpl. unfold relocate. simpl. rewrite app_nil_r. reflexivity. Qed.

Lemma validate_str_relocate min_length pattern at_loc v :
  validate_str min_length pattern at_loc v
  = relocate_result at_loc (validate_str min_length pattern [] v).
Proof.
  unfold validate_str, check_pattern.
  destruct v; try apply fail_relocate.
  destruct min_length as [n|]; [destruct (Nat.ltb (String.length s) n)|];
    try apply fail_relocate;
    (destruct pattern as [r|]; [destruct (is_match r s)|]);
    try reflexivity; apply fail_relocate.
Qed.

Lemma validate_int_relocate at_loc v :
  validate_int at_loc v = relocate_result at_loc (validate_int [] v).
Proof.
  unfold validate_int. destruct v; try apply fail_relocate; try reflexivity.
  - destruct (float_as_int f); [apply fail_relocate|reflexivity].
  - destruct (str_as_int s); [apply fail_relocate|reflexivity].
Qed.

Lemma validate_float_relocate at_loc v :
  validate_float at_loc v = relocate_result at_loc (validate_float [] v).
Proof.
  unfold validate_float. destruct v; try apply fail_relocate; try reflexivity.
  - destruct (int_as_float i); [reflexivity|apply fail_relocate].
  - destruct (str_as_float s); [reflexivity|apply fail_relocate].
Qed.

Lemma validate_bool_relocate at_loc v :
  validate_bool at_loc v = relocate_result at_loc (validate_bool [] v).
Proof.
  unfold validate_bool. destruct v; try apply fail_relocate; try reflexivity.
  - destruct (Z.leb (- 2 ^ 63) i && Z.ltb i (2 ^ 63)); [|apply fail_relocate].
    destruct (int_as_bool i); [reflexivity|apply fail_relocate].
  - destruct (float_as_int f) as [rule|i]; [apply fail_relocate|].
    destruct (int_as_bool i); [reflexivity|apply fail_relocate].
  - destruct (str_as_bool s); [reflexivity|apply fail_relocate].
Qed.

Lemma finish_relocate {A : Type} (build : A -> value) (xs : A) at_loc es :
  finish build (xs, map (relocate at_loc) es) = relocate_result at_loc (finish build (xs, es)).
Proof. unfold finish. destruct es; reflexivity. Qed.

Section LoopsRelocate.
Variable check : ftype -> loc -> raw -> result value.
Variable now : string.

Lemma validate_items_relocate t at_loc items :
  (forall l v, check t l v = relocate_result l (check t [] v)) ->
  forall index,
    validate_items check t at_loc index items
    = (fst (validate_items check t [] index items),
       map (relocate at_loc) (snd (validate_items check t [] index items))).
Proof.
  intros Hcheck. induction items as [|x items IH]; intros index; [reflexivity|].
  cbn [validate_items]. rewrite (IH (S index)).
  destruct (validate_items check t [] (S index) items) as [vs es].
  rewrite (Hcheck (at_loc ++ [LIndex index])), (Hcheck ([] ++ [LIndex index])).
  destruct (check t [] x) as [v|es']; [reflexivity|].
  cbn [relocate_result fst snd app]. rewrite map_app, map_map. f_equal. f_equal.
  apply map_ext. intros e. symmetry. apply relocate_app.
Qed.

Lemma validate_field_relocate d at_loc f :
  (forall l v, check (field_annotation f) l v
               = relocate_result l (check (field_annotation f) [] v)) ->
  validate_field check now d at_loc f
  = relocate_result at_loc (validate_field check now d [] f).
Proof.
  destruct f as [name annotation dflt]. cbn [field_annotation validate_field].
  intros Hcheck. destruct (dict_get d name) as [v|].
  - rewrite (Hcheck (at_loc ++ [LField name])), (Hcheck ([] ++ [LField name])).
    rewrite relocate_result_app. reflexivity.
  - destruct dflt; reflexivity.
Qed.

Lemma validate_fields_relocate d at_loc fields :
  Forall (fun f => forall l v, check (field_annotation f) l v
                               = relocate_result l (check (field_annotation f) [] v))
         fields ->
  validate_fields check now d at_loc fields
  = (fst (validate_fields check now d [] fields),
     map (relocate at_loc) (snd (validate_fields check now d [] fields))).
Proof.
  induction 1 as [|f fields Hf _ IH]; [reflexivity|].
  cbn [validate_fields]. rewrite IH.
  destruct (validate_fields check now d [] fields) as [vs es].
  rewrite (validate_field_relocate d at_loc f Hf).
  destruct (validate_field check now d [] f) as [v|es']; [reflexivity|].
  cbn [relocate_result fst snd]. rewrite map_app. reflexivity.
Qed.
End LoopsRelocate.

(** Validation does not depend on where the value stands, except for the
    locations of its lines, which are below that place. *)
Lemma validate_relocate now t :
  forall at_loc v, validate now t at_loc v = relocate_result at_loc (validate now t [] v).
Proof.
  induction t as [min_length pattern | | | | t IH | t IH | fields IH] using ftype_nested_ind;
    intros at_loc v; cbn [validate].
  - apply validate_str_relocate.
  - apply validate_int_relocate.
  - apply validate_float_relocate.
  - apply validate_bool_relocate.
  - destruct v; try apply IH. reflexivity.
  - destruct v; try apply fail_relocate.
    rewrite (validate_items_relocate (validate now) t at_loc items IH 0).
    destruct (validate_items (validate now) t [] 0 items) as [vs es].
    apply finish_relocate.
  - destruct v; try apply fail_relocate.
    rewrite (validate_fields_relocate (validate now) now entries at_loc fields IH).
    destruct (validate_fields (validate now) now entries [] fields) as [vs es].
    apply finish_relocate.
Qed.

Lemma validate_ok_anywhere now t at_loc at_loc' v x :
  validate now t at_loc v = Ok x -> validate now t at_loc' v = Ok x.
Proof.
  rewrite (validate_relocate now t at_loc), (validate_relocate now t at_loc').
  destruct (validate now t [] v); [intros H; exact H|discriminate].
Qed.

Lemma errors_of_relocate_result at_loc r :
  errors_of (relocate_result at_loc r) = map (relocate at_loc) (errors_of r).
Proof. destruct r; reflexivity. Qed.

Lemma failed_has_no_value {A : Type} (r : result A) e :
  In e (errors_of r) -> value_of r = None.
Proof. destruct r; [intros []|reflexivity]. Qed.

(** ** Keys that are absent, keys that are null *)

(** X1.  Whatever the class, when the input lacks the key of a field
    declared without a default, validation fails, and the error has a
    [missing] line located at the field, reporting the mapping given. *)
Theorem missing_required_field_is_reported now (m : model) (d : dict)
    (name : string) (t : ftype) :
  In (Field name t Required) m ->
  dict_get d name = None ->
  In (LineError [LField name] missing (RDict d)) (errors_of (validate_model now m d))
  /\ value_of (validate_model now m d) = None.
Proof.
  intros Hf Hd.
  assert (Hin : In (LineError [LField name] missing (RDict d))
                   (errors_of (validate_model now m d))).
  { rewrite validate_model_errors. apply in_flat_map.
    exists (Field name t Required). split; [exact Hf|].
    unfold field_errors. cbn [validate_field]. rewrite Hd. left. reflexivity. }
  split; [exact Hin|apply (failed_has_no_value _ _ Hin)].
Qed.

(** A chat message without content. *)
Lemma missing_required_field_is_reported_witness :
  In (LineError [LField "content"] missing (RDict [("role", RStr "user")]))
     (errors_of (validate_model sample_now ChatMessage [("role", RStr "user")])).
Proof.
  apply (missing_required_field_is_reported sample_now ChatMessage
           [("role", RStr "user")] "content" str).
  - right. left. reflexivity.
  - reflexivity.
Defined.

(** X2.  Whatever the class, a key given as [None] is not a key that is
    absent: the default of the field is not used.  Under an [Optional]
    annotation the field takes the value [None]; under any other
    annotation validation fails with a line at the field for the rule of
    the annotation's type, whether the field has a default or not. *)
Theorem null_is_a_value_only_where_optional now (m : model) (d : dict)
    (name : string) (t : ftype) (dflt : default) :
  In (Field name t dflt) m ->
  dict_get d name = Some RNone ->
  match null_rule t with
  | Some rule =>
      In (LineError [LField name] rule RNone) (errors_of (validate_model now m d))
      /\ value_of (validate_model now m d) = None
  | None => validate_field (validate now) now d [] (Field name t dflt) = Ok VNone
  end.
Proof.
  intros Hf Hd.
  assert (Hline : forall rule,
            validate now t [LField name] RNone = fail [LField name] rule RNone ->
            In (LineError [LField name] rule RNone) (errors_of (validate_model now m d))
            /\ value_of (validate_model now m d) = None).
  { intros rule Hrule.
    assert (Hin : In (LineError [LField name] rule RNone)
                     (errors_of (validate_model now m d))).
    { rewrite validate_model_errors. apply in_flat_map.
      exists (Field name t dflt). split; [exact Hf|].
      unfold field_errors. cbn [validate_field app]. rewrite Hd, Hrule.
      left. reflexivity. }
    split; [exact Hin|apply (failed_has_no_value _ _ Hin)]. }
  destruct t; cbn [null_rule]; try (apply Hline; reflexivity).
  cbn [validate_field validate]. rewrite Hd. reflexivity.
Qed.

(** [links_extracted] has the default 0 and is given as [None]. *)
Lemma null_is_a_value_only_where_optional_witness :
  In (LineError [LField "links_extracted"] int_type RNone)
     (errors_of (validate_model sample_now DocumentUploadResponse
        [("success", RBool true); ("document_id", RStr "doc-1"); ("title", RStr "Doc");
         ("chunks_created", RInt 3); ("links_extracted", RNone);
         ("processing_time_ms", RFloat 1.5%float)])).
Proof.
  refine (proj1 (null_is_a_value_only_where_optional sample_now DocumentUploadResponse
            _ "links_extracted" TInt (Default (VInt 0)) _ _)).
  - do 4 right. left. reflexivity.
  - reflexivity.
Defined.

(** ** A class used as a field *)

(** X3.  Whatever the class, a field annotated with another class (or
    with [Optional] of it) and given a mapping validates as that class
    does on its own: the same record, or the same lines with the field's
    name put before their locations; and these lines are lines of the
    whole validation. *)
Theorem nested_class_validates_as_on_its_own now (m : model) (d : dict)
    (name : string) (t : ftype) (inner : model) (dflt : default) (dv : dict) :
  In (Field name t dflt) m ->
  t = TModel inner \/ t = TOptional (TModel inner) ->
  dict_get d name = Some (RDict dv) ->
  validate_field (validate now) now d [] (Field name t dflt)
  = relocate_result [LField name] (validate_model now inner dv)
  /\ (forall e, In e (errors_of (validate_model now inner dv)) ->
        In (relocate [LField name] e) (errors_of (validate_model now m d))).
Proof.
  intros Hf Ht Hd.
  assert (Hfield : validate_field (validate now) now d [] (Field name t dflt)
                   = relocate_result [LField name] (validate_model now inner dv)).
  { cbn [validate_field app]. rewrite Hd. unfold validate_model.
    destruct Ht as [-> | ->];
      exact (validate_relocate now (TModel inner) [LField name] (RDict dv)). }
  split; [exact Hfield|].
  intros e He. rewrite validate_model_errors. apply in_flat_map.
  exists (Field name t dflt). split; [exact Hf|].
  unfold field_errors. rewrite Hfield, errors_of_relocate_result.
  apply in_map, He.
Qed.

(** A retrieved chunk whose metadata lacks [chunk_id]. *)
Lemma nested_class_validates_as_on_its_own_witness :
  In (LineError [LField "metadata"; LField "chunk_id"] missing
        (RDict [("source", RStr "a.txt"); ("title", RStr "A")]))
     (errors_of (validate_model sample_now RetrievedChunk
        [("chunk_id", RStr "c1"); ("text", RStr "t"); ("score", RFloat 0.5%float);
         ("metadata", RDict [("source", RStr "a.txt"); ("title", RStr "A")])])).
Proof.
  refine (proj2 (nested_class_validates_as_on_its_own sample_now RetrievedChunk
            _ "metadata" (TModel ChunkMetadata) ChunkMetadata Required
            [("source", RStr "a.txt"); ("title", RStr "A")] _ _ _)
          (LineError [LField "chunk_id"] missing
             (RDict [("source", RStr "a.txt"); ("title", RStr "A")])) _).
  - do 3 right. left. reflexivity.
  - left. reflexivity.
  - reflexivity.
  - left. reflexivity.
Defined.

(** ** Lists *)

(** A list gives its values exactly when every item validates, item by
    item and in order. *)
Lemma validate_items_ok now t at_loc items :
  forall index vs,
    validate_items (validate now) t at_loc index items = (vs, [])
    <-> Forall2 (fun x v => validate now t [] x = Ok v) items vs.
Proof.
  induction items as [|x items IH]; intros index vs; cbn [validate_items].
  - split.
    + intros H. injection H as <-. constructor.
    + intros H. inversion H. reflexivity.
  - specialize (IH (S index)).
    destruct (validate_items (validate now) t at_loc (S index) items) as [vs' es'].
    destruct (validate now t (at_loc ++ [LIndex index]) x) as [v|es] eqn:Ex.
    + apply (validate_ok_anywhere _ _ _ []) in Ex. split.
      * intros H. injection H as <- ->. constructor; [exact Ex|]. apply IH. reflexivity.
      * intros H. inversion H as [|x' v' items' vs'' Hx Hrest]; subst.
        rewrite Ex in Hx. injection Hx as <-.
        apply IH in Hrest. injection Hrest as <- <-. reflexivity.
    + split.
      * intros H. injection H as _ H. apply app_eq_nil in H as [H _].
        apply validate_error_nonempty in Ex. contradiction.
      * intros H. inversion H as [|x' v' items' vs'' Hx Hrest]; subst.
        apply (validate_ok_anywhere _ _ _ (at_loc ++ [LIndex index])) in Hx.
        rewrite Ex in Hx. discriminate Hx.
Qed.

(** The lines of an item are lines of the list. *)
Lemma validate_items_item_errors (check : ftype -> loc -> raw -> result value)
    t at_loc items :
  forall index i x e,
    nth_error items i = Some x ->
    In e (errors_of (check t (at_loc ++ [LIndex (index + i)]) x)) ->
    In e (snd (validate_items check t at_loc index items)).
Proof.
  induction items as [|y items IH]; intros index i x e Hx He.
  - destruct i; discriminate Hx.
  - cbn [validate_items].
    destruct (validate_items check t at_loc (S index) items) as [vs es] eqn:E.
    destruct i as [|i].
    + injection Hx as ->. rewrite Nat.add_0_r in He.
      destruct (check t (at_loc ++ [LIndex index]) x); [destruct He|].
      simpl. apply in_or_app. left. exact He.
    + assert (Hin : In e es).
      { replace es with (snd (validate_items check t at_loc (S index) items))
          by (rewrite E; reflexivity).
        apply (IH (S index) i x e Hx).
        replace (S index + i) with (index + S i) by lia. exact He. }
      destruct (check t (at_loc ++ [LIndex index]) y); simpl; [exact Hin|].
      apply in_or_app. right. exact Hin.
Qed.

Lemma validate_message now at_loc (m : string * string) :
  fst m = "user" \/ fst m = "assistant" ->
  validate now (TModel ChatMessage) at_loc (raw_message m) = Ok (chat_message m).
Proof. destruct m as [role content]. simpl. intros [-> | ->]; reflexivity. Qed.

(** ** Timestamps *)

Lemma factory_field_ok now d name t factory x :
  validate_field (validate now) now d [] (Field name t (DefaultFactory factory)) = Ok x
  <-> (dict_get d name = None /\ x = factory now)
      \/ exists v, dict_get d name = Some v /\ validate now t [LField name] v = Ok x.
Proof.
  cbn [validate_field app]. destruct (dict_get d name) as [v|]; split.
  - intros H. right. exists v. split; [reflexivity|exact H].
  - intros [[H _]|(v' & H & Hv)]; [discriminate H|]. injection H as ->. exact Hv.
  - intros H. injection H as <-. left. split; reflexivity.
  - intros [[_ ->]|(v' & H & _)]; [reflexivity|discriminate H].
Qed.

(** A [str] field whose default factory reads the clock. *)
Lemma clock_field_ok now d name x :
  validate_field (validate now) now d [] (Field name str (DefaultFactory utcnow_isoformat))
  = Ok x ->
  exists ts, x = VStr ts
             /\ (dict_get d name = None -> ts = now)
             /\ (forall s, dict_get d name = Some (RStr s) -> ts = s).
Proof.
  intros H. apply factory_field_ok in H as [[Hd ->]|(v & Hd & Hv)].
  - exists now. split; [reflexivity|]. split; [reflexivity|].
    intros s Hs. rewrite Hd in Hs. discriminate Hs.
  - rewrite validate_plain_str in Hv. destruct v; try discriminate Hv.
    injection Hv as <-. exists s. split; [reflexivity|]. split.
    + intros Hnone. rewrite Hd in Hnone. discriminate Hnone.
    + intros s' Hs'. rewrite Hd in Hs'. injection Hs' as ->. reflexivity.
Qed.

(** X6.  The [timestamp] of a validated [HealthResponse] and the
    [created_at] of a validated [ChunkMetadata] are strings: the reading
    of the clock when the input has no such key, and the string of the
    input, unchanged, when it has one. *)
Theorem timestamps_default_to_the_clock now (d : dict) :
  (forall r, validate_model now HealthResponse d = Ok r ->
     exists fields ts,
       r = VModel fields
       /\ get_field fields "timestamp" = Some (VStr ts)
       /\ (dict_get d "timestamp" = None -> ts = now)
       /\ (forall s, dict_get d "timestamp" = Some (RStr s) -> ts = s))
  /\ (forall r, validate_model now ChunkMetadata d = Ok r ->
        exists fields ts,
          r = VModel fields
          /\ get_field fields "created_at" = Some (VStr ts)
          /\ (dict_get d "created_at" = None -> ts = now)
          /\ (forall s, dict_get d "created_at" = Some (RStr s) -> ts = s)).
Proof.
  split.
  - intros r Hr. apply validate_model_ok in Hr as (fields & -> & Hall).
    inversion Hall as [|f1 [n1 x1] m1 vs1 [Hn1 _] Hall1]; subst.
    inversion Hall1 as [|f2 [n2 x2] m2 vs2 [Hn2 _] Hall2]; subst.
    inversion Hall2 as [|f3 [n3 x3] m3 vs3 [Hn3 _] Hall3]; subst.
    inversion Hall3 as [|f4 [n4 x4] m4 vs4 [Hn4 _] Hall4]; subst.
    inversion Hall4 as [|f5 [n5 x5] m5 vs5 [Hn5 Hx5] Hall5]; subst.
    inversion Hall5; subst. cbn [fst snd field_name] in *. subst.
    apply clock_field_ok in Hx5 as (ts & -> & Hnone & Hsome).
    eexists. exists ts. split; [reflexivity|]. split; [reflexivity|].
    split; assumption.
  - intros r Hr. apply validate_model_ok in Hr as (fields & -> & Hall).
    inversion Hall as [|f1 [n1 x1] m1 vs1 [Hn1 _] Hall1]; subst.
    inversion Hall1 as [|f2 [n2 x2] m2 vs2 [Hn2 _] Hall2]; subst.
    inversion Hall2 as [|f3 [n3 x3] m3 vs3 [Hn3 _] Hall3]; subst.
    inversion Hall3 as [|f4 [n4 x4] m4 vs4 [Hn4 _] Hall4]; subst.
    inversion Hall4 as [|f5 [n5 x5] m5 vs5 [Hn5 _] Hall5]; subst.
    inversion Hall5 as [|f6 [n6 x6] m6 vs6 [Hn6 _] Hall6]; subst.
    inversion Hall6 as [|f7 [n7 x7] m7 vs7 [Hn7 Hx7] Hall7]; subst.
    inversion Hall7; subst. cbn [fst snd field_name] in *. subst.
    apply clock_field_ok in Hx7 as (ts & -> & Hnone & Hsome).
    eexists. exists ts. split; [reflexivity|]. split; [reflexivity|].
    split; assumption.
Qed.

(** ** Consistent declarations *)

Lemma consistent_model now fields :
  consistent now (TModel fields)
  <-> NoDup (map field_name fields)
      /\ Forall (fun f => consistent now (field_annotation f) /\ default_fits now f) fields.
Proof.
  cbn [consistent]. split; intros [Hnames Heach]; (split; [exact Hnames|]);
    clear Hnames; induction fields as [|[name annotation dflt] fields IH].
  - constructor.
  - destruct Heach as [Hf Hrest]. constructor; [exact Hf|apply IH, Hrest].
  - exact I.
  - inversion Heach as [|f fs Hf Hrest]; subst. split; [exact Hf|apply IH, Hrest].
Qed.

Lemma no_dup_names (names : list string) : distinct names = true -> NoDup names.
Proof.
  induction names as [|x names IH]; [constructor|].
  intros H. apply andb_true_iff in H as [Hx Hrest].
  constructor; [|apply IH, Hrest].
  intros Hin. apply negb_true_iff in Hx.
  assert (Hex : existsb (String.eqb x) names = true).
  { apply existsb_exists. exists x. split; [exact Hin|apply String.eqb_refl]. }
  congruence.
Qed.

(** Every class of the file is consistent, whatever the clock reads: no
    name twice, [None] only for [Optional] fields, 0 for an [int], the
    empty list for a list, the clock's string for a [str]. *)
Lemma contract_layer_consistent now :
  Forall (fun m => consistent now (TModel m)) contract_layer.
Proof.
  unfold contract_layer.
  repeat (apply Forall_cons; [cbn; repeat split; try (apply no_dup_names; reflexivity)|]).
  apply Forall_nil.
Qed.

(** ** Records given back as inputs *)

Lemma dump_none x : dump x = RNone -> x = VNone.
Proof. destruct x; try discriminate. reflexivity. Qed.

Lemma dict_get_dump_fields (pre : list (string * value)) nv vs :
  ~ In (fst nv) (map fst pre) ->
  dict_get (dump_fields (pre ++ nv :: vs)) (fst nv) = Some (dump (snd nv)).
Proof.
  induction pre as [|[k v] pre IH]; intros Hpre; simpl.
  - rewrite String.eqb_refl. reflexivity.
  - destruct (String.eqb_spec k (fst nv)) as [Hk|_].
    + exfalso. apply Hpre. left. exact Hk.
    + apply IH. intros Hin. apply Hpre. right. exact Hin.
Qed.

(** The fields of a record validate again against the record itself. *)
Lemma fields_validate_again now (d : dict) :
  forall fields vs,
    Forall2 (field_gives now d) fields vs ->
    forall pre,
      (forall f, In f fields -> ~ In (field_name f) (map fst pre)) ->
      NoDup (map field_name fields) ->
      Forall (fun f =>
                (forall at_loc v x, validate now (field_annotation f) at_loc v = Ok x ->
                                    validate now (field_annotation f) [] (dump x) = Ok x)
                /\ default_fits now f) fields ->
      Forall2 (field_gives now (dump_fields (pre ++ vs))) fields vs.
Proof.
  induction 1 as [|f nv fields vs [Hname Hvalue] _ IH]; intros pre Hpre Hnames Hfields;
    [constructor|].
  inversion Hnames as [|n ns Hfresh Hnames']; subst.
  inversion Hfields as [|f' fs' [Hagain Hfits] Hfields']; subst.
  constructor.
  - split; [exact Hname|].
    destruct f as [name annotation dflt]. cbn [field_name field_annotation] in *.
    cbn [validate_field app] in Hvalue |- *.
    assert (Hget : dict_get (dump_fields (pre ++ nv :: vs)) name = Some (dump (snd nv))).
    { rewrite <- Hname. apply dict_get_dump_fields. rewrite Hname.
      apply (Hpre (Field name annotation dflt)). left. reflexivity. }
    rewrite Hget.
    apply (validate_ok_anywhere now annotation []).
    destruct (dict_get d name) as [v|].
    + apply (Hagain _ _ _ Hvalue).
    + unfold default_fits, default_value in Hfits.
      destruct dflt; [discriminate Hvalue| |]; injection Hvalue as <-; exact Hfits.
  - replace (pre ++ nv :: vs) with ((pre ++ [nv]) ++ vs)
      by (rewrite <- app_assoc; reflexivity).
    apply IH; [|exact Hnames'|exact Hfields'].
    intros g Hg Hin. rewrite map_app in Hin. apply in_app_or in Hin as [Hin|[Hin|[]]].
    + apply (Hpre g); [right; exact Hg|exact Hin].
    + apply Hfresh. simpl in Hin. rewrite <- Hname, Hin. apply in_map, Hg.
Qed.

(** A value validated under a consistent annotation validates again, to
    itself. *)
Lemma validate_again now t :
  consistent now t ->
  forall at_loc v x, validate now t at_loc v = Ok x -> validate now t [] (dump x) = Ok x.
Proof.
  induction t as [min_length pattern | | | | t IH | t IH | fields IH] using ftype_nested_ind;
    intros Hwf at_loc v x H; apply (validate_ok_anywhere _ _ _ []) in H.
  - assert (Hx : dump x = v).
    { cbn [validate] in H. unfold validate_str, check_pattern in H.
      destruct v; try discriminate H.
      destruct min_length as [n|]; [destruct (Nat.ltb (String.length s) n)|];
        try discriminate H;
        (destruct pattern as [r|]; [destruct (is_match r s)|]);
        try discriminate H; injection H as <-; reflexivity. }
    rewrite Hx. exact H.
  - apply validate_int_value in H as [i ->]. reflexivity.
  - apply validate_float_value in H as [f ->]. reflexivity.
  - apply validate_bool_value in H as [b ->]. reflexivity.
  - cbn [validate] in H |- *. cbn [consistent] in Hwf.
    assert (Hinner : x = VNone \/ validate now t [] (dump x) = Ok x).
    { destruct v; try (right; apply (IH Hwf _ _ _ H)).
      injection H as <-. left. reflexivity. }
    destruct Hinner as [-> | Hinner]; [reflexivity|].
    destruct (dump x) eqn:Ex; try exact Hinner.
    apply dump_none in Ex. subst x. reflexivity.
  - cbn [validate] in H. cbn [consistent] in Hwf.
    destruct v; try discriminate H.
    apply finish_ok_iff in H as [Hnil ->].
    destruct (validate_items (validate now) t [] 0 items) as [vs es] eqn:E.
    cbn [fst snd] in *. subst es.
    apply validate_items_ok in E.
    change (dump (VList vs)) with (RList (map dump vs)). cbn [validate].
    assert (Hagain : validate_items (validate now) t [] 0 (map dump vs) = (vs, [])).
    { apply validate_items_ok. clear - E IH Hwf.
      induction E as [|item v items vs Hv _ IHE]; [constructor|].
      cbn [map]. constructor; [apply (IH Hwf _ _ _ Hv)|exact IHE]. }
    rewrite Hagain. reflexivity.
  - cbn [validate] in H. apply consistent_model in Hwf as [Hnames Hfields].
    destruct v; try discriminate H.
    apply finish_ok_iff in H as [Hnil ->].
    destruct (validate_fields (validate now) now entries [] fields) as [vs es] eqn:E.
    cbn [fst snd] in *. subst es.
    apply validate_fields_ok in E.
    change (dump (VModel vs)) with (RDict (dump_fields vs)). cbn [validate].
    assert (Hagain : validate_fields (validate now) now (dump_fields vs) [] fields
                     = (vs, [])).
    { apply validate_fields_ok.
      apply (fields_validate_again now entries fields vs E []).
      - intros f _ [].
      - exact Hnames.
      - rewrite Forall_forall in IH, Hfields |- *. intros f Hf.
        destruct (Hfields f Hf) as [Hc Hfits].
        split; [apply (IH f Hf Hc)|exact Hfits]. }
    rewrite Hagain. reflexivity.
Qed.

(** X7.  A record validated by a class of the file, given back to the
    class as the mapping of its fields, validates to the same record:
    every default of the file is a value its own annotation accepts, and
    validation changes nothing in a value that is already valid. *)
Theorem validated_records_validate_again now (m : model) (d : dict) (r : value) :
  In m contract_layer ->
  validate_model now m d = Ok r ->
  exists fields, r = VModel fields /\ validate_model now m (dump_fields fields) = Ok r.
Proof.
  intros Hm Hr.
  destruct (validate_model_ok_names _ _ _ _ Hr) as (fields & -> & _).
  exists fields. split; [reflexivity|].
  pose proof (contract_layer_consistent now) as Hall.
  rewrite Forall_forall in Hall.
  exact (validate_again now (TModel m) (Hall m Hm) [] (RDict d) (VModel fields) Hr).
Qed.

(** A query alone: the record, with its defaults filled in, validates to
    itself. *)
Lemma validated_records_validate_again_witness :
  validate_model sample_now QueryRequest
    (dump_fields [("query", VStr "x"); ("session_id", VNone); ("chat_history", VList [])])
  = Ok (VModel [("query", VStr "x"); ("session_id", VNone); ("chat_history", VList [])]).
Proof.
  destruct (validated_records_validate_again sample_now QueryRequest
              [("query", RStr "x")]
              (VModel [("query", VStr "x"); ("session_id", VNone);
                       ("chat_history", VList [])]))
    as (fields & Hfields & Hagain).
  - do 3 right. left. reflexivity.
  - reflexivity.
  - injection Hfields as <-. exact Hagain.
Defined.

(** ** One field at a time *)

(** The record holds, under the name of each field, the value the field
    validates to. *)
Lemma field_value_in_record now (d : dict) :
  forall fields vs,
    Forall2 (field_gives now d) fields vs ->
    NoDup (map field_name fields) ->
    forall f, In f fields ->
      exists x, validate_field (validate now) now d [] f = Ok x
                /\ get_field vs (field_name f) = Some x.
Proof.
  induction 1 as [|f0 [n0 x0] fields vs [Hname Hvalue] _ IH]; intros Hnames f Hf;
    [destruct Hf|].
  cbn [fst snd] in Hname, Hvalue. subst n0.
  inversion Hnames as [|n ns Hfresh Hnames']; subst.
  destruct Hf as [<-|Hf].
  - exists x0. split; [exact Hvalue|]. simpl. rewrite String.eqb_refl. reflexivity.
  - destruct (IH Hnames' f Hf) as (x & Hx & Hget).
    exists x. split; [exact Hx|]. simpl.
    destruct (String.eqb_spec (field_name f0) (field_name f)) as [Heq|_]; [|exact Hget].
    exfalso. apply Hfresh. rewrite Heq. apply in_map, Hf.
Qed.

(** X8.  In a record validated by a class of the file, the value of a
    field depends on nothing but what the input holds under that field's
    own key: two inputs that agree on the key and both validate give the
    field the same value, whatever their other keys hold.  No field is
    computed from, or adjusted to, another. *)
Theorem fields_are_validated_independently now (m : model) (d d' : dict) (name : string)
    (fields fields' : list (string * value)) :
  In m contract_layer ->
  In name (map field_name m) ->
  dict_get d name = dict_get d' name ->
  validate_model now m d = Ok (VModel fields) ->
  validate_model now m d' = Ok (VModel fields') ->
  exists x, get_field fields name = Some x /\ get_field fields' name = Some x.
Proof.
  intros Hm Hname Hd Hr Hr'.
  pose proof (contract_layer_consistent now) as Hall.
  rewrite Forall_forall in Hall.
  destruct (proj1 (consistent_model now m) (Hall m Hm)) as [Hnames _].
  apply in_map_iff in Hname as (f & <- & Hf).
  apply validate_model_ok in Hr as (vs & Hvs & Hgives). injection Hvs as <-.
  apply validate_model_ok in Hr' as (vs' & Hvs' & Hgives'). injection Hvs' as <-.
  destruct (field_value_in_record now d m fields Hgives Hnames f Hf) as (x & Hx & Hget).
  destruct (field_value_in_record now d' m fields' Hgives' Hnames f Hf)
    as (x' & Hx' & Hget').
  destruct (validate_field_agree (validate now) now d d' [] f) as [Hsame _];
    [symmetry; exact Hd|].
  rewrite Hx, Hx' in Hsame. injection Hsame as ->.
  exists x. split; assumption.
Qed.

(** Two token counts with the same total and different parts. *)
Lemma fields_are_validated_independently_witness :
  exists x,
    get_field [("prompt_tokens", VInt 1); ("completion_tokens", VInt 1);
               ("total_tokens", VInt 5); ("estimated_cost_usd", VFloat 0.5%float)]
      "total_tokens" = Some x
    /\ get_field [("prompt_tokens", VInt 2); ("completion_tokens", VInt 3);
                  ("total_tokens", VInt 5); ("estimated_cost_usd", VFloat 0.25%float)]
         "total_tokens" = Some x.
Proof.
  apply (fields_are_validated_independently sample_now TokenUsage
           [("prompt_tokens", RInt 1); ("completion_tokens", RInt 1);
            ("total_tokens", RInt 5); ("estimated_cost_usd", RFloat 0.5%float)]
           [("prompt_tokens", RInt 2); ("completion_tokens", RInt 3);
            ("total_tokens", RInt 5); ("estimated_cost_usd", RFloat 0.25%float)]).
  - do 6 right. left. reflexivity.
  - do 2 right. left. reflexivity.
  - reflexivity.
  - reflexivity.
  - reflexivity.
Defined.

(** ** Success *)

Lemma flat_map_nil {A B : Type} (f : A -> list B) (l : list A) :
  flat_map f l = [] <-> Forall (fun a => f a = []) l.
Proof.
  induction l as [|a l IH]; simpl.
  - split; [constructor|reflexivity].
  - split.
    + intros H. apply app_eq_nil in H as [Ha Hl]. constructor; [exact Ha|apply IH, Hl].
    + intros H. inversion H as [|a' l' Ha Hl]; subst. rewrite Ha. apply IH, Hl.
Qed.

(** X9.  Whatever the class, an input validates if and only if every
    field validates on its own: there is no check of the record as a
    whole that could reject a combination of values each field accepts. *)
Theorem a_class_validates_when_each_field_does now (m : model) (d : dict) :
  (exists r, validate_model now m d = Ok r)
  <-> Forall (fun f => exists x, validate_field (validate now) now d [] f = Ok x) m.
Proof.
  assert (Hfield : forall f,
            field_errors now d f = []
            <-> exists x, validate_field (validate now) now d [] f = Ok x).
  { intros f. unfold field_errors.
    destruct (validate_field (validate now) now d [] f) as [x|es] eqn:Ef; simpl.
    - split; [intros _; exists x; reflexivity|reflexivity].
    - split.
      + intros ->. apply validate_field_error_nonempty in Ef. contradiction.
      + intros [x Hx]. discriminate Hx. }
  assert (Herrors : errors_of (validate_model now m d) = []
                    <-> exists r, validate_model now m d = Ok r).
  { destruct (validate_model now m d) as [r|es] eqn:E; simpl.
    - split; [intros _; exists r; reflexivity|reflexivity].
    - split.
      + intros ->. apply validate_error_nonempty in E. contradiction.
      + intros [r Hr]. discriminate Hr. }
  rewrite <- Herrors, validate_model_errors, flat_map_nil.
  split; intros H; rewrite Forall_forall in H |- *; intros f Hf; apply Hfield, H, Hf.
Qed.

(** X10.  Every validated [QueryRequest] has a query of one character or
    more, which is the string the input holds under [query], unchanged: a
    query that is absent, [None], not a string or empty is rejected. *)
Theorem query_request_has_a_query now (d : dict) (r : value) :
  validate_model now QueryRequest d = Ok r ->
  exists q fields,
    r = VModel fields
    /\ dict_get d "query" = Some (RStr q)
    /\ 1 <= String.length q
    /\ get_field fields "query" = Some (VStr q).
Proof.
  intros Hr. apply validate_model_ok in Hr as (fields & -> & Hall).
  inversion Hall as [|f1 [n1 x1] m1 vs1 [Hn1 Hx1] Hall1]; subst.
  cbn [fst snd field_name] in *. subst n1.
  apply text_field_ok in Hx1 as (q & Hq & Hlen & ->).
  exists q. eexists. split; [reflexivity|]. split; [exact Hq|].
  split; [exact Hlen|reflexivity].
Qed.

(** The query [x]. *)
Lemma query_request_has_a_query_witness :
  exists q fields,
    VModel [("query", VStr "x"); ("session_id", VNone); ("chat_history", VList [])]
    = VModel fields
    /\ dict_get [("query", RStr "x")] "query" = Some (RStr q)
    /\ 1 <= String.length q
    /\ get_field fields "query" = Some (VStr q).
Proof.
  apply (query_request_has_a_query sample_now [("query", RStr "x")]).
  reflexivity.
Defined.

(** * Every violation, at every depth *)

Lemma errors_of_validate_at now t at_loc v :
  errors_of (validate now t at_loc v) = map (relocate at_loc) (errors_of (validate now t [] v)).
Proof. rewrite validate_relocate. apply errors_of_relocate_result. Qed.

(** Every line is a violation. *)
Lemma lines_are_violations now t :
  forall v e, In e (errors_of (validate now t [] v)) -> violation now t v e.
Proof.
  induction t as [min_length pattern | | | | t IH | t IH | fields IH] using ftype_nested_ind;
    intros v e He.
  - apply violation_scalar; [reflexivity|exact He].
  - apply violation_scalar; [reflexivity|exact He].
  - apply violation_scalar; [reflexivity|exact He].
  - apply violation_scalar; [reflexivity|exact He].
  - cbn [validate] in He. destruct v; try (apply violation_optional; [discriminate|apply IH, He]).
    destruct He.
  - cbn [validate] in He.
    destruct v; try (destruct He as [<-|[]]; apply violation_no_list; discriminate).
    rewrite errors_of_finish in He.
    apply validate_items_errors in He as (i & x & Hx & He).
    rewrite errors_of_validate_at in He. apply in_map_iff in He as (e0 & <- & He0).
    apply (violation_item now t items i x e0 Hx). apply IH, He0.
  - cbn [validate] in He.
    destruct v; try (destruct He as [<-|[]]; apply violation_no_mapping; discriminate).
    rewrite errors_of_finish, validate_fields_errors in He.
    apply in_flat_map in He as (f & Hf & He).
    rewrite Forall_forall in IH. specialize (IH f Hf).
    destruct f as [name annotation dflt]. cbn [validate_field field_annotation app] in He, IH.
    destruct (dict_get entries name) as [v'|] eqn:Hget.
    + rewrite errors_of_validate_at in He. apply in_map_iff in He as (e0 & <- & He0).
      apply (violation_field now fields entries name annotation dflt v' e0 Hf Hget).
      apply IH, He0.
    + destruct dflt as [|x|factory]; [|destruct He|destruct He].
      destruct He as [<-|[]].
      apply (violation_missing now fields entries name annotation Hf Hget).
Qed.

(** Every violation is a line: none is dropped, whatever came before it
    and however deep it lies. *)
Lemma violations_are_lines now t v e :
  violation now t v e -> In e (errors_of (validate now t [] v)).
Proof.
  induction 1 as [t v e _ He
                 | t v e Hv _ IH
                 | t v Hv
                 | t items i x e Hx _ IH
                 | fields v Hv
                 | fields d name t Hf Hget
                 | fields d name t dflt v e Hf Hget _ IH].
  - exact He.
  - cbn [validate]. destruct v; try exact IH. contradiction.
  - cbn [validate]. destruct v; try (left; reflexivity).
    exfalso. apply (Hv items). reflexivity.
  - cbn [validate]. rewrite errors_of_finish.
    apply (validate_items_item_errors (validate now) t [] items 0 i x); [exact Hx|].
    rewrite errors_of_validate_at. apply in_map, IH.
  - cbn [validate]. destruct v; try (left; reflexivity).
    exfalso. apply (Hv entries). reflexivity.
  - cbn [validate]. rewrite errors_of_finish, validate_fields_errors.
    apply in_flat_map. exists (Field name t Required). split; [exact Hf|].
    cbn [validate_field]. rewrite Hget. left. reflexivity.
  - cbn [validate]. rewrite errors_of_finish, validate_fields_errors.
    apply in_flat_map. exists (Field name t dflt). split; [exact Hf|].
    cbn [validate_field app]. rewrite Hget, errors_of_validate_at. apply in_map, IH.
Qed.



(** * Null and absent, ids, histories: for every input *)

(** C9, as amended.  For every input of [QueryRequest], whatever else it
    holds: a [chat_history] given as [None] is accepted (the request
    validates exactly when its query and its [session_id] do) and the
    record's [chat_history] is then [None]; only an absent [chat_history]
    gives the empty list.  The annotation is [Optional], so [None] is a
    value of the field, and the default factory is only called when the
    key is absent. *)
Theorem query_request_null_chat_history now (d : dict) :
  (forall r, validate_model now QueryRequest d = Ok r ->
     exists q session history,
       r = VModel [("query", VStr q); ("session_id", session); ("chat_history", history)]
       /\ (dict_get d "chat_history" = Some RNone -> history = VNone)
       /\ (dict_get d "chat_history" = None -> history = VList []))
  /\ (dict_get d "chat_history" = Some RNone ->
      ((exists r, validate_model now QueryRequest d = Ok r)
       <-> (exists q, dict_get d "query" = Some (RStr q) /\ 1 <= String.length q)
           /\ (dict_get d "session_id" = None
               \/ dict_get d "session_id" = Some RNone
               \/ exists t, dict_get d "session_id" = Some (RStr t)))).
Proof.
  split.
  - intros r Hr. apply validate_model_ok in Hr as (fields & -> & Hall).
    inversion Hall as [|f1 [n1 x1] m1 vs1 [Hn1 Hx1] Hall1]; subst.
    inversion Hall1 as [|f2 [n2 x2] m2 vs2 [Hn2 Hx2] Hall2]; subst.
    inversion Hall2 as [|f3 [n3 x3] m3 vs3 [Hn3 Hx3] Hall3]; subst.
    inversion Hall3; subst. cbn [fst snd field_name] in *. subst.
    apply text_field_ok in Hx1 as (q & _ & _ & ->).
    exists q, x2, x3. split; [reflexivity|].
    apply factory_field_ok in Hx3 as [[Hd ->]|(v & Hd & Hv)].
    + split; [|reflexivity]. intros H. rewrite Hd in H. discriminate H.
    + split.
      * intros H. rewrite Hd in H. injection H as ->.
        cbn [validate] in Hv. injection Hv as <-. reflexivity.
      * intros H. rewrite Hd in H. discriminate H.
  - intros Hnull. split.
    + intros [r Hr]. apply validate_model_ok in Hr as (fields & -> & Hall).
      inversion Hall as [|f1 [n1 x1] m1 vs1 [Hn1 Hx1] Hall1]; subst.
      inversion Hall1 as [|f2 [n2 x2] m2 vs2 [Hn2 Hx2] Hall2]; subst.
      cbn [fst snd field_name] in *.
      apply text_field_ok in Hx1 as (q & Hq & Hlen & _).
      apply optional_str_field_ok in Hx2.
      split; [exists q; split; assumption|].
      destruct Hx2 as [[H _]|[[H _]|(t & H & _)]];
        [left|right; left|right; right; exists t]; exact H.
    + intros [(q & Hq & Hlen) Hsession].
      assert (Hx : exists x, validate_field (validate now) now d []
                     (Field "session_id" (TOptional str) (Default VNone)) = Ok x).
      { destruct Hsession as [H|[H|[t H]]]; eexists; apply optional_str_field_ok;
          [left|right; left|right; right; exists t]; (split; [exact H|reflexivity]). }
      destruct Hx as [x Hx].
      exists (VModel [("query", VStr q); ("session_id", x); ("chat_history", VNone)]).
      apply validate_model_ok. eexists. split; [reflexivity|].
      constructor; [split; [reflexivity|]|].
      { apply text_field_ok. exists q. repeat split; assumption. }
      constructor; [split; [reflexivity|exact Hx]|].
      constructor; [split; [reflexivity|]|constructor].
      cbn [validate_field fst snd]. rewrite Hnull. reflexivity.
Qed.

(** A request with a session and a null history. *)
Lemma query_request_null_chat_history_witness :
  exists q session history,
    VModel [("query", VStr "x"); ("session_id", VStr "s-1"); ("chat_history", VNone)]
    = VModel [("query", VStr q); ("session_id", session); ("chat_history", history)]
    /\ (dict_get [("query", RStr "x"); ("session_id", RStr "s-1"); ("chat_history", RNone)]
          "chat_history" = Some RNone -> history = VNone)
    /\ (dict_get [("query", RStr "x"); ("session_id", RStr "s-1"); ("chat_history", RNone)]
          "chat_history" = None -> history = VList []).
Proof.
  apply (proj1 (query_request_null_chat_history sample_now
                  [("query", RStr "x"); ("session_id", RStr "s-1");
                   ("chat_history", RNone)])).
  reflexivity.
Defined.

(** ** What acceptance depends on *)

Lemma model_ok_iff_fields_ok now (m : model) (d : dict) :
  (exists r, validate_model now m d = Ok r)
  <-> Forall (fun f => exists x, validate_field (validate now) now d [] f = Ok x) m.
Proof.
  split.
  - intros [r Hr]. apply validate_model_ok in Hr as (fields & _ & Hall).
    induction Hall as [|f nv m' vs [_ Hf] _ IH]; constructor; [|exact IH].
    exists (snd nv). exact Hf.
  - intros Hall.
    assert (Hvs : exists vs, Forall2 (field_gives now d) m vs).
    { induction Hall as [|f m' [x Hx] _ [vs IH]].
      - exists []. constructor.
      - exists ((field_name f, x) :: vs). constructor; [split; [reflexivity|exact Hx]|exact IH]. }
    destruct Hvs as [vs Hvs]. exists (VModel vs).
    apply validate_model_ok. exists vs. split; [reflexivity|exact Hvs].
Qed.

Lemma field_ok_agree now (d d' : dict) (f : field) :
  dict_get d' (field_name f) = dict_get d (field_name f) ->
  ((exists x, validate_field (validate now) now d [] f = Ok x)
   <-> (exists x, validate_field (validate now) now d' [] f = Ok x)).
Proof.
  intros Hd. destruct (validate_field_agree (validate now) now d d' [] f Hd) as [Hv _].
  destruct (validate_field (validate now) now d [] f) as [x|es];
    destruct (validate_field (validate now) now d' [] f) as [x'|es'];
    simpl in Hv; try discriminate Hv.
  - split; intros _; eexists; reflexivity.
  - split; intros [y Hy]; discriminate Hy.
Qed.

(** Two inputs that agree except under one key: only the field of that
    key can tell them apart. *)
Lemma model_ok_agree_except now (m : model) (key : string) (d d' : dict) :
  agree_except key d d' ->
  (forall f, In f m -> field_name f = key ->
     ((exists x, validate_field (validate now) now d [] f = Ok x)
      <-> (exists x, validate_field (validate now) now d' [] f = Ok x))) ->
  ((exists r, validate_model now m d = Ok r) <-> (exists r, validate_model now m d' = Ok r)).
Proof.
  intros Hagree Hkey. rewrite !model_ok_iff_fields_ok, !Forall_forall.
  assert (Hf : forall f, In f m ->
            ((exists x, validate_field (validate now) now d [] f = Ok x)
             <-> (exists x, validate_field (validate now) now d' [] f = Ok x))).
  { intros f Hin. destruct (string_dec (field_name f) key) as [Heq|Hne].
    - apply (Hkey f Hin Heq).
    - apply field_ok_agree, Hagree, Hne. }
  split; intros H f Hin; apply (Hf f Hin), H, Hin.
Qed.

Lemma list_ok_iff_items_ok now t at_loc items :
  (exists x, validate now (TList t) at_loc (RList items) = Ok x)
  <-> Forall (fun item => exists v, validate now t [] item = Ok v) items.
Proof.
  cbn [validate].
  pose proof (validate_items_ok now t at_loc items 0) as Hitems.
  destruct (validate_items (validate now) t at_loc 0 items) as [vs es].
  split.
  - intros [x Hx]. apply finish_ok_iff in Hx as [Hnil _]. cbn [snd] in Hnil. subst es.
    assert (Hall : Forall2 (fun item v => validate now t [] item = Ok v) items vs)
      by (apply Hitems; reflexivity).
    clear Hitems. induction Hall as [|item v items' vs' Hv _ IH]; constructor; [|exact IH].
    exists v. exact Hv.
  - intros Hall.
    assert (Hvs : exists vs', Forall2 (fun item v => validate now t [] item = Ok v) items vs').
    { clear Hitems. induction Hall as [|item items' [v Hv] _ [vs' IH]].
      - exists []. constructor.
      - exists (v :: vs'). constructor; assumption. }
    destruct Hvs as [vs' Hvs]. apply Hitems in Hvs. injection Hvs as -> ->.
    exists (VList vs'). reflexivity.
Qed.

(** A source validates or not whatever integer it gives as [id]. *)
Lemma source_ok_whatever_id now (item item' : raw) :
  same_source_but_id item item' ->
  ((exists v, validate now (TModel SourceReference) [] item = Ok v)
   <-> (exists v, validate now (TModel SourceReference) [] item' = Ok v)).
Proof.
  intros (entry & entry' & i & j & -> & -> & Hi & Hj & Hagree).
  apply (model_ok_agree_except now SourceReference "id" entry entry' Hagree).
  intros f Hf Hname.
  assert (Hid : f = Field "id" TInt Required).
  { destruct Hf as [<-|[<-|[<-|[<-|[<-|[<-|[<-|[<-|[]]]]]]]]];
      try reflexivity; discriminate Hname. }
  subst f. cbn [validate_field]. rewrite Hi, Hj.
  split; intros _; eexists; reflexivity.
Qed.

(** C8, as amended.  For every input of [QueryResponse] with a list of
    sources, whatever else it holds: in a validated record the k-th
    [SourceReference] is the k-th source validated on its own, and when
    that source gives an integer as [id] the record holds this very
    integer; and whether the response validates does not depend on the
    integers given as ids, which can be replaced by any others: ids are
    kept as given, in order, and are not checked to be positive, distinct
    or consecutive. *)
Theorem query_response_source_ids_kept now (d : dict) (items : list raw) :
  dict_get d "sources" = Some (RList items) ->
  (forall r, validate_model now QueryResponse d = Ok r ->
     exists fields sources,
       r = VModel fields
       /\ get_field fields "sources" = Some (VList sources)
       /\ Forall2 (fun item v =>
                     validate now (TModel SourceReference) [] item = Ok v
                     /\ forall entry i,
                          item = RDict entry ->
                          dict_get entry "id" = Some (RInt i) ->
                          exists source_fields,
                            v = VModel source_fields
                            /\ get_field source_fields "id" = Some (VInt i))
                  items sources)
  /\ (forall d' items',
        agree_except "sources" d d' ->
        dict_get d' "sources" = Some (RList items') ->
        Forall2 same_source_but_id items items' ->
        ((exists r, validate_model now QueryResponse d = Ok r)
         <-> (exists r', validate_model now QueryResponse d' = Ok r'))).
Proof.
  intros Hsources. split.
  - intros r Hr. apply validate_model_ok in Hr as (fields & -> & Hall).
    inversion Hall as [|f1 [n1 x1] m1 vs1 [Hn1 _] Hall1]; subst.
    inversion Hall1 as [|f2 [n2 x2] m2 vs2 [Hn2 Hx2] Hall2]; subst.
    cbn [fst snd field_name] in *. subst n1 n2.
    apply factory_field_ok in Hx2 as [[Hd _]|(v & Hd & Hv)];
      [rewrite Hsources in Hd; discriminate Hd|].
    rewrite Hsources in Hd. injection Hd as <-.
    apply (validate_ok_anywhere _ _ _ []) in Hv. cbn [validate] in Hv.
    apply finish_ok_iff in Hv as [Hnil ->].
    destruct (validate_items (validate now) (TModel SourceReference) [] 0 items)
      as [sources es] eqn:E.
    cbn [fst snd] in *. subst es. apply validate_items_ok in E.
    eexists. exists sources. split; [reflexivity|]. split; [reflexivity|].
    clear - E. induction E as [|item v items' sources' Hv _ IH]; constructor; [|exact IH].
    split; [exact Hv|]. intros entry i -> Hi.
    apply validate_model_ok in Hv as (source_fields & -> & Hfields).
    exists source_fields. split; [reflexivity|].
    inversion Hfields as [|g1 [k1 y1] g vs [Hk1 Hy1] _]; subst.
    cbn [fst snd field_name] in *. subst k1.
    cbn [validate_field] in Hy1. rewrite Hi in Hy1. injection Hy1 as <-. reflexivity.
  - intros d' items' Hagree Hsources' Hitems.
    apply (model_ok_agree_except now QueryResponse "sources" d d' Hagree).
    intros f Hf Hname.
    assert (Hfield : f = Field "sources" (TList (TModel SourceReference))
                           (DefaultFactory list_factory)).
    { destruct Hf as [<-|[<-|[<-|[<-|[<-|[<-|[<-|[]]]]]]]];
        try reflexivity; discriminate Hname. }
    subst f. cbn [validate_field]. rewrite Hsources, Hsources'.
    rewrite !list_ok_iff_items_ok.
    clear - Hitems. induction Hitems as [|item item' items0 items0' Hsame _ IH].
    + split; constructor.
    + split; intros H; inversion H as [|a l Ha Hl]; subst; constructor;
        try (apply IH; exact Hl); apply (source_ok_whatever_id now item item' Hsame), Ha.
Qed.

(** A response whose three sources give the ids 0, 5 and 5, the last one
    with a [chunk_id]. *)
Lemma query_response_source_ids_kept_witness :
  exists fields sources,
    VModel
      [("answer", VStr "See [1].");
       ("sources", VList
          [VModel [("id", VInt 0); ("text", VStr "a"); ("document", VStr "doc");
                   ("links", VList []); ("images", VList []);
                   ("score", VFloat 0.5%float); ("chunk_id", VNone); ("section", VNone)];
           VModel [("id", VInt 5); ("text", VStr "b"); ("document", VStr "doc");
                   ("links", VList []); ("images", VList []);
                   ("score", VFloat 0.25%float); ("chunk_id", VNone); ("section", VNone)];
           VModel [("id", VInt 5); ("text", VStr "c"); ("document", VStr "doc");
                   ("links", VList []); ("images", VList []);
                   ("score", VFloat 0.125%float); ("chunk_id", VStr "c-9");
                   ("section", VNone)]]);
       ("has_context", VBool true);
       ("general_answer", VStr "none");
       ("timing", VModel [("retrieval_ms", VFloat 1%float); ("rerank_ms", VFloat 2%float);
                          ("llm_ms", VFloat 3%float); ("total_ms", VFloat 6.5%float)]);
       ("token_usage", VNone);
       ("session_id", VStr "s-1")]
    = VModel fields
    /\ get_field fields "sources" = Some (VList sources)
    /\ Forall2 (fun item v =>
                  validate sample_now (TModel SourceReference) [] item = Ok v
                  /\ forall entry i,
                       item = RDict entry ->
                       dict_get entry "id" = Some (RInt i) ->
                       exists source_fields,
                         v = VModel source_fields
                         /\ get_field source_fields "id" = Some (VInt i))
               [RDict [("id", RInt 0); ("text", RStr "a"); ("document", RStr "doc");
                       ("score", RFloat 0.5%float)];
                RDict [("id", RInt 5); ("text", RStr "b"); ("document", RStr "doc");
                       ("score", RFloat 0.25%float)];
                RDict [("id", RInt 5); ("text", RStr "c"); ("document", RStr "doc");
                       ("score", RFloat 0.125%float); ("chunk_id", RStr "c-9")]]
               sources.
Proof.
  apply (proj1 (query_response_source_ids_kept sample_now
                  [("answer", RStr "See [1].");
                   ("sources", RList
                      [RDict [("id", RInt 0); ("text", RStr "a"); ("document", RStr "doc");
                              ("score", RFloat 0.5%float)];
                       RDict [("id", RInt 5); ("text", RStr "b"); ("document", RStr "doc");
                              ("score", RFloat 0.25%float)];
                       RDict [("id", RInt 5); ("text", RStr "c"); ("document", RStr "doc");
                              ("score", RFloat 0.125%float); ("chunk_id", RStr "c-9")]]);
                   ("has_context", RBool true);
                   ("general_answer", RStr "none");
                   ("session_id", RStr "s-1");
                   ("timing", RDict [("retrieval_ms", RFloat 1%float);
                                     ("rerank_ms", RFloat 2%float);
                                     ("llm_ms", RFloat 3%float);
                                     ("total_ms", RFloat 6.5%float)])]
                  _ eq_refl)).
  reflexivity.
Defined.

(** ** Histories, whatever the session *)

(** X4.  The history of a [QueryRequest] is validated entry by entry,
    whatever else the input holds: the request validates exactly when its
    query is a string of one character or more, its [session_id]
    validates and every entry validates as a [ChatMessage], and the record
    then holds the messages in the order of the input; the lines of an
    entry are reported under [chat_history] and the entry's index. *)
Theorem chat_history_validates_entry_by_entry now (d : dict) (items : list raw) :
  dict_get d "chat_history" = Some (RList items) ->
  (forall r,
     validate_model now QueryRequest d = Ok r
     <-> exists q session msgs,
           dict_get d "query" = Some (RStr q)
           /\ 1 <= String.length q
           /\ validate_field (validate now) now d []
                (Field "session_id" (TOptional str) (Default VNone)) = Ok session
           /\ Forall2 (fun x v => validate now (TModel ChatMessage) [] x = Ok v) items msgs
           /\ r = VModel [("query", VStr q); ("session_id", session);
                          ("chat_history", VList msgs)])
  /\ (forall i entry e,
        nth_error items i = Some (RDict entry) ->
        In e (errors_of (validate_model now ChatMessage entry)) ->
        In (relocate [LField "chat_history"; LIndex i] e)
           (errors_of (validate_model now QueryRequest d))).
Proof.
  intros Hhistory.
  assert (Hfield : forall msgs,
            validate_field (validate now) now d []
              (Field "chat_history" (TOptional (TList (TModel ChatMessage)))
                 (DefaultFactory list_factory)) = Ok (VList msgs)
            <-> Forall2 (fun x v => validate now (TModel ChatMessage) [] x = Ok v)
                  items msgs).
  { intros msgs. cbn [validate_field app]. rewrite Hhistory. cbn [validate].
    pose proof (validate_items_ok now (TModel ChatMessage) [LField "chat_history"] items 0)
      as Hitems.
    destruct (validate_items (validate now) (TModel ChatMessage)
                [LField "chat_history"] 0 items) as [vs es].
    rewrite <- Hitems, finish_ok_iff. cbn [fst snd]. split.
    - intros [-> H]. injection H as ->. reflexivity.
    - intros H. injection H as -> ->. split; reflexivity. }
  assert (Hlist : forall x,
            validate_field (validate now) now d []
              (Field "chat_history" (TOptional (TList (TModel ChatMessage)))
                 (DefaultFactory list_factory)) = Ok x ->
            exists msgs, x = VList msgs).
  { intros x. cbn [validate_field app]. rewrite Hhistory. cbn [validate].
    intros H. apply finish_ok_iff in H as [_ ->]. eexists. reflexivity. }
  split.
  - intros r. rewrite validate_model_ok. split.
    + intros (fields & -> & Hall).
      inversion Hall as [|f1 [n1 x1] m1 vs1 [Hn1 Hx1] Hall1]; subst.
      inversion Hall1 as [|f2 [n2 x2] m2 vs2 [Hn2 Hx2] Hall2]; subst.
      inversion Hall2 as [|f3 [n3 x3] m3 vs3 [Hn3 Hx3] Hall3]; subst.
      inversion Hall3; subst. cbn [fst snd field_name] in *. subst.
      apply text_field_ok in Hx1 as (q & Hq & Hlen & ->).
      destruct (Hlist _ Hx3) as [msgs ->].
      exists q, x2, msgs. split; [exact Hq|]. split; [exact Hlen|].
      split; [exact Hx2|]. split; [apply Hfield, Hx3|reflexivity].
    + intros (q & session & msgs & Hq & Hlen & Hsession & Hall & ->).
      eexists. split; [reflexivity|].
      constructor; [split; [reflexivity|]|].
      { apply text_field_ok. exists q. repeat split; assumption. }
      constructor; [split; [reflexivity|exact Hsession]|].
      constructor; [split; [reflexivity|apply Hfield, Hall]|constructor].
  - intros i entry e Hentry He. rewrite validate_model_errors.
    cbn [QueryRequest flat_map]. apply in_or_app. right. apply in_or_app. right.
    apply in_or_app. left.
    unfold field_errors. cbn [validate_field app]. rewrite Hhistory.
    cbn [validate]. rewrite errors_of_finish.
    apply (validate_items_item_errors (validate now) _ _ _ 0 i (RDict entry));
      [exact Hentry|].
    rewrite validate_relocate, errors_of_relocate_result.
    apply in_map. exact He.
Qed.

(** A request with a session, whose second entry has the role [bot]. *)
Lemma chat_history_validates_entry_by_entry_witness :
  In (LineError [LField "chat_history"; LIndex 1; LField "role"]
        string_pattern_mismatch (RStr "bot"))
     (errors_of (validate_model sample_now QueryRequest
        [("query", RStr "What is RAG?");
         ("session_id", RStr "s-1");
         ("chat_history",
          RList [RDict [("role", RStr "user"); ("content", RStr "hi")];
                 RDict [("role", RStr "bot"); ("content", RStr "hello")]])])).
Proof.
  refine (proj2 (chat_history_validates_entry_by_entry sample_now _
            [RDict [("role", RStr "user"); ("content", RStr "hi")];
             RDict [("role", RStr "bot"); ("content", RStr "hello")]] _)
          1 [("role", RStr "bot"); ("content", RStr "hello")]
          (LineError [LField "role"] string_pattern_mismatch (RStr "bot")) _ _).
  - reflexivity.
  - reflexivity.
  - left. reflexivity.
Defined.

(** X5.  A [QueryRequest] with a query of one character or more and a
    [session_id] that validates (absent, [None] or a string), whose history
    is any sequence of turns with the roles [user] and [assistant],
    validates, and the record holds the same turns, as many and in the
    same order. *)
Theorem chat_history_is_kept_in_order now (d : dict) (q : string) (session : value)
    (msgs : list (string * string)) :
  dict_get d "query" = Some (RStr q) ->
  1 <= String.length q ->
  validate_field (validate now) now d []
    (Field "session_id" (TOptional str) (Default VNone)) = Ok session ->
  dict_get d "chat_history" = Some (RList (map raw_message msgs)) ->
  Forall (fun m => fst m = "user" \/ fst m = "assistant") msgs ->
  validate_model now QueryRequest d
  = Ok (VModel [("query", VStr q); ("session_id", session);
                ("chat_history", VList (map chat_message msgs))]).
Proof.
  intros Hq Hlen Hsession Hhistory Hroles.
  assert (Hitems : forall index,
            validate_items (validate now) (TModel ChatMessage) [LField "chat_history"]
              index (map raw_message msgs)
            = (map chat_message msgs, [])).
  { clear Hhistory. induction Hroles as [|m msgs Hm _ IH]; intros index; [reflexivity|].
    cbn [map validate_items]. rewrite IH, (validate_message _ _ _ Hm). reflexivity. }
  apply validate_model_ok. eexists. split; [reflexivity|].
  constructor; [split; [reflexivity|]|].
  { apply text_field_ok. exists q. repeat split; assumption. }
  constructor; [split; [reflexivity|exact Hsession]|].
  constructor; [split; [reflexivity|]|constructor].
  cbn [validate_field app fst snd]. rewrite Hhistory. cbn [validate].
  rewrite Hitems. reflexivity.
Qed.

(** The scenario of the specification, with a session and an answer. *)
Lemma chat_history_is_kept_in_order_witness :
  validate_model sample_now QueryRequest
    [("query", RStr "What is RAG?");
     ("session_id", RStr "s-1");
     ("chat_history", RList (map raw_message [("user", "hi"); ("assistant", "hello")]))]
  = Ok (VModel [("query", VStr "What is RAG?"); ("session_id", VStr "s-1");
                ("chat_history",
                 VList (map chat_message [("user", "hi"); ("assistant", "hello")]))]).
Proof.
  apply (chat_history_is_kept_in_order sample_now _ "What is RAG?" (VStr "s-1")
           [("user", "hi"); ("assistant", "hello")]).
  - reflexivity.
  - simpl. lia.
  - reflexivity.
  - reflexivity.
  - constructor; [left; reflexivity|].
    constructor; [right; reflexivity|constructor].
Defined.

(** * Strings read as numbers *)

(** ** Characters *)

Lemma digit_of_range c d : digit_of c = Some d -> 48 <= nat_of_ascii c <= 57.
Proof.
  unfold digit_of.
  destruct (Nat.leb 48 (nat_of_ascii c) && Nat.leb (nat_of_ascii c) 57) eqn:E; [|discriminate].
  intros _. apply andb_true_iff in E as [E1 E2].
  apply Nat.leb_le in E1, E2. split; assumption.
Qed.

Lemma digit_of_nonneg c d : digit_of c = Some d -> (0 <= d)%Z.
Proof.
  unfold digit_of.
  destruct (Nat.leb 48 (nat_of_ascii c) && Nat.leb (nat_of_ascii c) 57); [|discriminate].
  intros H. injection H as <-. lia.
Qed.

Lemma digit_is_not c d (other : ascii) :
  digit_of c = Some d ->
  nat_of_ascii other < 48 \/ 57 < nat_of_ascii other ->
  Ascii.eqb c other = false.
Proof.
  intros Hc Hother. apply digit_of_range in Hc.
  destruct (Ascii.eqb_spec c other) as [->|_]; [lia|reflexivity].
Qed.

Lemma not_digit (other : ascii) :
  nat_of_ascii other < 48 \/ 57 < nat_of_ascii other -> digit_of other = None.
Proof.
  intros H. destruct (digit_of other) as [d|] eqn:E; [|reflexivity].
  apply digit_of_range in E. lia.
Qed.

Lemma digit_not_whitespace c d : digit_of c = Some d -> is_whitespace c = false.
Proof.
  intros Hc. apply digit_of_range in Hc. unfold is_whitespace. cbv zeta.
  replace (Nat.leb 9 (nat_of_ascii c)) with true by (symmetry; apply Nat.leb_le; lia).
  replace (Nat.leb (nat_of_ascii c) 13) with false by (symmetry; apply Nat.leb_gt; lia).
  replace (Nat.eqb (nat_of_ascii c) 32) with false by (symmetry; apply Nat.eqb_neq; lia).
  replace (Nat.eqb (nat_of_ascii c) 133) with false by (symmetry; apply Nat.eqb_neq; lia).
  replace (Nat.eqb (nat_of_ascii c) 160) with false by (symmetry; apply Nat.eqb_neq; lia).
  reflexivity.
Qed.

Lemma whitespace_not_digit c : is_whitespace c = true -> digit_of c = None.
Proof.
  intros H. destruct (digit_of c) as [d|] eqn:E; [|reflexivity].
  rewrite (digit_not_whitespace _ _ E) in H. discriminate H.
Qed.

Lemma digit_lower c d : digit_of c = Some d -> lower c = c.
Proof.
  intros Hc. apply digit_of_range in Hc. unfold lower.
  replace (Nat.leb (nat_of_ascii c) 90) with true by (symmetry; apply Nat.leb_le; lia).
  replace (Nat.leb 65 (nat_of_ascii c)) with false by (symmetry; apply Nat.leb_gt; lia).
  reflexivity.
Qed.

Lemma is_digit_of c : is_digit c = true <-> exists d, digit_of c = Some d.
Proof.
  unfold is_digit. destruct (digit_of c) as [d|]; split.
  - intros _. exists d. reflexivity.
  - reflexivity.
  - discriminate.
  - intros [d H]. discriminate H.
Qed.

Lemma digit_int_char c d : digit_of c = Some d -> int_char c = true.
Proof. intros H. unfold int_char, is_digit. rewrite H. reflexivity. Qed.

Lemma whitespace_int_char c : is_whitespace c = true -> int_char c = true.
Proof. intros H. unfold int_char. rewrite H, !orb_true_r. reflexivity. Qed.

Lemma int_char_float_char c : int_char c = true -> float_char c = true.
Proof. intros H. unfold float_char. rewrite H. reflexivity. Qed.

(** ** Strings *)

Lemma append_empty s : (s ++ "")%string = s.
Proof. induction s as [|c s IH]; [reflexivity|]. simpl. rewrite IH. reflexivity. Qed.

Lemma append_assoc (a b c : string) : ((a ++ b) ++ c = a ++ (b ++ c))%string.
Proof. induction a as [|x a IH]; [reflexivity|]. simpl. rewrite IH. reflexivity. Qed.

Lemma append_length (a b : string) :
  String.length (a ++ b) = String.length a + String.length b.
Proof. induction a as [|x a IH]; [reflexivity|]. simpl. rewrite IH. reflexivity. Qed.

Lemma all_chars_app p (a b : string) :
  all_chars p (a ++ b) = all_chars p a && all_chars p b.
Proof.
  induction a as [|c a IH]; [reflexivity|]. simpl. rewrite IH, andb_assoc. reflexivity.
Qed.

Lemma all_chars_weaken (p q : ascii -> bool) s :
  (forall c, p c = true -> q c = true) ->
  all_chars p s = true -> all_chars q s = true.
Proof.
  intros Hpq. induction s as [|c s IH]; [reflexivity|]. simpl.
  intros H. apply andb_true_iff in H as [Hc Hs].
  rewrite (Hpq _ Hc), (IH Hs). reflexivity.
Qed.

Lemma all_digits_chars s : all_digits s = all_chars is_digit s.
Proof.
  induction s as [|c s IH]; [reflexivity|]. simpl. unfold is_digit.
  destruct (digit_of c); [exact IH|reflexivity].
Qed.

Lemma all_digits_app (a b : string) :
  all_digits (a ++ b) = all_digits a && all_digits b.
Proof. rewrite !all_digits_chars. apply all_chars_app. Qed.

Lemma is_digit_string_all s : is_digit_string s = true -> all_digits s = true.
Proof. destruct s; [discriminate|]. intros H. exact H. Qed.

Lemma all_digits_int_chars s : all_digits s = true -> all_chars int_char s = true.
Proof.
  rewrite all_digits_chars. apply all_chars_weaken.
  intros c H. apply is_digit_of in H as [d H]. apply (digit_int_char _ _ H).
Qed.

Lemma has_digit_tail c s : has_digit s = true -> has_digit (String c s) = true.
Proof. intros H. simpl. destruct (digit_of c); [reflexivity|exact H]. Qed.

Lemma has_digit_app_r (a b : string) : has_digit b = true -> has_digit (a ++ b) = true.
Proof.
  intros H. induction a as [|c a IH]; [exact H|]. simpl.
  destruct (digit_of c); [reflexivity|exact IH].
Qed.

Lemma digit_string_has_digit s : is_digit_string s = true -> has_digit s = true.
Proof.
  destruct s as [|c s]; [discriminate|]. simpl.
  destruct (digit_of c); [reflexivity|discriminate].
Qed.

(** ** Digits and their value *)

Lemma digits_value_some s : forall acc i, digits_value acc s = Some i -> all_digits s = true.
Proof.
  induction s as [|c s IH]; intros acc i; [reflexivity|]. simpl.
  destruct (digit_of c); [apply IH|discriminate].
Qed.

Lemma digits_value_number s :
  all_digits s = true -> forall acc, digits_value acc s = Some (digits_number acc s).
Proof.
  induction s as [|c s IH]; intros Hs acc; [reflexivity|]. simpl in *.
  destruct (digit_of c); [apply IH, Hs|discriminate].
Qed.

Lemma digits_number_nonneg s : forall acc, (0 <= acc)%Z -> (0 <= digits_number acc s)%Z.
Proof.
  induction s as [|c s IH]; intros acc Hacc; [exact Hacc|]. cbn [digits_number].
  destruct (digit_of c) as [d|] eqn:E; [|apply IH, Hacc].
  apply IH. apply digit_of_nonneg in E. lia.
Qed.

Lemma span_digits_spec s :
  forall ds rest, span_digits s = (ds, rest) ->
    s = (ds ++ rest)%string /\ all_digits ds = true.
Proof.
  induction s as [|c s IH]; intros ds rest; simpl.
  - intros H. injection H as <- <-. split; reflexivity.
  - destruct (digit_of c) as [d|] eqn:E.
    + destruct (span_digits s) as [ds' rest'].
      intros H. injection H as <- <-.
      destruct (IH _ _ eq_refl) as [-> Hds]. split; [reflexivity|].
      simpl. rewrite E. exact Hds.
    + intros H. injection H as <- <-. split; reflexivity.
Qed.

Lemma span_digits_digits s : all_digits s = true -> span_digits s = (s, EmptyString).
Proof.
  induction s as [|c s IH]; [reflexivity|]. simpl.
  destruct (digit_of c); [|discriminate]. intros Hs. rewrite (IH Hs). reflexivity.
Qed.

(** ** Trimming *)

Lemma trim_end_cons c s :
  trim_end (String c s)
  = match trim_end s with
    | EmptyString => if is_whitespace c then EmptyString else String c EmptyString
    | t => String c t
    end.
Proof. reflexivity. Qed.

Lemma trim_start_chars p s :
  (forall c, is_whitespace c = true -> p c = true) ->
  all_chars p (trim_start s) = true -> all_chars p s = true.
Proof.
  intros Hp. induction s as [|c s IH]; [reflexivity|]. simpl trim_start.
  destruct (is_whitespace c) eqn:E; [|intros H; exact H].
  intros H. simpl. rewrite (Hp _ E), (IH H). reflexivity.
Qed.

Lemma trim_end_chars p s :
  (forall c, is_whitespace c = true -> p c = true) ->
  all_chars p (trim_end s) = true -> all_chars p s = true.
Proof.
  intros Hp. induction s as [|c s IH]; [reflexivity|]. rewrite trim_end_cons.
  destruct (trim_end s) as [|c' t].
  - destruct (is_whitespace c) eqn:E.
    + intros _. simpl. rewrite (Hp _ E), IH; reflexivity.
    + simpl. rewrite andb_true_r. intros ->. rewrite IH; reflexivity.
  - intros H. change (p c && all_chars p (String c' t) = true) in H.
    apply andb_true_iff in H as [Hc H]. simpl. rewrite Hc, (IH H). reflexivity.
Qed.

Lemma trim_chars p s :
  (forall c, is_whitespace c = true -> p c = true) ->
  all_chars p (trim s) = true -> all_chars p s = true.
Proof.
  intros Hp H. apply (trim_start_chars _ _ Hp), (trim_end_chars _ _ Hp), H.
Qed.

Lemma has_digit_trim_start s : has_digit (trim_start s) = true -> has_digit s = true.
Proof.
  induction s as [|c s IH]; [discriminate|]. simpl trim_start.
  destruct (is_whitespace c); [|intros H; exact H].
  intros H. apply has_digit_tail, IH, H.
Qed.

Lemma has_digit_trim_end s : has_digit (trim_end s) = true -> has_digit s = true.
Proof.
  induction s as [|c s IH]; [discriminate|]. rewrite trim_end_cons. simpl has_digit at 2.
  destruct (digit_of c) as [dc|] eqn:Ec.
  - intros _. reflexivity.
  - destruct (trim_end s) as [|c' t].
    + destruct (is_whitespace c); simpl; [discriminate|]. rewrite Ec. discriminate.
    + simpl. rewrite Ec. exact IH.
Qed.

Lemma has_digit_trim s : has_digit (trim s) = true -> has_digit s = true.
Proof. intros H. apply has_digit_trim_start, has_digit_trim_end, H. Qed.

Lemma trim_end_idem s : trim_end (trim_end s) = trim_end s.
Proof.
  induction s as [|c s IH]; [reflexivity|]. rewrite (trim_end_cons c s).
  destruct (trim_end s) as [|c' t] eqn:E.
  - destruct (is_whitespace c) eqn:Ec; [reflexivity|].
    rewrite trim_end_cons. simpl. rewrite Ec. reflexivity.
  - rewrite trim_end_cons, IH. reflexivity.
Qed.

Lemma trim_start_head s :
  match trim_start s with
  | EmptyString => True
  | String c _ => is_whitespace c = false
  end.
Proof.
  induction s as [|c s IH]; [exact I|]. simpl.
  destruct (is_whitespace c) eqn:E; [exact IH|exact E].
Qed.

Lemma trim_end_head c s :
  is_whitespace c = false -> exists t, trim_end (String c s) = String c t.
Proof.
  intros E. rewrite trim_end_cons.
  destruct (trim_end s); [rewrite E|]; eexists; reflexivity.
Qed.

Lemma trim_idem s : trim (trim s) = trim s.
Proof.
  unfold trim. pose proof (trim_start_head s) as H.
  destruct (trim_start s) as [|c r]; [reflexivity|].
  destruct (trim_end_head c r H) as [t Et]. rewrite Et.
  simpl trim_start. rewrite H, <- Et. apply trim_end_idem.
Qed.

Lemma trim_start_pad (pad s : string) :
  all_chars is_whitespace pad = true -> trim_start (pad ++ s) = trim_start s.
Proof.
  induction pad as [|c pad IH]; [reflexivity|]. simpl.
  intros H. apply andb_true_iff in H as [-> H]. apply IH, H.
Qed.

Lemma trim_end_whitespace pad :
  all_chars is_whitespace pad = true -> trim_end pad = EmptyString.
Proof.
  induction pad as [|c pad IH]; [reflexivity|]. simpl.
  intros H. apply andb_true_iff in H as [Hc H]. rewrite (IH H), Hc. reflexivity.
Qed.

Lemma trim_end_pad (s pad : string) :
  all_chars is_whitespace pad = true -> trim_end (s ++ pad) = trim_end s.
Proof.
  intros H. induction s as [|c s IH]; [apply trim_end_whitespace, H|].
  simpl. rewrite IH. reflexivity.
Qed.

Lemma trim_end_digits s : all_digits s = true -> trim_end s = s.
Proof.
  induction s as [|c s IH]; [reflexivity|]. simpl.
  destruct (digit_of c) as [dc|] eqn:Ec; [|discriminate].
  intros Hs. rewrite (IH Hs). destruct s; [|reflexivity].
  rewrite (digit_not_whitespace _ _ Ec). reflexivity.
Qed.

Lemma trim_end_solid body :
  all_chars (fun c => negb (is_whitespace c)) body = true -> trim_end body = body.
Proof.
  induction body as [|c body IH]; [reflexivity|]. cbn [all_chars].
  intros H. apply andb_true_iff in H as [Hc H]. apply negb_true_iff in Hc.
  rewrite trim_end_cons, (IH H), Hc. destruct body; reflexivity.
Qed.

(** A text without white space, and white space around it: trimmed, the
    text. *)
Lemma trim_padded (pad body pad' : string) :
  all_chars is_whitespace pad = true ->
  all_chars is_whitespace pad' = true ->
  all_chars (fun c => negb (is_whitespace c)) body = true ->
  trim (pad ++ body ++ pad') = body.
Proof.
  intros Hpad Hpad' Hbody. unfold trim. rewrite (trim_start_pad _ _ Hpad).
  destruct body as [|c body].
  - cbn [append]. clear Hbody. induction pad' as [|x pad' IH]; [reflexivity|].
    cbn [all_chars] in Hpad'. apply andb_true_iff in Hpad' as [Hx Hpad'].
    cbn [trim_start]. rewrite Hx. apply IH, Hpad'.
  - pose proof Hbody as Hc. cbn [all_chars] in Hc.
    apply andb_true_iff in Hc as [Hc _]. apply negb_true_iff in Hc.
    cbn [append trim_start]. rewrite Hc.
    change (String c (body ++ pad')) with (String c body ++ pad')%string.
    rewrite (trim_end_pad _ _ Hpad'). apply trim_end_solid, Hbody.
Qed.

Lemma trim_solid body :
  all_chars (fun c => negb (is_whitespace c)) body = true -> trim body = body.
Proof.
  intros H. pose proof (trim_padded EmptyString body EmptyString eq_refl eq_refl H) as E.
  cbn [append] in E. rewrite append_empty in E. exact E.
Qed.

Lemma all_digits_solid s :
  all_digits s = true -> all_chars (fun c => negb (is_whitespace c)) s = true.
Proof.
  rewrite all_digits_chars. apply all_chars_weaken.
  intros c H. apply is_digit_of in H as [d H].
  rewrite (digit_not_whitespace _ _ H). reflexivity.
Qed.

(** ** What the integer parser reads *)

Lemma no_point_fraction s : after_point s = None -> fraction_of_zeros s = true.
Proof. unfold fraction_of_zeros. intros ->. reflexivity. Qed.

Lemma all_digits_no_point s :
  all_digits s = true -> after_point s = None /\ before_point s = s.
Proof.
  induction s as [|c s IH]; [split; reflexivity|]. simpl.
  destruct (digit_of c) as [d|] eqn:E; [|discriminate]. intros Hs.
  rewrite (digit_is_not _ _ "." E) by (left; vm_compute; lia).
  destruct (IH Hs) as [-> ->]. split; reflexivity.
Qed.

Lemma all_zeros_int_chars s : all_zeros s = true -> all_chars int_char s = true.
Proof.
  induction s as [|c s IH]; [reflexivity|]. simpl.
  intros H. apply andb_true_iff in H as [Hc Hs].
  apply Ascii.eqb_eq in Hc as ->. rewrite (IH Hs). reflexivity.
Qed.

(** One character more in front, that is no point and adds nothing to
    the number. *)
Lemma number_text_cons c s n :
  int_char c = true -> Ascii.eqb c "." = false ->
  digit_of c = None \/ digit_of c = Some 0%Z ->
  number_text s n -> number_text (String c s) n.
Proof.
  intros Hc Hp Hd (Hchars & Hdigit & Hfrac & Hn).
  unfold number_text, fraction_of_zeros in *.
  cbn [all_chars has_digit after_point before_point].
  rewrite Hc, Hp, Hchars. cbn [digits_number]. split; [reflexivity|].
  split; [destruct (digit_of c); [reflexivity|exact Hdigit]|].
  split; [exact Hfrac|]. destruct Hd as [-> | ->]; exact Hn.
Qed.

Lemma number_text_tail c s n :
  Ascii.eqb c "." = false -> digit_of c = None ->
  number_text (String c s) n /\ after_point (String c s) = None ->
  number_text s n /\ after_point s = None.
Proof.
  intros Hp Hd [(Hchars & Hdigit & Hfrac & Hn) Hpoint].
  unfold number_text, fraction_of_zeros in *.
  cbn [all_chars has_digit after_point before_point] in *.
  rewrite Hp in *. cbn [digits_number] in *. rewrite Hd in *.
  apply andb_true_iff in Hchars as [_ Hchars]. repeat split; assumption.
Qed.

Lemma number_text_unsigned negative s n :
  number_text (with_sign negative s) n /\ after_point (with_sign negative s) = None ->
  number_text s n /\ after_point s = None.
Proof.
  destruct negative; [|intros H; exact H].
  apply number_text_tail; reflexivity.
Qed.

Lemma number_text_signed negative s n :
  number_text s n -> number_text (with_sign negative s) n.
Proof.
  destruct negative; [|intros H; exact H].
  apply number_text_cons; [reflexivity|reflexivity|left; reflexivity].
Qed.

Lemma number_text_prefix (pre s : string) n :
  all_chars (fun c => Ascii.eqb c "0" || Ascii.eqb c "_") pre = true ->
  number_text s n -> number_text (pre ++ s) n.
Proof.
  intros Hpre Hs. induction pre as [|c pre IH]; [exact Hs|].
  cbn [all_chars] in Hpre. apply andb_true_iff in Hpre as [Hc Hpre].
  cbn [append]. specialize (IH Hpre).
  destruct (Ascii.eqb_spec c "0") as [-> | _].
  - apply number_text_cons; [reflexivity|reflexivity|right; reflexivity|exact IH].
  - destruct (Ascii.eqb_spec c "_") as [-> | _]; [|discriminate Hc].
    apply number_text_cons; [reflexivity|reflexivity|left; reflexivity|exact IH].
Qed.

(** What the parser reads is an optional minus and digits, and the
    number is the one the digits denote. *)
Lemma parse_number_int_shape u i :
  parse_number_int u = inr i ->
  exists negative ds,
    u = with_sign negative ds /\ is_digit_string ds = true
    /\ digits_value 0 ds = Some (Z.abs i)
    /\ ((i < 0)%Z -> negative = true).
Proof.
  assert (Hbody : forall (negative : bool) (body : string),
            (let (digits, rest) := span_digits body in
             match digits with
             | EmptyString => @inl error_type Z int_parsing
             | String c ds =>
                 if Ascii.eqb c "0" then
                   match ds, rest with
                   | EmptyString, EmptyString => inr 0%Z
                   | _, _ => inl int_parsing
                   end
                 else if Nat.ltb INT_MAX_STR_DIGITS (String.length digits)
                 then inl int_parsing_size
                 else
                   match rest, digits_value 0 digits with
                   | EmptyString, Some j => inr (if negative then Z.opp j else j)
                   | _, _ => inl int_parsing
                   end
             end) = inr i ->
            is_digit_string body = true /\ digits_value 0 body = Some (Z.abs i)
            /\ ((i < 0)%Z -> negative = true)).
  { intros negative body.
    destruct (span_digits body) as [digits rest] eqn:E.
    apply span_digits_spec in E as [-> Hds].
    destruct digits as [|x ds]; [discriminate|].
    destruct (Ascii.eqb_spec x "0") as [-> | _].
    - destruct ds; [|discriminate]. destruct rest; [|discriminate].
      intros H. injection H as <-. split; [reflexivity|]. split; [reflexivity|intros Hlt; exfalso; lia].
    - destruct (Nat.ltb INT_MAX_STR_DIGITS (String.length (String x ds))); [discriminate|].
      destruct rest; [|discriminate]. rewrite append_empty.
      rewrite (digits_value_number _ Hds).
      pose proof (digits_number_nonneg (String x ds) 0 ltac:(lia)) as Hpos.
      generalize dependent (digits_number 0 (String x ds)). intros v Hpos.
      intros H. injection H as <-. split; [exact Hds|].
      split; [f_equal; destruct negative; lia|].
      destruct negative; [reflexivity|intros Hlt; exfalso; lia]. }
  unfold parse_number_int. destruct u as [|c s'].
  - intros H. destruct (Hbody false EmptyString H) as [H' _]. discriminate H'.
  - destruct (Ascii.eqb_spec c "-") as [-> | _]; intros H.
    + exists true, s'. split; [reflexivity|]. apply (Hbody true), H.
    + exists false, (String c s'). split; [reflexivity|]. apply (Hbody false), H.
Qed.

Lemma parse_number_int_reads u i :
  parse_number_int u = inr i ->
  number_text u (Z.abs i) /\ after_point u = None.
Proof.
  intros H. apply parse_number_int_shape in H as (negative & ds & -> & Hds & Hvalue & _).
  pose proof (is_digit_string_all _ Hds) as Hall.
  destruct (all_digits_no_point _ Hall) as [Hpoint Hbefore].
  assert (Htext : number_text ds (Z.abs i)).
  { unfold number_text. rewrite Hbefore.
    rewrite (digits_value_number _ Hall) in Hvalue. injection Hvalue as Hvalue.
    repeat split.
    - apply all_digits_int_chars, Hall.
    - apply digit_string_has_digit, Hds.
    - apply no_point_fraction, Hpoint.
    - symmetry. exact Hvalue. }
  split; [apply number_text_signed, Htext|].
  destruct negative; [|exact Hpoint]. exact Hpoint.
Qed.

Lemma parse_number_int_rule u rule :
  parse_number_int u = inl rule -> rule = int_parsing \/ rule = int_parsing_size.
Proof.
  unfold parse_number_int. intros H.
  repeat match type of H with
         | context [match ?x with _ => _ end] => destruct x
         end;
    try discriminate H; injection H as <-; auto.
Qed.

Lemma str_as_int_rule s rule :
  str_as_int s = inl rule -> rule = int_parsing \/ rule = int_parsing_size.
Proof.
  unfold str_as_int. cbv zeta.
  destruct (clean_int_str (trim s)); apply parse_number_int_rule.
Qed.

(** ** The steps of cleaning, backwards *)

Lemma remove_underscores_reads s n :
  number_text (remove_underscores s) n /\ after_point (remove_underscores s) = None ->
  number_text s n /\ after_point s = None.
Proof.
  intros [(Hchars & Hdigit & _ & Hn) Hpoint].
  assert (Hp : after_point s = None).
  { clear Hchars Hdigit Hn. induction s as [|c s IH]; [reflexivity|].
    cbn [remove_underscores] in Hpoint.
    destruct (Ascii.eqb_spec c "_") as [-> | _]; [exact (IH Hpoint)|].
    cbn [after_point] in *. destruct (Ascii.eqb c "."); [discriminate Hpoint|].
    exact (IH Hpoint). }
  split; [|exact Hp]. repeat split.
  - clear Hdigit Hn Hpoint Hp. induction s as [|c s IH]; [reflexivity|].
    cbn [remove_underscores] in Hchars.
    destruct (Ascii.eqb_spec c "_") as [-> | _].
    + cbn [all_chars]. rewrite (IH Hchars). reflexivity.
    + cbn [all_chars] in *. apply andb_true_iff in Hchars as [-> Hchars].
      rewrite (IH Hchars). reflexivity.
  - clear Hchars Hn Hpoint Hp. induction s as [|c s IH]; [discriminate Hdigit|].
    cbn [remove_underscores] in Hdigit.
    destruct (Ascii.eqb_spec c "_") as [-> | _].
    + apply has_digit_tail, IH, Hdigit.
    + cbn [has_digit] in *. destruct (digit_of c); [reflexivity|exact (IH Hdigit)].
  - apply no_point_fraction, Hp.
  - rewrite Hn. clear. generalize 0%Z as acc.
    induction s as [|c s IH]; intros acc; [reflexivity|].
    cbn [remove_underscores].
    destruct (Ascii.eqb_spec c "_") as [-> | _]; [apply IH|].
    cbn [before_point]. destruct (Ascii.eqb c "."); [reflexivity|].
    cbn [digits_number]. destruct (digit_of c); apply IH.
Qed.

Lemma strip_decimal_zeros_reads s n :
  number_text (strip_decimal_zeros s) n /\ after_point (strip_decimal_zeros s) = None ->
  number_text s n.
Proof.
  intros [(Hchars & Hdigit & _ & Hn) Hpoint]. repeat split.
  - clear Hdigit Hn Hpoint. induction s as [|c s IH]; [reflexivity|].
    cbn [strip_decimal_zeros] in Hchars.
    destruct (Ascii.eqb_spec c ".") as [-> | _].
    + destruct s as [|c' s']; [exact Hchars|].
      destruct (all_zeros (String c' s')) eqn:Ez; [|exact Hchars].
      change (int_char "." && all_chars int_char (String c' s') = true).
      rewrite (all_zeros_int_chars _ Ez). reflexivity.
    + cbn [all_chars] in *. apply andb_true_iff in Hchars as [-> Hchars].
      rewrite (IH Hchars). reflexivity.
  - clear Hchars Hn Hpoint. induction s as [|c s IH]; [discriminate Hdigit|].
    cbn [strip_decimal_zeros] in Hdigit.
    destruct (Ascii.eqb_spec c ".") as [-> | _].
    + destruct s as [|c' s']; [exact Hdigit|].
      destruct (all_zeros (String c' s')); [discriminate Hdigit|exact Hdigit].
    + cbn [has_digit] in *. destruct (digit_of c); [reflexivity|exact (IH Hdigit)].
  - clear Hchars Hdigit Hn. unfold fraction_of_zeros.
    induction s as [|c s IH]; [reflexivity|].
    cbn [strip_decimal_zeros] in Hpoint. cbn [after_point].
    destruct (Ascii.eqb_spec c ".") as [-> | Hc].
    + destruct s as [|c' s']; [discriminate Hpoint|].
      destruct (all_zeros (String c' s')) eqn:Ez; [reflexivity|discriminate Hpoint].
    + cbn [after_point] in Hpoint.
      destruct (Ascii.eqb_spec c ".") as [-> | _]; [contradiction|].
      exact (IH Hpoint).
  - rewrite Hn. clear. f_equal.
    induction s as [|c s IH]; [reflexivity|].
    cbn [strip_decimal_zeros before_point].
    destruct (Ascii.eqb_spec c ".") as [-> | Hc].
    + destruct s as [|c' s']; [reflexivity|].
      destruct (all_zeros (String c' s')); reflexivity.
    + cbn [before_point].
      destruct (Ascii.eqb_spec c ".") as [-> | _]; [contradiction|].
      rewrite IH. reflexivity.
Qed.

Lemma skip_zeros_prefix s :
  forall prev z,
    Ascii.eqb prev "0" || Ascii.eqb prev "_" = true ->
    skip_zeros prev s = Some z ->
    exists pre, String prev s = (pre ++ z)%string
                /\ all_chars (fun c => Ascii.eqb c "0" || Ascii.eqb c "_") pre = true.
Proof.
  induction s as [|c s IH]; intros prev z Hprev; cbn [skip_zeros].
  - intros H. injection H as <-. exists EmptyString. split; reflexivity.
  - destruct (Ascii.eqb c "0" || Ascii.eqb c "_") eqn:Ec.
    + intros H. destruct (IH c z Ec H) as (pre & E & Hpre).
      exists (String prev pre). cbn [append all_chars].
      rewrite E, Hprev, Hpre. split; reflexivity.
    + destruct (is_nonzero_digit c || Ascii.eqb c "-").
      * intros H. injection H as <-. exists (String prev EmptyString).
        cbn [append all_chars]. rewrite Hprev. split; reflexivity.
      * destruct (Ascii.eqb c "."); [|discriminate].
        intros H. injection H as <-. exists EmptyString. split; reflexivity.
Qed.

Lemma strip_leading_zeros_prefix s z :
  strip_leading_zeros s = Some z ->
  exists pre, s = (pre ++ z)%string
              /\ all_chars (fun c => Ascii.eqb c "0" || Ascii.eqb c "_") pre = true.
Proof.
  destruct s as [|c s]; [discriminate|]. cbn [strip_leading_zeros].
  destruct (Ascii.eqb_spec c "0") as [-> | _].
  - apply skip_zeros_prefix. reflexivity.
  - destruct (is_nonzero_digit c || Ascii.eqb c "-"); [|discriminate].
    intros H. injection H as <-. exists EmptyString. split; reflexivity.
Qed.

Lemma strip_minus_sign s negative s' :
  strip_minus s = Some (negative, s') -> s = with_sign negative s'.
Proof.
  destruct s as [|c s1]; cbn [strip_minus].
  - intros H. injection H as <- <-. reflexivity.
  - destruct (Ascii.eqb_spec c "-") as [-> | _].
    + destruct s1 as [|c' s2].
      * intros H. injection H as <- <-. reflexivity.
      * destruct (Ascii.eqb c' "-" || Ascii.eqb c' "+"); [discriminate|].
        intros H. injection H as <- <-. reflexivity.
    + intros H. injection H as <- <-. reflexivity.
Qed.

Lemma strip_plus_sign s s' :
  strip_plus s = Some s' -> s = s' \/ s = String "+" s'.
Proof.
  destruct s as [|c s1]; cbn [strip_plus].
  - intros H. injection H as <-. left. reflexivity.
  - destruct (Ascii.eqb_spec c "+") as [-> | _].
    + destruct s1 as [|c' s2].
      * intros H. injection H as <-. right. reflexivity.
      * destruct (Ascii.eqb c' "-"); [discriminate|].
        intros H. injection H as <-. right. reflexivity.
    + intros H. injection H as <-. left. reflexivity.
Qed.

(** What the parser reads in the cleaned text, the text itself says. *)
Lemma clean_int_str_reads t u i :
  clean_int_str t = Some u -> parse_number_int u = inr i ->
  number_text (trim t) (Z.abs i).
Proof.
  unfold clean_int_str. intros Hclean Hparse.
  destruct (strip_plus (trim t)) as [s0|] eqn:E0; [|discriminate].
  destruct (strip_minus s0) as [[negative s1]|] eqn:E1; [|discriminate].
  destruct (strip_leading_zeros s1) as [s2|] eqn:E2; [|discriminate].
  cbv zeta in Hclean. apply parse_number_int_reads in Hparse.
  assert (H3 : number_text (strip_decimal_zeros s2) (Z.abs i)
               /\ after_point (strip_decimal_zeros s2) = None).
  { unfold strip_underscores in Hclean.
    destruct (has_underscore (strip_decimal_zeros s2)
              && underscores_inside false (strip_decimal_zeros s2)).
    - injection Hclean as <-.
      apply remove_underscores_reads, (number_text_unsigned negative), Hparse.
    - destruct (Nat.eqb (String.length t) (String.length (strip_decimal_zeros s2)));
        [discriminate|].
      injection Hclean as <-. apply (number_text_unsigned negative), Hparse. }
  apply strip_decimal_zeros_reads in H3.
  apply strip_leading_zeros_prefix in E2 as (pre & -> & Hpre).
  apply (number_text_prefix _ _ _ Hpre) in H3.
  apply strip_minus_sign in E1. apply (number_text_signed negative) in H3.
  rewrite <- E1 in H3.
  apply strip_plus_sign in E0 as [-> | ->]; [exact H3|].
  apply number_text_cons; [reflexivity|reflexivity|left; reflexivity|exact H3].
Qed.

(** No silent guess: a string read as the integer [i] is the text of
    [i]. *)
Lemma str_as_int_reads s i :
  str_as_int s = inr i ->
  number_text (trim s) (Z.abs i)
  /\ all_chars int_char s = true /\ has_digit s = true.
Proof.
  unfold str_as_int. cbv zeta. intros H.
  assert (Htext : number_text (trim s) (Z.abs i)).
  { destruct (clean_int_str (trim s)) as [u|] eqn:E.
    - rewrite <- trim_idem. apply (clean_int_str_reads _ _ _ E H).
    - apply parse_number_int_reads in H as [H _]. exact H. }
  split; [exact Htext|]. destruct Htext as (Hchars & Hdigit & _). split.
  - apply (trim_chars _ _ whitespace_int_char), Hchars.
  - apply has_digit_trim, Hdigit.
Qed.

(** ** The sign *)

Lemma occurs_app c (a b : string) : occurs c (a ++ b) = occurs c a || occurs c b.
Proof.
  induction a as [|x a IH]; [reflexivity|]. cbn [append occurs].
  rewrite IH, orb_assoc. reflexivity.
Qed.

Lemma occurs_tail c x s : occurs c s = true -> occurs c (String x s) = true.
Proof. intros H. cbn [occurs]. rewrite H. apply orb_true_r. Qed.

Lemma occurs_trim_start c s : occurs c (trim_start s) = true -> occurs c s = true.
Proof.
  induction s as [|x s IH]; [discriminate|]. cbn [trim_start].
  destruct (is_whitespace x); [|intros H; exact H].
  intros H. apply occurs_tail, IH, H.
Qed.

Lemma occurs_trim_end c s : occurs c (trim_end s) = true -> occurs c s = true.
Proof.
  induction s as [|x s IH]; [discriminate|]. rewrite trim_end_cons.
  destruct (trim_end s) as [|x' t].
  - destruct (is_whitespace x); [discriminate|].
    cbn [occurs]. rewrite orb_false_r. intros ->. reflexivity.
  - intros H. change (Ascii.eqb x c || occurs c (String x' t) = true) in H.
    cbn [occurs]. apply orb_true_iff in H as [-> | H]; [reflexivity|].
    rewrite (IH H). apply orb_true_r.
Qed.

Lemma occurs_trim c s : occurs c (trim s) = true -> occurs c s = true.
Proof. intros H. apply occurs_trim_start, occurs_trim_end, H. Qed.

Lemma occurs_remove_underscores c s :
  occurs c (remove_underscores s) = true -> occurs c s = true.
Proof.
  induction s as [|x s IH]; [discriminate|]. cbn [remove_underscores].
  destruct (Ascii.eqb x "_"); [intros H; apply occurs_tail, IH, H|].
  cbn [occurs]. intros H. apply orb_true_iff in H as [-> | H]; [reflexivity|].
  rewrite (IH H). apply orb_true_r.
Qed.

Lemma occurs_strip_decimal_zeros c s :
  occurs c (strip_decimal_zeros s) = true -> occurs c s = true.
Proof.
  induction s as [|x s IH]; [discriminate|]. cbn [strip_decimal_zeros].
  destruct (Ascii.eqb x ".").
  - destruct s as [|x' s']; [intros H; exact H|].
    destruct (all_zeros (String x' s')); [discriminate|intros H; exact H].
  - cbn [occurs]. intros H. apply orb_true_iff in H as [-> | H]; [reflexivity|].
    rewrite (IH H). apply orb_true_r.
Qed.

Lemma occurs_with_sign negative s :
  occurs "-" (with_sign negative s) = true -> negative = true \/ occurs "-" s = true.
Proof. destruct negative; [left; reflexivity|right; assumption]. Qed.

Lemma clean_int_str_minus t u :
  clean_int_str t = Some u -> occurs "-" u = true -> occurs "-" (trim t) = true.
Proof.
  unfold clean_int_str. intros Hclean Hu.
  destruct (strip_plus (trim t)) as [s0|] eqn:E0; [|discriminate].
  destruct (strip_minus s0) as [[negative s1]|] eqn:E1; [|discriminate].
  destruct (strip_leading_zeros s1) as [s2|] eqn:E2; [|discriminate].
  cbv zeta in Hclean.
  assert (H0 : occurs "-" s0 = true).
  { apply strip_minus_sign in E1 as ->.
    assert (H3 : negative = true \/ occurs "-" (strip_decimal_zeros s2) = true).
    { unfold strip_underscores in Hclean.
      destruct (has_underscore (strip_decimal_zeros s2)
                && underscores_inside false (strip_decimal_zeros s2)).
      - injection Hclean as <-.
        destruct (occurs_with_sign _ _ Hu) as [H | H]; [left; exact H|right].
        apply occurs_remove_underscores, H.
      - destruct (Nat.eqb (String.length t) (String.length (strip_decimal_zeros s2)));
          [discriminate|].
        injection Hclean as <-. apply occurs_with_sign, Hu. }
    destruct H3 as [-> | H3]; [reflexivity|].
    apply occurs_strip_decimal_zeros in H3.
    apply strip_leading_zeros_prefix in E2 as (pre & -> & _).
    destruct negative; [reflexivity|]. cbn [with_sign].
    rewrite occurs_app, H3. apply orb_true_r. }
  apply strip_plus_sign in E0 as [-> | ->]; [exact H0|apply occurs_tail, H0].
Qed.

(** A negative integer is only read where a minus stands. *)
Lemma str_as_int_minus s i :
  str_as_int s = inr i -> (i < 0)%Z -> occurs "-" s = true.
Proof.
  unfold str_as_int. cbv zeta. intros H Hi. apply occurs_trim.
  assert (Hu : forall u, parse_number_int u = inr i -> occurs "-" u = true).
  { intros u Hu. apply parse_number_int_shape in Hu as (negative & ds & -> & _ & _ & Hn).
    rewrite (Hn Hi). reflexivity. }
  destruct (clean_int_str (trim s)) as [u|] eqn:E; [|apply Hu, H].
  rewrite <- trim_idem. apply (clean_int_str_minus _ _ E), Hu, H.
Qed.

(** ** Decimal texts are read *)

Lemma digit_zero_or_nonzero c d :
  digit_of c = Some d -> c = "0"%char \/ is_nonzero_digit c = true.
Proof.
  intros H. apply digit_of_range in H.
  destruct (Ascii.eqb_spec c "0") as [-> | Hne]; [left; reflexivity|right].
  assert (Hn : nat_of_ascii c <> 48).
  { intros E. apply Hne. rewrite <- (ascii_nat_embedding c), E. reflexivity. }
  unfold is_nonzero_digit. cbv zeta.
  apply andb_true_iff. split; apply Nat.leb_le; lia.
Qed.

(** A sign, digits and a fraction hold no white space. *)
Lemma decimal_solid (sign digits frac : string) :
  sign = EmptyString \/ sign = "+"%string \/ sign = "-"%string ->
  all_digits digits = true ->
  (frac = EmptyString \/ exists fd, frac = String "." fd /\ all_digits fd = true) ->
  all_chars (fun c => negb (is_whitespace c)) (sign ++ digits ++ frac) = true.
Proof.
  intros Hsign Hdigits Hfrac. rewrite !all_chars_app, (all_digits_solid _ Hdigits).
  assert (H1 : all_chars (fun c => negb (is_whitespace c)) sign = true)
    by (destruct Hsign as [-> | [-> | ->]]; reflexivity).
  assert (H2 : all_chars (fun c => negb (is_whitespace c)) frac = true).
  { destruct Hfrac as [-> | (fd & -> & Hfd)]; [reflexivity|].
    cbn [all_chars]. rewrite (all_digits_solid _ Hfd). reflexivity. }
  rewrite H1, H2. reflexivity.
Qed.

Lemma all_zeros_digits s : all_zeros s = true -> all_digits s = true.
Proof.
  induction s as [|c s IH]; [reflexivity|]. cbn [all_zeros all_digits].
  intros H. apply andb_true_iff in H as [Hc H]. apply Ascii.eqb_eq in Hc as ->.
  exact (IH H).
Qed.

Lemma skip_zeros_digits (s frac : string) :
  all_digits s = true ->
  (frac = EmptyString \/ exists r, frac = String "." r) ->
  exists z, skip_zeros "0" (s ++ frac) = Some (z ++ frac)%string
    /\ all_digits z = true
    /\ digits_number 0 z = digits_number 0 s
    /\ (z = "0"%string \/ exists c z', z = String c z' /\ is_nonzero_digit c = true)
    /\ (z = String "0" s \/ String.length z <= String.length s).
Proof.
  intros Hs Hfrac. induction s as [|c s IH]; cbn [append skip_zeros all_digits] in *.
  - exists "0"%string.
    split; [destruct Hfrac as [-> | [r ->]]; reflexivity|].
    repeat split; left; reflexivity.
  - destruct (digit_of c) as [dc|] eqn:Ec; [|discriminate].
    destruct (digit_zero_or_nonzero _ _ Ec) as [-> | Hnz].
    + destruct (IH Hs) as (z & Hz & Hall & Hvalue & Hshape & Hlength).
      exists z. change (Ascii.eqb "0" "0" || Ascii.eqb "0" "_") with true. cbv iota.
      split; [exact Hz|]. split; [exact Hall|]. split; [exact Hvalue|].
      split; [exact Hshape|]. right.
      destruct Hlength as [-> | Hlength]; [apply le_n|]. cbn [String.length]. lia.
    + assert (H0 : Ascii.eqb c "0" = false).
      { destruct (Ascii.eqb_spec c "0") as [-> | _]; [discriminate Hnz|reflexivity]. }
      rewrite H0, (digit_is_not _ _ "_" Ec) by (right; vm_compute; lia).
      rewrite Hnz. cbn [orb]. exists (String c s).
      split; [reflexivity|]. split; [cbn [all_digits]; rewrite Ec; exact Hs|].
      split; [reflexivity|]. split; [right; exists c, s; split; [reflexivity|exact Hnz]|].
      right. apply le_n.
Qed.

Lemma strip_leading_zeros_digits (ds frac : string) :
  is_digit_string ds = true ->
  (frac = EmptyString \/ exists r, frac = String "." r) ->
  exists z, strip_leading_zeros (ds ++ frac) = Some (z ++ frac)%string
    /\ all_digits z = true
    /\ digits_number 0 z = digits_number 0 ds
    /\ (z = "0"%string \/ exists c z', z = String c z' /\ is_nonzero_digit c = true)
    /\ (z = ds \/ String.length z < String.length ds).
Proof.
  destruct ds as [|c s]; [discriminate|].
  cbn [is_digit_string all_digits append strip_leading_zeros].
  destruct (digit_of c) as [dc|] eqn:Ec; [|discriminate]. intros Hs Hfrac.
  destruct (digit_zero_or_nonzero _ _ Ec) as [-> | Hnz].
  - destruct (skip_zeros_digits _ _ Hs Hfrac) as (z & Hz & Hall & Hvalue & Hshape & Hlength).
    exists z. change (Ascii.eqb "0" "0") with true. cbv iota.
    split; [exact Hz|]. split; [exact Hall|]. split; [exact Hvalue|].
    split; [exact Hshape|].
    destruct Hlength as [-> | Hlength]; [left; reflexivity|right]. cbn [String.length]. lia.
  - assert (H0 : Ascii.eqb c "0" = false).
    { destruct (Ascii.eqb_spec c "0") as [-> | _]; [discriminate Hnz|reflexivity]. }
    rewrite H0, Hnz. cbn [orb]. exists (String c s).
    split; [reflexivity|]. split; [cbn [all_digits]; rewrite Ec; exact Hs|].
    split; [reflexivity|]. split; [right; exists c, s; split; [reflexivity|exact Hnz]|].
    left. reflexivity.
Qed.

Lemma strip_decimal_zeros_whole (z frac : string) :
  all_digits z = true ->
  (frac = EmptyString
   \/ exists zeros, frac = String "." zeros /\ zeros <> EmptyString
                    /\ all_zeros zeros = true) ->
  strip_decimal_zeros (z ++ frac) = z.
Proof.
  intros Hz Hfrac. induction z as [|c z IH]; cbn [append all_digits] in *.
  - destruct Hfrac as [-> | (zeros & -> & Hne & Hzeros)]; [reflexivity|].
    cbn [strip_decimal_zeros]. change (Ascii.eqb "." ".") with true. cbv iota.
    destruct zeros as [|x zeros]; [contradiction|]. rewrite Hzeros. reflexivity.
  - cbn [strip_decimal_zeros].
    destruct (digit_of c) as [dc|] eqn:Ec; [|discriminate].
    rewrite (digit_is_not _ _ "." Ec) by (left; vm_compute; lia).
    rewrite (IH Hz). reflexivity.
Qed.

Lemma strip_underscores_digits z : all_digits z = true -> strip_underscores z = None.
Proof.
  intros Hz. unfold strip_underscores.
  assert (H : has_underscore z = false).
  { induction z as [|c z IH]; [reflexivity|]. cbn [all_digits has_underscore] in *.
    destruct (digit_of c) as [dc|] eqn:Ec; [|discriminate].
    rewrite (digit_is_not _ _ "_" Ec) by (right; vm_compute; lia).
    apply IH, Hz. }
  rewrite H. reflexivity.
Qed.

(** The parser on a minus, if any, and digits with no leading zero. *)
Lemma parse_number_int_canonical negative z :
  all_digits z = true ->
  (z = "0"%string \/ exists c z', z = String c z' /\ is_nonzero_digit c = true) ->
  String.length z <= INT_MAX_STR_DIGITS ->
  parse_number_int (with_sign negative z)
  = inr (if negative then Z.opp (digits_number 0 z) else digits_number 0 z).
Proof.
  intros Hall [-> | (c & z' & -> & Hnz)] Hlength; [destruct negative; reflexivity|].
  assert (Hc : exists dc, digit_of c = Some dc).
  { cbn [all_digits] in Hall. destruct (digit_of c) as [dc|]; [|discriminate].
    exists dc. reflexivity. }
  destruct Hc as [dc Hc].
  assert (Hbody : forall body : bool * string,
            body = (negative, String c z') ->
            (let (negative, body) := body in
             let (digits, rest) := span_digits body in
             match digits with
             | EmptyString => @inl error_type Z int_parsing
             | String c ds =>
                 if Ascii.eqb c "0" then
                   match ds, rest with
                   | EmptyString, EmptyString => inr 0%Z
                   | _, _ => inl int_parsing
                   end
                 else if Nat.ltb INT_MAX_STR_DIGITS (String.length digits)
                 then inl int_parsing_size
                 else
                   match rest, digits_value 0 digits with
                   | EmptyString, Some j => inr (if negative then Z.opp j else j)
                   | _, _ => inl int_parsing
                   end
             end)
            = inr (if negative then Z.opp (digits_number 0 (String c z'))
                   else digits_number 0 (String c z'))).
  { intros body ->. rewrite (span_digits_digits _ Hall).
    assert (H0 : Ascii.eqb c "0" = false).
    { destruct (Ascii.eqb_spec c "0") as [-> | _]; [discriminate Hnz|reflexivity]. }
    rewrite H0.
    destruct (Nat.ltb_spec INT_MAX_STR_DIGITS (String.length (String c z'))) as [Hlt | _];
      [lia|].
    rewrite (digits_value_number _ Hall). reflexivity. }
  apply Hbody. destruct negative; [reflexivity|].
  cbn [with_sign]. rewrite (digit_is_not _ _ "-" Hc) by (left; vm_compute; lia).
  reflexivity.
Qed.

(** Cleaning and parsing, once the signs are off. *)
Lemma cleaned_digits_are_read negative (digits frac t : string) :
  is_digit_string digits = true ->
  String.length digits <= INT_MAX_STR_DIGITS ->
  (frac = EmptyString
   \/ exists zeros, frac = String "." zeros /\ zeros <> EmptyString
                    /\ all_zeros zeros = true) ->
  t = with_sign negative (digits ++ frac)
  \/ (negative = false /\ t = String "+" (digits ++ frac)) ->
  match
    match strip_leading_zeros (digits ++ frac) with
    | None => None
    | Some s2 =>
        let s3 := strip_decimal_zeros s2 in
        match strip_underscores s3 with
        | Some s4 => Some (with_sign negative s4)
        | None =>
            if Nat.eqb (String.length t) (String.length s3) then None
            else Some (with_sign negative s3)
        end
    end
  with
  | Some cleaned => parse_number_int cleaned
  | None => parse_number_int t
  end
  = inr (if negative then Z.opp (digits_number 0 digits) else digits_number 0 digits).
Proof.
  intros Hdigits Hlength Hfrac Ht.
  assert (Hpoint : frac = EmptyString \/ exists r, frac = String "." r).
  { destruct Hfrac as [-> | (zeros & -> & _)]; [left; reflexivity|right].
    exists zeros. reflexivity. }
  destruct (strip_leading_zeros_digits _ _ Hdigits Hpoint)
    as (z & -> & Hall & Hvalue & Hshape & Hz).
  cbv zeta. rewrite (strip_decimal_zeros_whole _ _ Hall Hfrac).
  rewrite (strip_underscores_digits _ Hall).
  assert (Hlz : String.length z <= INT_MAX_STR_DIGITS).
  { destruct Hz as [-> | Hz]; lia. }
  rewrite <- Hvalue.
  destruct (Nat.eqb_spec (String.length t) (String.length z)) as [E | _];
    [|apply parse_number_int_canonical; assumption].
  assert (Hlt : String.length z <= String.length digits).
  { destruct Hz as [-> | Hz]; lia. }
  destruct Ht as [-> | [-> ->]].
  - destruct negative; cbn [with_sign String.length] in E; rewrite append_length in E.
    + lia.
    + destruct Hfrac as [-> | (zeros & -> & _)]; [|cbn [String.length] in E; lia].
      destruct Hz as [-> | Hz]; [|lia].
      cbn [with_sign]. rewrite append_empty.
      apply (parse_number_int_canonical false); assumption.
  - cbn [String.length] in E. rewrite append_length in E. lia.
Qed.

Lemma str_as_int_decimal (pad sign digits frac pad' : string) :
  all_chars is_whitespace pad = true ->
  all_chars is_whitespace pad' = true ->
  sign = EmptyString \/ sign = "+"%string \/ sign = "-"%string ->
  is_digit_string digits = true ->
  String.length digits <= INT_MAX_STR_DIGITS ->
  (frac = EmptyString
   \/ exists zeros, frac = String "." zeros /\ zeros <> EmptyString
                    /\ all_zeros zeros = true) ->
  str_as_int (pad ++ (sign ++ digits ++ frac) ++ pad')
  = inr (if String.eqb sign "-" then Z.opp (digits_number 0 digits)
         else digits_number 0 digits).
Proof.
  intros Hpad Hpad' Hsign Hdigits Hlength Hfrac. unfold str_as_int. cbv zeta.
  assert (Hsolid : all_chars (fun c => negb (is_whitespace c)) (sign ++ digits ++ frac)
                   = true).
  { apply decimal_solid; [exact Hsign|apply is_digit_string_all, Hdigits|].
    destruct Hfrac as [-> | (zeros & -> & _ & Hzeros)]; [left; reflexivity|right].
    exists zeros. split; [reflexivity|apply all_zeros_digits, Hzeros]. }
  rewrite (trim_padded _ _ _ Hpad Hpad' Hsolid). unfold clean_int_str.
  rewrite (trim_solid _ Hsolid).
  assert (Hc : exists c rest dc, (digits ++ frac)%string = String c rest
                                 /\ digit_of c = Some dc).
  { destruct digits as [|c ds]; [discriminate|]. cbn [is_digit_string all_digits] in Hdigits.
    destruct (digit_of c) as [dc|] eqn:Ec; [|discriminate].
    exists c, (ds ++ frac)%string, dc. split; [reflexivity|exact Ec]. }
  destruct Hc as (c & rest & dc & E & Hc).
  assert (Hplus : Ascii.eqb c "+" = false)
    by (apply (digit_is_not _ _ "+" Hc); left; vm_compute; lia).
  assert (Hminus : Ascii.eqb c "-" = false)
    by (apply (digit_is_not _ _ "-" Hc); left; vm_compute; lia).
  destruct Hsign as [-> | [-> | ->]]; cbn [append String.eqb].
  - replace (strip_plus (digits ++ frac)) with (Some (digits ++ frac)%string)
      by (rewrite E; cbn [strip_plus]; rewrite Hplus; reflexivity).
    replace (strip_minus (digits ++ frac)) with (Some (false, (digits ++ frac)%string))
      by (rewrite E; cbn [strip_minus]; rewrite Hminus; reflexivity).
    apply (cleaned_digits_are_read false); [assumption|assumption|assumption|].
    left. reflexivity.
  - replace (strip_plus (String "+" (digits ++ frac))) with (Some (digits ++ frac)%string)
      by (rewrite E; cbn [strip_plus]; rewrite Hminus; reflexivity).
    replace (strip_minus (digits ++ frac)) with (Some (false, (digits ++ frac)%string))
      by (rewrite E; cbn [strip_minus]; rewrite Hminus; reflexivity).
    apply (cleaned_digits_are_read false); [assumption|assumption|assumption|].
    right. split; reflexivity.
  - replace (strip_plus (String "-" (digits ++ frac)))
      with (Some (String "-" (digits ++ frac))) by reflexivity.
    replace (strip_minus (String "-" (digits ++ frac)))
      with (Some (true, (digits ++ frac)%string))
      by (rewrite E; cbn [strip_minus]; rewrite Hminus, Hplus; reflexivity).
    apply (cleaned_digits_are_read true); [assumption|assumption|assumption|].
    left. reflexivity.
Qed.

(** ** What the float parser reads *)

Lemma split_sign_spec s negative body :
  split_sign s = (negative, body) ->
  s = body \/ s = String "+" body \/ s = String "-" body.
Proof.
  destruct s as [|c s']; cbn [split_sign].
  - intros H. injection H as <- <-. left. reflexivity.
  - destruct (Ascii.eqb_spec c "+") as [-> | _].
    + intros H. injection H as <- <-. right. left. reflexivity.
    + destruct (Ascii.eqb_spec c "-") as [-> | _]; intros H; injection H as <- <-.
      * right. right. reflexivity.
      * left. reflexivity.
Qed.

Lemma split_sign_chars p s negative body :
  p "+"%char = true -> p "-"%char = true ->
  split_sign s = (negative, body) ->
  all_chars p body = true -> all_chars p s = true.
Proof.
  intros Hplus Hminus Hs Hbody.
  apply split_sign_spec in Hs as [-> | [-> | ->]]; [exact Hbody| |];
    cbn [all_chars]; rewrite Hbody, ?Hplus, ?Hminus; reflexivity.
Qed.

Lemma parse_int_chars s i : parse_int s = Some i -> all_chars int_char s = true.
Proof.
  unfold parse_int. destruct (split_sign s) as [negative body] eqn:Es.
  destruct (parse_digits body) as [j|] eqn:Ej; [|discriminate]. intros _.
  apply (split_sign_chars _ _ _ _ eq_refl eq_refl Es).
  destruct body as [|c b]; [discriminate|]. cbn [parse_digits] in Ej.
  apply all_digits_int_chars, (digits_value_some _ _ _ Ej).
Qed.

Lemma lower_letters body :
  all_chars (fun c => existsb (Ascii.eqb c) ["e"; "i"; "n"; "f"; "t"; "y"; "a"]%char)
    (lower_string body) = true ->
  all_chars float_char body = true.
Proof.
  induction body as [|c body IH]; [reflexivity|]. cbn [lower_string all_chars].
  intros H. apply andb_true_iff in H as [Hc H].
  rewrite (IH H), andb_true_r. unfold float_char.
  apply orb_true_iff. right. exact Hc.
Qed.

Lemma exponent_chars after_frac e :
  match after_frac with
  | EmptyString => Some 0%Z
  | String c s' => if Ascii.eqb (lower c) "e" then parse_int s' else None
  end = Some e ->
  all_chars float_char after_frac = true.
Proof.
  destruct after_frac as [|c s']; [reflexivity|].
  destruct (Ascii.eqb (lower c) "e") eqn:Ec; [|discriminate].
  intros H. apply parse_int_chars in H. cbn [all_chars].
  rewrite (all_chars_weaken _ _ _ int_char_float_char H), andb_true_r.
  unfold float_char. apply orb_true_iff. right.
  cbn [existsb]. rewrite Ec. reflexivity.
Qed.

Lemma all_digits_float_chars s : all_digits s = true -> all_chars float_char s = true.
Proof.
  intros H. apply (all_chars_weaken _ _ _ int_char_float_char), all_digits_int_chars, H.
Qed.

Lemma parse_float_chars t f : parse_float t = Some f -> all_chars float_char t = true.
Proof.
  unfold parse_float. destruct (split_sign t) as [negative body] eqn:Es. intros H.
  apply (split_sign_chars _ _ _ _ eq_refl eq_refl Es).
  destruct (String.eqb (lower_string body) "inf"
            || String.eqb (lower_string body) "infinity") eqn:Ew.
  { apply lower_letters.
    apply orb_true_iff in Ew as [Ew | Ew]; apply String.eqb_eq in Ew; rewrite Ew;
      reflexivity. }
  destruct (String.eqb (lower_string body) "nan") eqn:En.
  { apply lower_letters. apply String.eqb_eq in En. rewrite En. reflexivity. }
  destruct (span_digits body) as [int_part after_int] eqn:E1.
  apply span_digits_spec in E1 as [-> Hint].
  rewrite all_chars_app, (all_digits_float_chars _ Hint). cbn [andb].
  destruct after_int as [|c rest]; [reflexivity|].
  destruct (Ascii.eqb_spec c ".") as [-> | _].
  - destruct (span_digits rest) as [frac_part after_frac] eqn:E2.
    apply span_digits_spec in E2 as [-> Hfrac].
    cbn [all_chars]. rewrite all_chars_app, (all_digits_float_chars _ Hfrac).
    change (float_char ".") with true. cbn [andb].
    destruct (digits_value 0 (int_part ++ frac_part)); [|discriminate H].
    match type of H with
    | match ?x with Some _ => _ | None => _ end = _ =>
        destruct x as [e|] eqn:Ee; [|discriminate H]
    end.
    apply (exponent_chars _ _ Ee).
  - destruct (digits_value 0 (int_part ++ "")); [|discriminate H].
    match type of H with
    | match ?x with Some _ => _ | None => _ end = _ =>
        destruct x as [e|] eqn:Ee; [|discriminate H]
    end.
    apply (exponent_chars (String c rest) _ Ee).
Qed.

Lemma remove_underscores_chars (p : ascii -> bool) s :
  p "_"%char = true ->
  all_chars p (remove_underscores s) = true -> all_chars p s = true.
Proof.
  intros Hp. induction s as [|c s IH]; [reflexivity|]. cbn [remove_underscores].
  destruct (Ascii.eqb_spec c "_") as [-> | _].
  - intros H. cbn [all_chars]. rewrite Hp, (IH H). reflexivity.
  - cbn [all_chars]. intros H. apply andb_true_iff in H as [-> H].
    rewrite (IH H). reflexivity.
Qed.

(** No silent guess: a string read as a float is made of the characters
    of a float. *)
Lemma str_as_float_chars s f : str_as_float s = Some f -> all_chars float_char s = true.
Proof.
  unfold str_as_float. destruct (parse_float (trim s)) as [g|] eqn:E.
  - intros _. apply parse_float_chars in E.
    apply (trim_chars float_char); [|exact E].
    intros c Hc. apply int_char_float_char, whitespace_int_char, Hc.
  - unfold strip_underscores.
    destruct (has_underscore s && underscores_inside false s); [|discriminate].
    intros H. apply parse_float_chars in H.
    apply (remove_underscores_chars float_char); [reflexivity|exact H].
Qed.

Lemma digit_string_is_no_word c d s (word : string) :
  digit_of c = Some d ->
  match word with
  | EmptyString => True
  | String w _ => nat_of_ascii w < 48 \/ 57 < nat_of_ascii w
  end ->
  String.eqb (String c s) word = false.
Proof.
  intros Hc Hw. destruct word as [|w word]; [reflexivity|].
  simpl. rewrite (digit_is_not _ _ w Hc Hw). reflexivity.
Qed.

Lemma span_digits_app (a b : string) :
  all_digits a = true ->
  (b = EmptyString \/ exists r, b = String "." r) ->
  span_digits (a ++ b) = (a, b).
Proof.
  intros Ha Hb. induction a as [|c a IH]; cbn [append all_digits] in *.
  - destruct Hb as [-> | [r ->]]; reflexivity.
  - cbn [span_digits]. destruct (digit_of c); [|discriminate].
    rewrite (IH Ha). reflexivity.
Qed.

(** A sign, digits and a fraction of digits: the float nearest to the
    number with that many decimals. *)
Lemma parse_float_decimal (sign digits frac fd : string) :
  sign = EmptyString \/ sign = "+"%string \/ sign = "-"%string ->
  is_digit_string digits = true ->
  all_digits fd = true ->
  (frac = EmptyString /\ fd = EmptyString) \/ frac = String "." fd ->
  parse_float (sign ++ digits ++ frac)
  = Some (decimal_as_float (String.eqb sign "-") (digits_number 0 (digits ++ fd))
            (- Z.of_nat (String.length fd))).
Proof.
  intros Hsign Hdigits Hfd Hfrac. pose proof (is_digit_string_all _ Hdigits) as Hall.
  destruct digits as [|c s]; [discriminate|].
  assert (Hc : exists dc, digit_of c = Some dc).
  { cbn [all_digits] in Hall. destruct (digit_of c) as [dc|]; [|discriminate].
    exists dc. reflexivity. }
  destruct Hc as [dc Hc].
  assert (Hsplit : split_sign (sign ++ String c s ++ frac)
                   = (String.eqb sign "-", (String c s ++ frac)%string)).
  { destruct Hsign as [-> | [-> | ->]]; [|reflexivity|reflexivity].
    cbn [append split_sign].
    rewrite (digit_is_not _ _ "+" Hc) by (left; vm_compute; lia).
    rewrite (digit_is_not _ _ "-" Hc) by (left; vm_compute; lia).
    reflexivity. }
  unfold parse_float. rewrite Hsplit.
  change (lower_string (String c s ++ frac))
    with (String (lower c) (lower_string (s ++ frac))).
  rewrite (digit_lower _ _ Hc).
  rewrite !(digit_string_is_no_word c dc) by (try exact Hc; right; vm_compute; lia).
  cbn [orb].
  assert (Hpoint : frac = EmptyString \/ exists r, frac = String "." r).
  { destruct Hfrac as [[-> _] | ->]; [left; reflexivity|right]. exists fd. reflexivity. }
  rewrite (span_digits_app _ _ Hall Hpoint).
  assert (Hboth : all_digits (String c s ++ fd) = true)
    by (rewrite all_digits_app, Hall, Hfd; reflexivity).
  destruct Hfrac as [[-> ->] | ->].
  - rewrite (digits_value_number _ Hboth). reflexivity.
  - change (Ascii.eqb "." ".") with true. cbv iota.
    rewrite (span_digits_digits _ Hfd), (digits_value_number _ Hboth).
    cbn [String.length Nat.add Nat.eqb]. rewrite Z.sub_0_l. reflexivity.
Qed.

Lemma str_as_float_decimal (pad sign digits frac fd pad' : string) :
  all_chars is_whitespace pad = true ->
  all_chars is_whitespace pad' = true ->
  sign = EmptyString \/ sign = "+"%string \/ sign = "-"%string ->
  is_digit_string digits = true ->
  all_digits fd = true ->
  (frac = EmptyString /\ fd = EmptyString) \/ frac = String "." fd ->
  str_as_float (pad ++ (sign ++ digits ++ frac) ++ pad')
  = Some (decimal_as_float (String.eqb sign "-") (digits_number 0 (digits ++ fd))
            (- Z.of_nat (String.length fd))).
Proof.
  intros Hpad Hpad' Hsign Hdigits Hfd Hfrac. unfold str_as_float.
  assert (Hsolid : all_chars (fun c => negb (is_whitespace c)) (sign ++ digits ++ frac)
                   = true).
  { apply decimal_solid; [exact Hsign|apply is_digit_string_all, Hdigits|].
    destruct Hfrac as [[-> _] | ->]; [left; reflexivity|right].
    exists fd. split; [reflexivity|exact Hfd]. }
  rewrite (trim_padded _ _ _ Hpad Hpad' Hsolid).
  rewrite (parse_float_decimal _ _ _ _ Hsign Hdigits Hfd Hfrac). reflexivity.
Qed.

(** ** Specimens *)

(** Texts at the edges of the integer parser: a bare point and an
    underscore after the sign are refused; zeros before a minus, an
    underscore with a fraction of zeros, 4301 zeros and a no-break space
    are read. *)
Lemma str_as_int_specimens :
  str_as_int "1." = inl int_parsing
  /\ str_as_int "+_1" = inl int_parsing
  /\ str_as_int "+-1" = inl int_parsing
  /\ str_as_int "1.5" = inl int_parsing
  /\ str_as_int "1e3" = inl int_parsing
  /\ str_as_int "" = inl int_parsing
  /\ str_as_int "0-1" = inr (-1)%Z
  /\ str_as_int "-01" = inr (-1)%Z
  /\ str_as_int "1_000.0" = inr 1000%Z
  /\ str_as_int (string_of_list_ascii (repeat "0"%char 4301)) = inr 0%Z
  /\ str_as_int (string_of_list_ascii (repeat "9"%char 4301)) = inl int_parsing_size
  /\ str_as_int (String (ascii_of_nat 160) "12") = inr 12%Z.
Proof. vm_compute. repeat split. Qed.

Lemma str_as_float_specimens :
  str_as_float "1e3" = Some 1000%float
  /\ str_as_float " 1.5 " = Some 1.5%float
  /\ str_as_float "1_000.5" = Some 1000.5%float
  /\ str_as_float "-.5" = Some (-0.5)%float
  /\ str_as_float "Infinity" = Some infinity
  /\ str_as_float "1e" = None
  /\ str_as_float "." = None
  /\ str_as_float "1,5" = None
  /\ str_as_float "" = None.
Proof. vm_compute. repeat split. Qed.

(** ** Numeric fields *)


